(** * VictimCacheMissSimulator: the result post-processing scripts

    A shallow embedding of
    - [FinalProject/scripts/summarize_ss_results.py] (the collector),
    - [FinalProject/scripts/normalize_data.py] (the normalizer),
    - [FinalProject/scripts/normalize_and_plot_ss.py] (normalizer and the
      tables handed to the plotting helpers),
    and the properties of the specification stated over it.

    Conventions.
    - A Python [float] is a primitive binary64 [float]; NaN is the
      "undefined" of the normalizer, [None] and the empty string are the
      "undefined" of the collector.
    - A Python [str] is a [string] whose characters are the code points
      below 256.
    - A [DataFrame] is the list of its rows, in row order; a missing
      text cell is [None], a missing numeric cell is NaN. *)

From Stdlib Require Import ZArith NArith List String Ascii Bool Lia.
From Stdlib Require Import Floats DecimalString DecimalPos Permutation.
Import ListNotations.

(** ** Python built-ins used by the scripts *)

Module Py.

Local Open Scope string_scope.
Local Open Scope Z_scope.

Definition code (c : ascii) : Z := Z.of_N (N_of_ascii c).

Definition in_range (lo hi : Z) (c : ascii) : bool :=
  (lo <=? code c) && (code c <=? hi).

(** [\d] on code points below 256, and the digits [int] and [float] read. *)
Definition is_digit (c : ascii) : bool := in_range 48 57 c.

Definition digit_val (c : ascii) : Z := code c - 48.

(** [str.isspace] on code points below 256: what [str.strip()] removes. *)
Definition isspace (c : ascii) : bool :=
  in_range 9 13 c || in_range 28 32 c || (code c =? 133) || (code c =? 160).

(** The blanks [int(s)] and [float(s)] skip around a literal: the ASCII
    blanks of C, and the two blanks above 127, which CPython first rewrites
    to a space. *)
Definition is_numeric_blank (c : ascii) : bool :=
  in_range 9 13 c || (code c =? 32) || (code c =? 133) || (code c =? 160).

(** [str.lower] on one code point below 256. *)
Definition lower_char (c : ascii) : ascii :=
  if in_range 65 90 c || (in_range 192 222 c && negb (code c =? 215))
  then ascii_of_N (N_of_ascii c + 32)
  else c.

Fixpoint lower (s : string) : string :=
  match s with
  | EmptyString => EmptyString
  | String c s' => String (lower_char c) (lower s')
  end.

Fixpoint lstrip_by (blank : ascii -> bool) (s : string) : string :=
  match s with
  | EmptyString => EmptyString
  | String c s' => if blank c then lstrip_by blank s' else s
  end.

Fixpoint rstrip_by (blank : ascii -> bool) (s : string) : string :=
  match s with
  | EmptyString => EmptyString
  | String c s' =>
      match rstrip_by blank s' with
      | EmptyString => if blank c then EmptyString else String c EmptyString
      | r => String c r
      end
  end.

Definition strip_by (blank : ascii -> bool) (s : string) : string :=
  lstrip_by blank (rstrip_by blank s).

(** [s.strip()] *)
Definition strip (s : string) : string := strip_by isspace s.

(** [s.startswith(p)] *)
Fixpoint startswith (p s : string) : bool :=
  match p, s with
  | EmptyString, _ => true
  | String a p', String b s' => Ascii.eqb a b && startswith p' s'
  | String _ _, EmptyString => false
  end.

(** [s.split(sep)] for a one-character separator. *)
Fixpoint split (sep : ascii) (s : string) : list string :=
  match s with
  | EmptyString => [EmptyString]
  | String c s' =>
      if Ascii.eqb c sep then EmptyString :: split sep s'
      else match split sep s' with
           | w :: ws => String c w :: ws
           | [] => [String c EmptyString]
           end
  end.

Fixpoint all_chars (p : ascii -> bool) (s : string) : bool :=
  match s with
  | EmptyString => true
  | String c s' => p c && all_chars p s'
  end.

(** Longest prefix of digits, and what follows it. *)
Fixpoint span_digits (s : string) : string * string :=
  match s with
  | String c s' =>
      if is_digit c then let '(d, r) := span_digits s' in (String c d, r)
      else (EmptyString, s)
  | EmptyString => (EmptyString, EmptyString)
  end.

(** Value of a string of digits, most significant first. *)
Fixpoint digits_value (acc : Z) (s : string) : Z :=
  match s with
  | EmptyString => acc
  | String c s' => digits_value (10 * acc + digit_val c) s'
  end.

(** PEP 515: an underscore in a numeric literal stands between two
    digits. [drop_underscores prev s] checks it and removes them; [prev]
    is the character before [s]. *)
Fixpoint drop_underscores (prev : option ascii) (s : string) : option string :=
  let after_digit := match prev with Some p => is_digit p | None => false end in
  let after_underscore := match prev with Some p => Ascii.eqb p "_" | None => false end in
  match s with
  | EmptyString => if after_underscore then None else Some EmptyString
  | String c s' =>
      if Ascii.eqb c "_"
      then if after_digit then drop_underscores (Some c) s' else None
      else if after_underscore && negb (is_digit c) then None
           else option_map (String c) (drop_underscores (Some c) s')
  end.

Definition split_sign (s : string) : bool * string :=
  match s with
  | String "-" r => (true, r)
  | String "+" r => (false, r)
  | _ => (false, s)
  end.

(** [int(s)] for a [str] in base 10; [None] is [ValueError]. (CPython's
    cap on the number of digits of the literal is not modelled.) *)
Definition int_of_str (s : string) : option Z :=
  match drop_underscores None (strip_by is_numeric_blank s) with
  | None => None
  | Some t =>
      let '(neg, body) := split_sign t in
      match body with
      | EmptyString => None
      | _ => if all_chars is_digit body
             then Some (if neg then - digits_value 0 body else digits_value 0 body)
             else None
      end
  end.

(** [str(n)] for an [int]. *)
Definition str_of_int (n : Z) : string := NilEmpty.string_of_int (Z.to_int n).

(** *** Floats *)

Local Open Scope float_scope.

Inductive exn : Set := ValueError | OverflowError.

Inductive result (A : Type) : Type :=
  | Ok (a : A)
  | Raise (e : exn).
Arguments Ok {A} a.
Arguments Raise {A} e.

(** The binary64 nearest to [n / d] (ties to even) for positive [n] and
    [d], with the sign [neg]: the rounding of a decimal literal. *)
Definition float_of_ratio (neg : bool) (n d : Z) : float :=
  let '(mz, ez, lz) := SFdiv_core_binary prec emax n 0 d 0 in
  SF2Prim (binary_round_aux prec emax neg mz ez lz).

(** The float denoted by the decimal [m * 10^e] with sign [neg]. *)
Definition float_of_decimal (neg : bool) (m e : Z) : float :=
  if (m =? 0)%Z then (if neg then neg_zero else zero)
  else if (0 <=? e)%Z then float_of_ratio neg (m * 10 ^ e) 1
       else float_of_ratio neg m (10 ^ (- e)).

(** [float(d)] for a non-empty string of digits [d]. *)
Definition float_of_digits (d : string) : float :=
  float_of_decimal false (digits_value 0 d) 0.

(** [float(n)] for an [int]; [None] is [OverflowError]. *)
Definition float_of_int (n : Z) : option float :=
  match binary_normalize prec emax n 0 false with
  | S754_infinity _ => None
  | x => Some (SF2Prim x)
  end.

(** The digits of a literal after the sign: integer part, optional
    fraction, optional exponent; [None] when [s] is not such a literal. *)
Definition decimal_of_str (s : string) : option (Z * Z) :=
  let '(ip, r1) := span_digits s in
  let '(fp, r2) := match r1 with
                   | String "." r => span_digits r
                   | _ => (EmptyString, r1)
                   end in
  let m := digits_value 0 (ip ++ fp) in
  let k := Z.of_nat (String.length fp) in
  match ip ++ fp with
  | EmptyString => None
  | _ =>
      match r2 with
      | EmptyString => Some (m, - k)
      | String c r3 =>
          if Ascii.eqb c "e" || Ascii.eqb c "E"
          then let '(eneg, ds) := split_sign r3 in
               match ds with
               | EmptyString => None
               | _ => if all_chars is_digit ds
                      then Some (m, (if eneg then - digits_value 0 ds
                                     else digits_value 0 ds) - k)
                      else None
               end
          else None
      end
  end%Z.

(** [float(s)] for a [str]; [None] is [ValueError]. *)
Definition float_of_str (s : string) : option float :=
  match drop_underscores None (strip_by is_numeric_blank s) with
  | None => None
  | Some t =>
      let '(neg, body) := split_sign t in
      let word := lower body in
      if String.eqb word "inf" || String.eqb word "infinity"
      then Some (if neg then neg_infinity else infinity)
      else if String.eqb word "nan" then Some nan
      else match decimal_of_str body with
           | Some (m, e) => Some (float_of_decimal neg m e)
           | None => None
           end
  end.

(** [int(x)] for a [float]: truncation toward zero. *)
Definition int_of_float (x : float) : result Z :=
  match Prim2SF x with
  | S754_nan => Raise ValueError
  | S754_infinity _ => Raise OverflowError
  | S754_zero _ => Ok 0%Z
  | S754_finite s m e =>
      let a := match e with
               | Zneg p => (Zpos m / 2 ^ Zpos p)%Z
               | _ => (Zpos m * 2 ^ e)%Z
               end in
      Ok (if s then (- a)%Z else a)
  end.

(** Nearest integer to [n / d], ties to even, for [0 <= n] and [0 < d]. *)
Definition round_half_even (n d : Z) : Z :=
  let q := (n / d)%Z in
  let r := (n mod d)%Z in
  match (2 * r ?= d)%Z with
  | Lt => q
  | Gt => (q + 1)%Z
  | Eq => if Z.even q then q else (q + 1)%Z
  end.

Definition digit_char (d : Z) : ascii := ascii_of_N (Z.to_N (48 + d)).

(** [n] ten-thousandths written with four decimals. *)
Definition fixed4 (n : Z) : string :=
  (str_of_int (n / 10000)
   ++ "."
   ++ String (digit_char (n / 1000 mod 10))
        (String (digit_char (n / 100 mod 10))
           (String (digit_char (n / 10 mod 10))
              (String (digit_char (n mod 10)) EmptyString))))%Z%string.

(** [f"{x:.4f}"]: the exact value of [x] rounded to four decimals, ties
    to even; the sign is kept on a result that rounds to zero. *)
Definition format_4f (x : float) : string :=
  match Prim2SF x with
  | S754_nan => "nan"
  | S754_infinity s => if s then "-inf" else "inf"
  | S754_zero s => ((if s then "-" else "") ++ "0.0000")%string
  | S754_finite s m e =>
      let n := match e with
               | Zneg p => round_half_even (Zpos m * 10000) (2 ^ Zpos p)
               | _ => (Zpos m * 10000 * 2 ^ e)%Z
               end in
      ((if s then "-" else "") ++ fixed4 n)%string
  end.

End Py.

(** ** The two regular expressions of the normalizer

    Python's backtracking matcher, specialised to the patterns of the
    scripts. In both patterns a run [\d+] is followed by a character that
    is no digit, so the longest run is the only one that can match. *)

Module Re.

Import Py.
Local Open Scope string_scope.

(** A literal under [re.IGNORECASE]: the text matched, and the rest. *)
Fixpoint literal_ci (p s : string) : option (string * string) :=
  match p, s with
  | EmptyString, _ => Some (EmptyString, s)
  | String a p', String b s' =>
      if Ascii.eqb (lower_char b) a
      then match literal_ci p' s' with
           | Some (t, r) => Some (String b t, r)
           | None => None
           end
      else None
  | String _ _, EmptyString => None
  end.

(** A literal, case respected: the rest after it. *)
Fixpoint literal (p s : string) : option string :=
  match p, s with
  | EmptyString, _ => Some s
  | String a p', String b s' => if Ascii.eqb a b then literal p' s' else None
  | String _ _, EmptyString => None
  end.

(** [\d+] *)
Definition digits1 (s : string) : option (string * string) :=
  match span_digits s with
  | (EmptyString, _) => None
  | (d, r) => Some (d, r)
  end.

(** [:] *)
Definition colon (s : string) : option (string * string) :=
  match s with
  | String ":" r => Some (":", r)
  | _ => None
  end.

(** [[lfr]] under [re.IGNORECASE] *)
Definition policy (s : string) : option (string * string) :=
  match s with
  | String c r =>
      if Ascii.eqb (lower_char c) "l" || Ascii.eqb (lower_char c) "f"
         || Ascii.eqb (lower_char c) "r"
      then Some (String c EmptyString, r)
      else None
  | EmptyString => None
  end.

(** Sequencing of two matchers: the texts are concatenated. *)
Definition seq (m1 m2 : string -> option (string * string)) (s : string)
  : option (string * string) :=
  match m1 s with
  | Some (t1, r1) =>
      match m2 r1 with
      | Some (t2, r2) => Some (t1 ++ t2, r2)
      | None => None
      end
  | None => None
  end.

(** [<name>:\d+:\d+:\d+:[lfr]] at the head of [s]. *)
Definition geometry (name : string) : string -> option (string * string) :=
  seq (literal_ci name)
    (seq colon (seq digits1 (seq colon (seq digits1 (seq colon
      (seq digits1 (seq colon policy))))))).

(** [CFG_RE = (dl1:\d+:\d+:\d+:[lfr])|(ul2:\d+:\d+:\d+:[lfr])], ignoring
    case, matched at the head of [s]: [m.group(0)]. *)
Definition CFG_RE_match (s : string) : option string :=
  match geometry "dl1" s with
  | Some (t, _) => Some t
  | None =>
      match geometry "ul2" s with
      | Some (t, _) => Some t
      | None => None
      end
  end.

(** [CFG_RE.finditer(s)]: the matches from left to right, none
    overlapping. [skip] characters of [s] belong to the previous match. *)
Fixpoint finditer_from (skip : nat) (s : string) : list string :=
  match s with
  | EmptyString => []
  | String _ s' =>
      match skip with
      | S k => finditer_from k s'
      | O =>
          match CFG_RE_match s with
          | Some t => t :: finditer_from (String.length t - 1) s'
          | None => finditer_from 0 s'
          end
      end
  end.

Definition finditer (s : string) : list string := finditer_from 0 s.

(** [(?:_|$)]: an underscore, the end, or the newline that ends [s]. *)
Definition knob_end (s : string) : bool :=
  match s with
  | EmptyString => true
  | String c r =>
      Ascii.eqb c "_" || (Ascii.eqb c "010" && String.eqb r EmptyString)
  end.

(** [<prefix>(\d+)(?:_|$)] at the head of [s]: group 1. *)
Definition knob_here (prefix s : string) : option string :=
  match literal prefix s with
  | Some r =>
      match span_digits r with
      | (EmptyString, _) => None
      | (d, r') => if knob_end r' then Some d else None
      end
  | None => None
  end.

(** [re.search(r"(?:^|_)<prefix>(\d+)(?:_|$)", s)]: group 1 of the
    leftmost match. [at_start] holds at offset 0, where [^] matches. *)
Fixpoint search_from (at_start : bool) (prefix s : string) : option string :=
  let anchored := if at_start then knob_here prefix s else None in
  let after_underscore :=
    match s with
    | String "_" r => knob_here prefix r
    | _ => None
    end in
  match anchored, after_underscore, s with
  | Some d, _, _ => Some d
  | None, Some d, _ => Some d
  | None, None, String _ s' => search_from false prefix s'
  | None, None, EmptyString => None
  end.

Definition search_knob (prefix s : string) : option string :=
  search_from true prefix s.

End Re.

(** ** The pandas operations used by the normalizer *)

Module Pd.

Import Py.
Local Open Scope string_scope.

(** A cell of a column as [read_csv] leaves it: an [int64] or a [float64]
    value, or a string of an [object] column. An empty field is NaN. *)
Inductive cell : Type :=
  | Int (n : Z)
  | Num (x : float)
  | Text (s : string).

(** [pd.isna(x)] *)
Definition isna (x : cell) : bool :=
  match x with
  | Num f => is_nan f
  | _ => false
  end.

(** [str(x)] for a cell of a text column: a missing one is NaN. *)
Definition str_of_text (x : option string) : string :=
  match x with
  | Some s => s
  | None => "nan"
  end.

(** [column.isin(values)] for one cell of a text column. *)
Definition isin (s : string) (values : list string) : bool :=
  existsb (String.eqb s) values.

(** [column.unique()]: the values in order of first appearance. *)
Fixpoint unique (l : list string) : list string :=
  match l with
  | [] => []
  | x :: l' => x :: filter (fun y => negb (String.eqb y x)) (unique l')
  end.

Fixpoint insert_sorted (x : string) (l : list string) : list string :=
  match l with
  | [] => [x]
  | y :: l' => if String.leb x y then x :: l else y :: insert_sorted x l'
  end.

(** [sorted(l)] for strings. *)
Definition sorted (l : list string) : list string :=
  fold_right insert_sorted [] l.

(** A text key with NaN last, as group labels are ordered. *)
Definition label_compare (a b : option string) : comparison :=
  match a, b with
  | Some x, Some y => String.compare x y
  | Some _, None => Lt
  | None, Some _ => Gt
  | None, None => Eq
  end.

Definition label_leb (a b : option string) : bool :=
  match label_compare a b with
  | Gt => false
  | _ => true
  end.

Definition label_eqb (a b : option string) : bool :=
  match a, b with
  | Some x, Some y => String.eqb x y
  | None, None => true
  | _, _ => false
  end.

Section GroupBy.

Context {K R : Type}.
Variable eqb : K -> K -> bool.
Variable leb : K -> K -> bool.
Variable key : R -> K.

(** The rows of one key, in row order. *)
Definition rows_with_key (k : K) (rows : list R) : list R :=
  filter (fun r => eqb (key r) k) rows.

(** One pass over the rows: a row joins the group of its key, and a key
    seen for the first time opens a group. *)
Fixpoint add_to_group (r : R) (groups : list (K * list R)) : list (K * list R) :=
  match groups with
  | [] => [(key r, [r])]
  | (k, rows) :: rest =>
      if eqb (key r) k then (k, (rows ++ [r])%list) :: rest
      else (k, rows) :: add_to_group r rest
  end.

Definition groups_of (rows : list R) : list (K * list R) :=
  fold_left (fun groups r => add_to_group r groups) rows [].

Fixpoint insert_group (g : K * list R) (groups : list (K * list R))
  : list (K * list R) :=
  match groups with
  | [] => [g]
  | h :: rest => if leb (fst g) (fst h) then g :: groups
                 else h :: insert_group g rest
  end.

(** [rows.groupby(key, dropna=False)]: the groups, ordered by key. *)
Definition groupby (rows : list R) : list (K * list R) :=
  fold_right insert_group [] (groups_of rows).

Context {B O : Type}.
Variable right_key : B -> K.
Variable joined : R -> option B -> O.

(** [left.merge(right, on=key, how="left")]: every left row, in order,
    once per right row of the same key, and once with the right columns
    missing when there is none. *)
Definition merge_left (left : list R) (right : list B) : list O :=
  flat_map
    (fun r =>
       match filter (fun b => eqb (key r) (right_key b)) right with
       | [] => [joined r None]
       | matches => map (fun b => joined r (Some b)) matches
       end)
    left.

End GroupBy.

(** What the ["mean"] reducer returns on a column without rounding
    concerns: the mean of the values that are not NaN, summed in row
    order, NaN when there is none. Used to evaluate the model; the
    theorems hold for every reducer. *)
Definition nanmean (xs : list float) : float :=
  match filter (fun x => negb (is_nan x)) xs with
  | [] => nan
  | ys => (fold_left add ys zero
           / SF2Prim (binary_normalize prec emax (Z.of_nat (List.length ys)) 0 false))%float
  end.

End Pd.

(** ** The tables of the normalizer *)

Module Table.

Import Pd.

(** A row of [ss_summary_all.csv] as [read_csv] returns it. [raw_other]
    holds the columns the normalizer never reads ([il1_miss_rate],
    [sim_num_insn], ..., [source_csv]). *)
Record raw_row : Type := {
  raw_config : option string;
  raw_benchmark : option string;
  raw_mode : option string;
  raw_dl1_miss_rate : cell;
  raw_ul2_miss_rate : cell;
  raw_sim_CPI : cell;
  raw_vc_hit_rate : cell;
  raw_mc_hit_rate : cell;
  raw_sb_hit_rate : cell;
  raw_ul2_total_accesses : cell;
  raw_other : list cell
}.

(** A row of [df] when [main] calls [normalize_against_baseline]. *)
Record row : Type := {
  config : option string;
  benchmark : option string;
  mode : string;
  dl1_cfg : option string;
  ul2_cfg : option string;
  dl1_bytes : float;
  ul2_bytes : float;
  vc_entries : float;
  mc_entries : float;
  sb_depth : float;
  dl1_miss_rate : float;
  ul2_miss_rate : float;
  sim_CPI : float;
  vc_hit_rate : float;
  mc_hit_rate : float;
  sb_hit_rate : float;
  ul2_total_accesses : float;
  ul2_demand : float;
  other : list cell
}.

(** The cache point of a row: the key of the baseline join. *)
Definition cachepoint : Type := option string * option string * option string.

Definition cachepoint_eqb (a b : cachepoint) : bool :=
  let '(a1, a2, a3) := a in
  let '(b1, b2, b3) := b in
  label_eqb a1 b1 && label_eqb a2 b2 && label_eqb a3 b3.

Definition cachepoint_leb (a b : cachepoint) : bool :=
  let '(a1, a2, a3) := a in
  let '(b1, b2, b3) := b in
  match label_compare a1 b1 with
  | Lt => true
  | Gt => false
  | Eq => match label_compare a2 b2 with
          | Lt => true
          | Gt => false
          | Eq => match label_compare a3 b3 with
                  | Gt => false
                  | _ => true
                  end
          end
  end.

(** A row of [base]: the key and the four aggregates. *)
Record base_row : Type := {
  base_key : cachepoint;
  base_dl1_miss : float;
  base_ul2_miss : float;
  base_ul2_demand : float;
  base_cpi : float
}.

(** A row of [out] after the merge. *)
Record merged_row : Type := {
  left_row : row;
  dl1_miss_base : float;
  ul2_miss_base : float;
  ul2_demand_base : float;
  cpi_base : float
}.

(** The columns of [base] on a left row; NaN when no row of [base] has
    its key. *)
Definition joined (r : row) (b : option base_row) : merged_row :=
  match b with
  | Some b => {| left_row := r;
                 dl1_miss_base := base_dl1_miss b;
                 ul2_miss_base := base_ul2_miss b;
                 ul2_demand_base := base_ul2_demand b;
                 cpi_base := base_cpi b |}
  | None => {| left_row := r;
               dl1_miss_base := nan;
               ul2_miss_base := nan;
               ul2_demand_base := nan;
               cpi_base := nan |}
  end.

(** A row of the table [normalize_against_baseline] returns. *)
Record norm_row : Type := {
  merged : merged_row;
  dl1_miss_norm : float;
  ul2_miss_norm : float;
  ul2_demand_norm : float;
  cpi_norm : float
}.

Definition row_of (n : norm_row) : row := left_row (merged n).

End Table.

(** ** normalize_data.py *)

Module NormalizeData.

Import Py Re Pd Table.
Local Open Scope string_scope.

Definition REF_DL1 : string := "dl1:1024:32:1:l".
Definition REF_UL2 : string := "ul2:16384:64:4:l".

Definition EXCLUDE_MODES : list string := ["stream_multi"].

(** [_to_float]: NaN for a missing cell, an empty string and whatever
    [float] rejects. On a float that is not NaN, [float(str(x))] is [x]:
    [str] prints the shortest literal that reads back as [x]. *)
Definition _to_float (x : cell) : float :=
  let parse s :=
    if String.eqb s "" then nan
    else match float_of_str s with
         | Some f => f
         | None => nan
         end in
  if isna x then nan
  else match x with
       | Num f => f
       | Int n => parse (strip (str_of_int n))
       | Text t => parse (strip t)
       end.

Definition parse_cache_cfg (config_str : option string)
  : option string * option string :=
  fold_left
    (fun '(dl1, ul2) m =>
       let token := lower m in
       if startswith "dl1:" token then (Some token, ul2)
       else if startswith "ul2:" token then (dl1, Some token)
       else (dl1, ul2))
    (finditer (str_of_text config_str))
    (None, None).

Definition cache_bytes (cache_cfg : option string) : float :=
  match cache_cfg with
  | None => nan
  | Some EmptyString => nan
  | Some cfg =>
      let parts := split ":" cfg in
      if (List.length parts <? 5)%nat then nan
      else match int_of_str (nth 1 parts ""),
                 int_of_str (nth 2 parts ""),
                 int_of_str (nth 3 parts "") with
           | Some nsets, Some bsize, Some assoc =>
               match float_of_int (nsets * bsize * assoc) with
               | Some f => f
               | None => nan
               end
           | _, _, _ => nan
           end
  end.

Definition parse_knobs (config_str : option string) : float * float * float :=
  let s := lower (str_of_text config_str) in
  let vc := search_knob "vc" s in
  let mc := search_knob "mc" s in
  let d := search_knob "d" s in
  let vc_entries := match vc with Some g => float_of_digits g | None => nan end in
  let mc_entries := match mc with Some g => float_of_digits g | None => nan end in
  let sb_depth := match d with Some g => float_of_digits g | None => nan end in
  (vc_entries, mc_entries, sb_depth).

Definition key (r : row) : cachepoint := (benchmark r, dl1_cfg r, ul2_cfg r).

Definition safe_div (a b : cell) : float :=
  let a := _to_float a in
  let b := _to_float b in
  if is_nan a || is_nan b || (b =? 0)%float then nan
  else (a / b)%float.

Section Normalization.

(** The ["mean"] reducer of [groupby(...).agg]: a function of the
    group's values of one column, in row order. *)
Variable mean : list float -> float.

Definition baseline_of (df : list row) : list base_row :=
  map
    (fun g =>
       {| base_key := fst g;
          base_dl1_miss := mean (map dl1_miss_rate (snd g));
          base_ul2_miss := mean (map ul2_miss_rate (snd g));
          base_ul2_demand := mean (map ul2_demand (snd g));
          base_cpi := mean (map sim_CPI (snd g)) |})
    (groupby cachepoint_eqb cachepoint_leb key
       (filter (fun r => String.eqb (mode r) "baseline") df)).

Definition normalize_against_baseline (df : list row) : list norm_row :=
  let base := baseline_of df in
  let out := merge_left cachepoint_eqb key base_key joined df base in
  map
    (fun o =>
       let r := left_row o in
       {| merged := o;
          dl1_miss_norm := safe_div (Num (dl1_miss_rate r)) (Num (dl1_miss_base o));
          ul2_miss_norm := safe_div (Num (ul2_miss_rate r)) (Num (ul2_miss_base o));
          ul2_demand_norm := safe_div (Num (ul2_demand r)) (Num (ul2_demand_base o));
          cpi_norm := safe_div (Num (sim_CPI r)) (Num (cpi_base o)) |})
    out.

(** The columns [main] adds to a row of the input, whose mode it has
    standardized to [m]. *)
Definition prepare (m : string) (r : raw_row) : row :=
  let dl1_ul2 := parse_cache_cfg (raw_config r) in
  let knobs := parse_knobs (raw_config r) in
  let total := _to_float (raw_ul2_total_accesses r) in
  {| config := raw_config r;
     benchmark := raw_benchmark r;
     mode := m;
     dl1_cfg := fst dl1_ul2;
     ul2_cfg := snd dl1_ul2;
     dl1_bytes := cache_bytes (fst dl1_ul2);
     ul2_bytes := cache_bytes (snd dl1_ul2);
     vc_entries := fst (fst knobs);
     mc_entries := snd (fst knobs);
     sb_depth := snd knobs;
     dl1_miss_rate := _to_float (raw_dl1_miss_rate r);
     ul2_miss_rate := _to_float (raw_ul2_miss_rate r);
     sim_CPI := _to_float (raw_sim_CPI r);
     vc_hit_rate := _to_float (raw_vc_hit_rate r);
     mc_hit_rate := _to_float (raw_mc_hit_rate r);
     sb_hit_rate := _to_float (raw_sb_hit_rate r);
     ul2_total_accesses := total;
     ul2_demand := total;
     other := raw_other r |}.

(** [df] when [main] calls [normalize_against_baseline]: the modes
    standardized, the excluded modes dropped, the columns added. *)
Definition prepared (df : list raw_row) : list row :=
  let df := map (fun r => (lower (strip (str_of_text (raw_mode r))), r)) df in
  let df := filter (fun mr => negb (isin (fst mr) EXCLUDE_MODES)) df in
  map (fun mr => prepare (fst mr) (snd mr)) df.

(** A row of the table [main] writes to [OUT_NORMALIZED]. *)
Record report_row : Type := {
  norm : norm_row;
  has_baseline_for_cachepoint : bool
}.

(** The table [main] writes, for the table [read_csv] returned. *)
Definition main (df : list raw_row) : list report_row :=
  map
    (fun n =>
       {| norm := n;
          has_baseline_for_cachepoint := negb (is_nan (dl1_miss_base (merged n))) |})
    (normalize_against_baseline (prepared df)).

(** The count [main] prints as "Baseline missing for ... rows". *)
Definition base_missing (df : list raw_row) : nat :=
  List.length (filter (fun r => negb (has_baseline_for_cachepoint r)) (main df)).

End Normalization.

End NormalizeData.

(** ** normalize_and_plot_ss.py *)

Module NormalizeAndPlot.

Import Py Re Pd Table.
Local Open Scope string_scope.

Definition REF_DL1 : string := "dl1:1024:32:1:l".
Definition REF_UL2 : string := "ul2:16384:64:4:l".

Definition REF_VC : float := 4.
Definition REF_MC : float := 4.
Definition REF_SB_DEPTH : float := 4.

Definition EXCLUDE_MODES : list string := ["stream_multi"].

Definition MODE_ORDER : list string :=
  ["baseline"; "victim"; "miss"; "stream"; "victim_stream"; "miss_stream"].

Definition _to_float (x : cell) : float :=
  let parse s :=
    if String.eqb s "" then nan
    else match float_of_str s with
         | Some f => f
         | None => nan
         end in
  if isna x then nan
  else match x with
       | Num f => f
       | Int n => parse (strip (str_of_int n))
       | Text t => parse (strip t)
       end.

Definition parse_cache_cfg (config_str : option string)
  : option string * option string :=
  fold_left
    (fun '(dl1, ul2) m =>
       let tok := lower m in
       if startswith "dl1:" tok then (Some tok, ul2)
       else if startswith "ul2:" tok then (dl1, Some tok)
       else (dl1, ul2))
    (finditer (str_of_text config_str))
    (None, None).

Definition cache_bytes (cache_cfg : option string) : float :=
  match cache_cfg with
  | None => nan
  | Some EmptyString => nan
  | Some cfg =>
      let parts := split ":" cfg in
      if (List.length parts <? 5)%nat then nan
      else match int_of_str (nth 1 parts ""),
                 int_of_str (nth 2 parts ""),
                 int_of_str (nth 3 parts "") with
           | Some nsets, Some bsize, Some assoc =>
               match float_of_int (nsets * bsize * assoc) with
               | Some f => f
               | None => nan
               end
           | _, _, _ => nan
           end
  end.

Definition parse_knobs (config_str : option string) : float * float * float :=
  let s := lower (str_of_text config_str) in
  let vc := search_knob "vc" s in
  let mc := search_knob "mc" s in
  let d := search_knob "d" s in
  let vc_entries := match vc with Some g => float_of_digits g | None => nan end in
  let mc_entries := match mc with Some g => float_of_digits g | None => nan end in
  let sb_depth := match d with Some g => float_of_digits g | None => nan end in
  (vc_entries, mc_entries, sb_depth).

Definition key (r : row) : cachepoint := (benchmark r, dl1_cfg r, ul2_cfg r).

Definition safe_div (a b : cell) : float :=
  let a := _to_float a in
  let b := _to_float b in
  if is_nan a || is_nan b || (b =? 0)%float then nan
  else (a / b)%float.

(** *** Reference filtering *)

Definition filter_ref_knobs_for_mode (df : list norm_row) (mode : string)
  : list norm_row :=
  let g := filter (fun r => String.eqb (Table.mode (row_of r)) mode) df in
  if String.eqb mode "baseline" then g
  else if String.eqb mode "victim" then
    filter (fun r => (vc_entries (row_of r) =? REF_VC)%float) g
  else if String.eqb mode "miss" then
    filter (fun r => (mc_entries (row_of r) =? REF_MC)%float) g
  else if String.eqb mode "stream" then
    filter (fun r => (sb_depth (row_of r) =? REF_SB_DEPTH)%float) g
  else if String.eqb mode "victim_stream" then
    filter (fun r => (vc_entries (row_of r) =? REF_VC)%float
                     && (sb_depth (row_of r) =? REF_SB_DEPTH)%float) g
  else if String.eqb mode "miss_stream" then
    filter (fun r => (mc_entries (row_of r) =? REF_MC)%float
                     && (sb_depth (row_of r) =? REF_SB_DEPTH)%float) g
  else g.

Definition filter_ref_knobs_all_modes (df : list norm_row) : list norm_row :=
  let parts :=
    map (fun m => filter_ref_knobs_for_mode df m)
        (sorted (unique (map (fun r => Table.mode (row_of r)) df))) in
  match parts with
  | [] => []
  | _ => List.concat parts
  end.

(** *** The tables [main] hands to the plotting helpers *)

Definition pair_eqb (a b : option string * option string) : bool :=
  label_eqb (fst a) (fst b) && label_eqb (snd a) (snd b).

Definition pair_leb (a b : option string * option string) : bool :=
  match label_compare (fst a) (fst b) with
  | Lt => true
  | Gt => false
  | Eq => label_leb (snd a) (snd b)
  end.

(** [norm[(norm["dl1_cfg"] == REF_DL1) & (norm["ul2_cfg"] == REF_UL2)]] *)
Definition at_reference (norm : list norm_row) : list norm_row :=
  filter (fun r => label_eqb (dl1_cfg (row_of r)) (Some REF_DL1)
                   && label_eqb (ul2_cfg (row_of r)) (Some REF_UL2)) norm.

(** [t.groupby("benchmark")]: the groups of the rows that have one. *)
Definition by_benchmark (t : list norm_row) : list (list norm_row) :=
  map snd
    (groupby label_eqb label_leb (fun r => benchmark (row_of r))
       (filter (fun r => match benchmark (row_of r) with
                         | Some _ => true
                         | None => false
                         end) t)).

(** Charts 1 and 7: one table per benchmark and level-2 configuration. *)
Definition size_sweep_tables (norm : list norm_row) : list (list norm_row) :=
  flat_map
    (fun g =>
       match snd (fst g) with
       | None => []
       | Some _ => [filter_ref_knobs_all_modes (snd g)]
       end)
    (groupby pair_eqb pair_leb
       (fun r => (benchmark (row_of r), ul2_cfg (row_of r))) norm).

(** Charts 2 and 8: the bars at the reference cache point. *)
Definition reference_table (norm : list norm_row) : list norm_row :=
  filter_ref_knobs_all_modes (at_reference norm).

(** Chart 3: victim-cache entries against victim-cache hit rate. *)
Definition vc_tables (norm : list norm_row) : list (list norm_row) :=
  let vc := at_reference norm in
  let vc := filter (fun r => isin (Table.mode (row_of r)) ["victim"; "victim_stream"]) vc in
  let vc_vs := filter (fun r => String.eqb (Table.mode (row_of r)) "victim_stream") vc in
  let vc_v := filter (fun r => String.eqb (Table.mode (row_of r)) "victim") vc in
  let vc_vs := filter (fun r => (sb_depth (row_of r) =? REF_SB_DEPTH)%float) vc_vs in
  by_benchmark (vc_v ++ vc_vs)%list.

(** Chart 4: miss-cache entries against miss-cache hit rate. *)
Definition mc_tables (norm : list norm_row) : list (list norm_row) :=
  let mc := at_reference norm in
  let mc := filter (fun r => isin (Table.mode (row_of r)) ["miss"; "miss_stream"]) mc in
  let mc_ms := filter (fun r => String.eqb (Table.mode (row_of r)) "miss_stream") mc in
  let mc_m := filter (fun r => String.eqb (Table.mode (row_of r)) "miss") mc in
  let mc_ms := filter (fun r => (sb_depth (row_of r) =? REF_SB_DEPTH)%float) mc_ms in
  by_benchmark (mc_m ++ mc_ms)%list.

(** Chart 5: stream-buffer depth against stream-buffer hit rate. *)
Definition sb_tables (norm : list norm_row) : list (list norm_row) :=
  let sb := at_reference norm in
  let sb := filter (fun r => isin (Table.mode (row_of r))
                               ["stream"; "victim_stream"; "miss_stream"]) sb in
  let sb_s := filter (fun r => String.eqb (Table.mode (row_of r)) "stream") sb in
  let sb_vs := filter (fun r => String.eqb (Table.mode (row_of r)) "victim_stream") sb in
  let sb_ms := filter (fun r => String.eqb (Table.mode (row_of r)) "miss_stream") sb in
  let sb_vs := filter (fun r => (vc_entries (row_of r) =? REF_VC)%float) sb_vs in
  let sb_ms := filter (fun r => (mc_entries (row_of r) =? REF_MC)%float) sb_ms in
  by_benchmark (sb_s ++ sb_vs ++ sb_ms)%list.

(** Chart 6: the baseline rows with a level-2 capacity, which [main]
    averages per benchmark, level-1 configuration and capacity. *)
Definition base_only (norm : list norm_row) : list norm_row :=
  filter (fun r => negb (is_nan (ul2_bytes (row_of r))))
    (filter (fun r => String.eqb (Table.mode (row_of r)) "baseline") norm).


Section Normalization.

Variable mean : list float -> float.

Definition baseline_of (df : list row) : list base_row :=
  map
    (fun g =>
       {| base_key := fst g;
          base_dl1_miss := mean (map dl1_miss_rate (snd g));
          base_ul2_miss := mean (map ul2_miss_rate (snd g));
          base_ul2_demand := mean (map ul2_demand (snd g));
          base_cpi := mean (map sim_CPI (snd g)) |})
    (groupby cachepoint_eqb cachepoint_leb key
       (filter (fun r => String.eqb (mode r) "baseline") df)).

Definition normalize_against_baseline (df : list row) : list norm_row :=
  let base := baseline_of df in
  let out := merge_left cachepoint_eqb key base_key joined df base in
  map
    (fun o =>
       let r := left_row o in
       {| merged := o;
          dl1_miss_norm := safe_div (Num (dl1_miss_rate r)) (Num (dl1_miss_base o));
          ul2_miss_norm := safe_div (Num (ul2_miss_rate r)) (Num (ul2_miss_base o));
          ul2_demand_norm := safe_div (Num (ul2_demand r)) (Num (ul2_demand_base o));
          cpi_norm := safe_div (Num (sim_CPI r)) (Num (cpi_base o)) |})
    out.

Definition prepare (m : string) (r : raw_row) : row :=
  let dl1_ul2 := parse_cache_cfg (raw_config r) in
  let knobs := parse_knobs (raw_config r) in
  let total := _to_float (raw_ul2_total_accesses r) in
  {| config := raw_config r;
     benchmark := raw_benchmark r;
     mode := m;
     dl1_cfg := fst dl1_ul2;
     ul2_cfg := snd dl1_ul2;
     dl1_bytes := cache_bytes (fst dl1_ul2);
     ul2_bytes := cache_bytes (snd dl1_ul2);
     vc_entries := fst (fst knobs);
     mc_entries := snd (fst knobs);
     sb_depth := snd knobs;
     dl1_miss_rate := _to_float (raw_dl1_miss_rate r);
     ul2_miss_rate := _to_float (raw_ul2_miss_rate r);
     sim_CPI := _to_float (raw_sim_CPI r);
     vc_hit_rate := _to_float (raw_vc_hit_rate r);
     mc_hit_rate := _to_float (raw_mc_hit_rate r);
     sb_hit_rate := _to_float (raw_sb_hit_rate r);
     ul2_total_accesses := total;
     ul2_demand := total;
     other := raw_other r |}.

Definition prepared (df : list raw_row) : list row :=
  let df := map (fun r => (lower (strip (str_of_text (raw_mode r))), r)) df in
  let df := filter (fun mr => negb (isin (fst mr) EXCLUDE_MODES)) df in
  map (fun mr => prepare (fst mr) (snd mr)) df.

(** The table [main] writes to [OUT_NORMALIZED] and draws from. *)
Definition main (df : list raw_row) : list norm_row :=
  normalize_against_baseline (prepared df).

End Normalization.

End NormalizeAndPlot.

(** ** summarize_ss_results.py *)

Module Summarize.

Import Py.
Local Open Scope string_scope.

Definition SUMMARY_PATH : string := "results/ss/ss_summary_all.csv".

(** A row of [csv.DictReader]: the value under a field name, [None] when
    the file has no such column or the line is too short. *)
Definition csv_row : Type := string -> option string.

(** [(row.get(name) or "").strip()] *)
Definition field (row : csv_row) (name : string) : string :=
  strip (match row name with
         | Some v => v
         | None => ""
         end).

Definition safe_float (val : option string) : option float :=
  match val with
  | None => None
  | Some v =>
      let s := strip v in
      if String.eqb s "" then None else float_of_str s
  end.

(** The hit rate of one mechanism (victim cache, miss cache, stream
    buffer): [main] computes each of the three with these lines. *)
Definition hit_rate (lookups hits : string) : string :=
  let lookup_f := safe_float (Some lookups) in
  let hits_f := safe_float (Some hits) in
  match lookup_f, hits_f with
  | Some l, Some h => if (0 <? l)%float then format_4f (h / l)%float else ""
  | _, _ => ""
  end.

(** [x or 0.0] *)
Definition or_zero (x : option float) : float :=
  match x with
  | Some f => if (f =? 0)%float then zero else f
  | None => zero
  end.

(** The total of the level-2 accesses; [int] raises on a sum that is NaN
    or infinite, and nothing in [main] catches it. *)
Definition ul2_total_of (ul2_d ul2_i : string) : result string :=
  let ul2_d_f := or_zero (safe_float (Some ul2_d)) in
  let ul2_i_f := or_zero (safe_float (Some ul2_i)) in
  if (negb (String.eqb ul2_d "") && negb (String.eqb (strip ul2_d) ""))
     || (negb (String.eqb ul2_i "") && negb (String.eqb (strip ul2_i) ""))
  then match int_of_float (ul2_d_f + ul2_i_f)%float with
       | Ok n => Ok (str_of_int n)
       | Raise e => Raise e
       end
  else Ok "".

(** A row of [rows_out]. *)
Record summary_row : Type := {
  config : string;
  benchmark : string;
  mode : string;
  il1_miss_rate : string;
  dl1_miss_rate : string;
  ul2_miss_rate : string;
  sim_num_insn : string;
  sim_elapsed_time : string;
  sim_CPI : string;
  vc_lookups : string;
  vc_hits : string;
  vc_hit_rate : string;
  mc_lookups : string;
  mc_hits : string;
  mc_hit_rate : string;
  sb_lookups : string;
  sb_hits : string;
  sb_hit_rate : string;
  sb_prefetches : string;
  ul2_d_accesses : string;
  ul2_i_accesses : string;
  ul2_total_accesses : string;
  source_csv : string
}.

(** The body of the loop over the rows of one file: [Ok None] for a row
    that is skipped, [Ok (Some r)] for the row appended to [rows_out]. *)
Definition summarize_row (cfg csv_path : string) (row : csv_row)
  : result (option summary_row) :=
  let bench := field row "benchmark" in
  let mode := field row "mode" in
  if String.eqb bench "" || String.eqb (lower bench) "benchmark" then Ok None
  else
    let vc_lookups := field row "vc_lookups" in
    let vc_hits := field row "vc_hits" in
    let mc_lookups := field row "mc_lookups" in
    let mc_hits := field row "mc_hits" in
    let sb_lookups := field row "sb_lookups" in
    let sb_hits := field row "sb_hits" in
    let ul2_d := field row "ul2_d_accesses" in
    let ul2_i := field row "ul2_i_accesses" in
    match ul2_total_of ul2_d ul2_i with
    | Raise e => Raise e
    | Ok ul2_total =>
        Ok (Some
              {| config := cfg;
                 benchmark := bench;
                 mode := mode;
                 il1_miss_rate := field row "il1_miss_rate";
                 dl1_miss_rate := field row "dl1_miss_rate";
                 ul2_miss_rate := field row "ul2_miss_rate";
                 sim_num_insn := field row "sim_num_insn";
                 sim_elapsed_time := field row "sim_elapsed_time";
                 sim_CPI := field row "sim_CPI";
                 vc_lookups := vc_lookups;
                 vc_hits := vc_hits;
                 vc_hit_rate := hit_rate vc_lookups vc_hits;
                 mc_lookups := mc_lookups;
                 mc_hits := mc_hits;
                 mc_hit_rate := hit_rate mc_lookups mc_hits;
                 sb_lookups := sb_lookups;
                 sb_hits := sb_hits;
                 sb_hit_rate := hit_rate sb_lookups sb_hits;
                 sb_prefetches := field row "sb_prefetches";
                 ul2_d_accesses := ul2_d;
                 ul2_i_accesses := ul2_i;
                 ul2_total_accesses := ul2_total;
                 source_csv := csv_path |})
    end.

(** A result file found under [RESULTS_ROOT]: its path, the first
    component of the path below the root, and its rows. *)
Record csv_file : Type := {
  path : string;
  top_directory : string;
  rows : list csv_row
}.

Fixpoint summarize_rows (cfg csv_path : string) (rs : list csv_row)
  (rows_out : list summary_row) : result (list summary_row) :=
  match rs with
  | [] => Ok rows_out
  | row :: rs' =>
      match summarize_row cfg csv_path row with
      | Raise e => Raise e
      | Ok None => summarize_rows cfg csv_path rs' rows_out
      | Ok (Some r) => summarize_rows cfg csv_path rs' (rows_out ++ [r])%list
      end
  end.

Fixpoint summarize_files (files : list csv_file) (rows_out : list summary_row)
  : result (list summary_row) :=
  match files with
  | [] => Ok rows_out
  | f :: files' =>
      if String.eqb (path f) SUMMARY_PATH then summarize_files files' rows_out
      else match summarize_rows (top_directory f) (path f) (rows f) rows_out with
           | Raise e => Raise e
           | Ok rows_out' => summarize_files files' rows_out'
           end
  end.

(** [rows_out] when [main] writes the summary, for the files the walk
    finds; [Raise] when a row aborts the scan. *)
Definition main (files : list csv_file) : result (list summary_row) :=
  summarize_files files [].

End Summarize.

(** ** Notions the statements use *)

Module Stated.

Import Py Re Pd Table.
Local Open Scope string_scope.

(** The baseline-mode rows of [df] at the cache point [k]. *)
Definition baseline_rows_at (df : list row) (k : cachepoint) : list row :=
  filter (fun r => String.eqb (mode r) "baseline"
                   && cachepoint_eqb (NormalizeData.key r) k) df.

(** The four aggregates of a group of rows, under the reducer [mean]. *)
Definition means_of (mean : list float -> float) (g : list row)
  : float * float * float * float :=
  (mean (map dl1_miss_rate g), mean (map ul2_miss_rate g),
   mean (map ul2_demand g), mean (map sim_CPI g)).

(** The four baseline columns of a row of the normalized table. *)
Definition base_values (o : norm_row) : float * float * float * float :=
  (dl1_miss_base (merged o), ul2_miss_base (merged o),
   ul2_demand_base (merged o), cpi_base (merged o)).

(** The four aggregates of a row of [base]. *)
Definition base_row_values (b : base_row) : float * float * float * float :=
  (base_dl1_miss b, base_ul2_miss b, base_ul2_demand b, base_cpi b).

(** The row of [base] at a cache point, when there is one. *)
Definition base_at (mean : list float -> float) (df : list row) (k : cachepoint)
  : option base_row :=
  find (fun b => cachepoint_eqb k (base_key b)) (NormalizeData.baseline_of mean df).

(** A merged row with its four ratios. *)
Definition with_norms (o : merged_row) : norm_row :=
  let r := left_row o in
  {| merged := o;
     dl1_miss_norm := NormalizeData.safe_div (Num (dl1_miss_rate r)) (Num (dl1_miss_base o));
     ul2_miss_norm := NormalizeData.safe_div (Num (ul2_miss_rate r)) (Num (ul2_miss_base o));
     ul2_demand_norm := NormalizeData.safe_div (Num (ul2_demand r)) (Num (ul2_demand_base o));
     cpi_norm := NormalizeData.safe_div (Num (sim_CPI r)) (Num (cpi_base o)) |}.

(** What the collector does for one hit rate: it is empty exactly when
    the lookups are no number above zero or the hits are no number, and
    is the quotient with four decimals otherwise. *)
Definition hit_rate_rule (lookups hits rate : string) : Prop :=
  (rate = "" <->
     Summarize.safe_float (Some lookups) = None
     \/ (exists l, Summarize.safe_float (Some lookups) = Some l
                   /\ (0 <? l)%float = false)
     \/ Summarize.safe_float (Some hits) = None)
  /\ (forall l h,
        Summarize.safe_float (Some lookups) = Some l ->
        Summarize.safe_float (Some hits) = Some h ->
        (0 <? l)%float = true ->
        rate = format_4f (h / l)%float).

(** The last element of [l] that satisfies [p]. *)
Fixpoint last_where (p : string -> bool) (l : list string) : option string :=
  match l with
  | [] => None
  | x :: l' =>
      match last_where p l' with
      | Some y => Some y
      | None => if p x then Some x else None
      end
  end.

Definition or_else {A : Type} (a b : option A) : option A :=
  match a with
  | Some _ => a
  | None => b
  end.


End Stated.

(** ** Sample inputs *)

Module Sample.

Import Py Pd Table.
Local Open Scope string_scope.

Definition raw (cfg bench m : string) (dl1_miss cpi : cell) : raw_row :=
  {| raw_config := Some cfg;
     raw_benchmark := Some bench;
     raw_mode := Some m;
     raw_dl1_miss_rate := dl1_miss;
     raw_ul2_miss_rate := Num 0.5;
     raw_sim_CPI := cpi;
     raw_vc_hit_rate := Num nan;
     raw_mc_hit_rate := Num nan;
     raw_sb_hit_rate := Num nan;
     raw_ul2_total_accesses := Int 100;
     raw_other := [] |}.

Definition reference_point : string := "__dl1:1024:32:1:l__ul2:16384:64:4:l".
Definition small_point : string := "__dl1:16:32:1:l__ul2:16384:64:4:l".

Definition gcc_reference : cachepoint :=
  (Some "gcc", Some "dl1:1024:32:1:l", Some "ul2:16384:64:4:l").

(** Two baseline runs and a victim-cache run at the reference cache
    point, a victim-cache run at a cache point that has no baseline, and a
    run of an excluded mode. *)
Definition summary : list raw_row :=
  [ raw ("baseline" ++ reference_point) "gcc" " Baseline" (Num 0.125) (Num 2);
    raw ("victim_vc4" ++ reference_point) "gcc" "victim" (Num 0.0625) (Text "1.5");
    raw ("victim_vc4" ++ small_point) "gcc" "victim" (Num 0.0625) (Num 1.5);
    raw ("stream_multi" ++ reference_point) "gcc" "STREAM_MULTI " (Num 0.0625) (Num 1);
    raw ("baseline" ++ reference_point) "gcc" "baseline" (Num 0.375) (Num 4) ].

(** A baseline run that reports no level-1 miss rate, and a victim-cache
    run at the same cache point. *)
Definition summary_blank_miss_rate : list raw_row :=
  [ raw ("baseline" ++ reference_point) "gcc" "baseline" (Num nan) (Num 2);
    raw ("victim_vc4" ++ reference_point) "gcc" "victim" (Num 0.0625) (Num 1.5) ].

(** A baseline run with level-1 miss rate 0.10 and a victim-cache run
    with 0.08, at the same cache point. *)
Definition summary_gcc : list raw_row :=
  [ raw ("baseline" ++ reference_point) "gcc" "baseline" (Text "0.10") (Num 2);
    raw ("victim_vc4" ++ reference_point) "gcc" "victim" (Text "0.08") (Num 1.5) ].


(** A row of [csv.DictReader] with the given fields. *)
Definition csv_fields (fields : list (string * string)) : Summarize.csv_row :=
  fun name =>
    match find (fun kv => String.eqb (fst kv) name) fields with
    | Some kv => Some (snd kv)
    | None => None
    end.

Definition victim_run : Summarize.csv_row :=
  csv_fields [("benchmark", "gcc"); ("mode", "victim");
              ("vc_lookups", "10"); ("vc_hits", "3");
              ("ul2_d_accesses", "120"); ("ul2_i_accesses", "30")].

Definition run_without_hits : Summarize.csv_row :=
  csv_fields [("benchmark", "gcc"); ("mode", "victim");
              ("vc_lookups", "10"); ("vc_hits", "")].

Definition run_with_fraction : Summarize.csv_row :=
  csv_fields [("benchmark", "gcc"); ("mode", "baseline");
              ("ul2_d_accesses", "1.5"); ("ul2_i_accesses", "")].

End Sample.

(** ** The plotting helpers of normalize_and_plot_ss.py

    What [agg_for_lines] returns, what [lineplot_by_mode] hands to
    [plt.plot], line by line, and the points of chart 6, which [main]
    draws itself; the drawing is not modelled. *)

Module Plots.

Import Py Pd Table.
Local Open Scope string_scope.

(** Two floats in one group of a [groupby(..., dropna=False)]: equal
    under [==], or both NaN. *)
Definition float_key_eqb (x y : float) : bool :=
  (x =? y)%float || (is_nan x && is_nan y).

(** The order of float group labels and of [sort_values]: ascending,
    NaN last. *)
Definition float_key_leb (x y : float) : bool :=
  (x <=? y)%float || is_nan y.

(** The key of [groupby(["mode", xcol])]. *)
Definition line_key : Type := string * float.

Definition line_key_eqb (a b : line_key) : bool :=
  String.eqb (fst a) (fst b) && float_key_eqb (snd a) (snd b).

Definition line_key_leb (a b : line_key) : bool :=
  match String.compare (fst a) (fst b) with
  | Lt => true
  | Gt => false
  | Eq => float_key_leb (snd a) (snd b)
  end.

Fixpoint insert_by_x (p : float * float) (l : list (float * float))
  : list (float * float) :=
  match l with
  | [] => [p]
  | q :: l' => if float_key_leb (fst p) (fst q) then p :: l
               else q :: insert_by_x p l'
  end.

(** [gm.sort_values(xcol)] on the points of one mode, whose [x] values
    are pairwise different. *)
Definition sort_values (l : list (float * float)) : list (float * float) :=
  fold_right insert_by_x [] l.

Section Lines.

Variable mean : list float -> float.
Variables xcol ycol : norm_row -> float.

(** The rows [dropna(subset=[xcol, ycol])] keeps. *)
Definition has_point (r : norm_row) : bool :=
  negb (is_nan (xcol r)) && negb (is_nan (ycol r)).

(** The table [agg_for_lines] returns: the columns [mode], [xcol] and
    [ycol] of each row. *)
Definition agg_for_lines (df : list norm_row) : list (string * float * float) :=
  let g := filter has_point df in
  match g with
  | [] => []
  | _ =>
      map (fun kg => (fst (fst kg), snd (fst kg), mean (map ycol (snd kg))))
        (groupby line_key_eqb line_key_leb
           (fun r => (mode (row_of r), xcol r)) g)
  end.

(** The lines [lineplot_by_mode] plots, with their labels, in the order
    of the calls of [plt.plot]; [None] when it returns without a chart. *)
Definition lineplot_by_mode (df : list norm_row) (mode_order : list string)
  : option (list (string * list (float * float))) :=
  let g := agg_for_lines df in
  match g with
  | [] => None
  | _ =>
      let modes := unique (map (fun p => fst (fst p)) g) in
      Some
        (flat_map
           (fun m =>
              let gm :=
                sort_values
                  (map (fun p => (snd (fst p), snd p))
                     (filter (fun p => String.eqb (fst (fst p)) m) g)) in
              match gm with
              | [] => []
              | _ => [(m, gm)]
              end)
           (filter (fun m => isin m modes) mode_order))
  end.

End Lines.

(** *** Chart 6: level-2 capacity against level-2 miss rate, baseline only *)

(** The key of [groupby(["benchmark", "dl1_cfg", "ul2_bytes"])]. *)
Definition capacity_key : Type := option string * option string * float.

Definition capacity_key_eqb (a b : capacity_key) : bool :=
  label_eqb (fst (fst a)) (fst (fst b))
  && label_eqb (snd (fst a)) (snd (fst b))
  && float_key_eqb (snd a) (snd b).

Definition capacity_key_leb (a b : capacity_key) : bool :=
  match label_compare (fst (fst a)) (fst (fst b)) with
  | Lt => true
  | Gt => false
  | Eq => match label_compare (snd (fst a)) (snd (fst b)) with
          | Lt => true
          | Gt => false
          | Eq => float_key_leb (snd a) (snd b)
          end
  end.

(** A row of [base_only] after the aggregation. *)
Record capacity_point : Type := {
  cp_benchmark : option string;
  cp_dl1_cfg : option string;
  cp_ul2_bytes : float;
  cp_ul2_miss_rate : float;
  cp_ul2_miss_norm : float
}.

Definition has_label (x : option string) : bool :=
  match x with
  | Some _ => true
  | None => false
  end.

Fixpoint insert_by_ul2_bytes (p : capacity_point) (l : list capacity_point)
  : list capacity_point :=
  match l with
  | [] => [p]
  | q :: l' => if float_key_leb (cp_ul2_bytes p) (cp_ul2_bytes q) then p :: l
               else q :: insert_by_ul2_bytes p l'
  end.

(** [g.sort_values("ul2_bytes")] on the points of one chart, whose
    capacities are pairwise different. *)
Definition sort_by_ul2_bytes (l : list capacity_point) : list capacity_point :=
  fold_right insert_by_ul2_bytes [] l.

Section Capacity.

Variable mean : list float -> float.

(** [base_only] after [groupby([...], as_index=False).agg(...)]: a
    grouping drops the rows that have no benchmark or no level-1
    configuration. *)
Definition base_only_agg (norm : list norm_row) : list capacity_point :=
  map
    (fun kg =>
       {| cp_benchmark := fst (fst (fst kg));
          cp_dl1_cfg := snd (fst (fst kg));
          cp_ul2_bytes := snd (fst kg);
          cp_ul2_miss_rate := mean (map (fun r => ul2_miss_rate (row_of r)) (snd kg));
          cp_ul2_miss_norm := mean (map ul2_miss_norm (snd kg)) |})
    (groupby capacity_key_eqb capacity_key_leb
       (fun r => (benchmark (row_of r), dl1_cfg (row_of r), ul2_bytes (row_of r)))
       (filter (fun r => has_label (benchmark (row_of r))
                         && has_label (dl1_cfg (row_of r)))
          (NormalizeAndPlot.base_only norm))).

(** The charts of the loop over [base_only.groupby(["benchmark",
    "dl1_cfg"], dropna=False)]: the benchmark, the level-1
    configuration and the points of the two lines, which share their
    [x]. *)
Definition ul2_size_charts (norm : list norm_row)
  : list (option string * option string * list capacity_point) :=
  flat_map
    (fun g =>
       match snd (fst g) with
       | None => []
       | Some _ => [(fst (fst g), snd (fst g), sort_by_ul2_bytes (snd g))]
       end)
    (groupby NormalizeAndPlot.pair_eqb NormalizeAndPlot.pair_leb
       (fun p => (cp_benchmark p, cp_dl1_cfg p))
       (base_only_agg norm)).

End Capacity.

End Plots.

(** ** Notions the further properties use *)

Module Described.

Import Py Re Pd Table.
Local Open Scope string_scope.

(** A float that is neither NaN, nor infinite, nor a zero. *)
Definition finite_nonzero (x : float) : bool :=
  negb (is_nan x) && negb (is_infinity x) && negb (x =? 0)%float.

(** A matcher that reads the same from a text and from its lowercase
    form, up to the case of what it returns. *)
Definition lower2 (tr : string * string) : string * string :=
  (lower (fst tr), lower (snd tr)).

Definition ignores_case (m : string -> option (string * string)) : Prop :=
  forall s, m (lower s) = option_map lower2 (m s).

Definition no_colon (s : string) : bool :=
  all_chars (fun c => negb (Ascii.eqb c ":")) s.

(** The shape of a match of [CFG_RE]: a name, three non-empty runs of
    digits and a policy, between colons. *)
Definition geometry_shape (t : string) : Prop :=
  exists name d1 d2 d3 p,
    t = (name ++ ":" ++ d1 ++ ":" ++ d2 ++ ":" ++ d3 ++ ":" ++ p)%string
    /\ no_colon name = true /\ no_colon p = true
    /\ (d1 <> "" /\ all_chars is_digit d1 = true)
    /\ (d2 <> "" /\ all_chars is_digit d2 = true)
    /\ (d3 <> "" /\ all_chars is_digit d3 = true).

(** A row whose mechanism knobs are at the reference values: the
    condition [filter_ref_knobs_for_mode] puts on a row of its mode. *)
Definition at_reference_knobs (r : norm_row) : bool :=
  let m := mode (row_of r) in
  let vc := (vc_entries (row_of r) =? NormalizeAndPlot.REF_VC)%float in
  let mc := (mc_entries (row_of r) =? NormalizeAndPlot.REF_MC)%float in
  let d := (sb_depth (row_of r) =? NormalizeAndPlot.REF_SB_DEPTH)%float in
  if String.eqb m "victim" then vc
  else if String.eqb m "miss" then mc
  else if String.eqb m "stream" then d
  else if String.eqb m "victim_stream" then vc && d
  else if String.eqb m "miss_stream" then mc && d
  else true.

(** A row at the reference cache point. *)
Definition at_reference_point (r : norm_row) : Prop :=
  dl1_cfg (row_of r) = Some NormalizeAndPlot.REF_DL1
  /\ ul2_cfg (row_of r) = Some NormalizeAndPlot.REF_UL2.

(** A row of one of the tables a chart is drawn from. *)
Definition drawn_in (tables : list (list norm_row)) (r : norm_row) : Prop :=
  exists t, In t tables /\ In r t.

(** A row the knob sweeps can draw: of the table, with a benchmark, at
    the reference cache point. *)
Definition sweepable (norm : list norm_row) (r : norm_row) : Prop :=
  In r norm /\ benchmark (row_of r) <> None /\ at_reference_point r.

(** The files the collector's walk does not skip. *)
Definition scanned (files : list Summarize.csv_file) : list Summarize.csv_file :=
  filter (fun f => negb (String.eqb (Summarize.path f) Summarize.SUMMARY_PATH)) files.

(** [int] raises on the total of this row of the file [f]. *)
Definition raises (f : Summarize.csv_file) (row : Summarize.csv_row) : bool :=
  match Summarize.summarize_row (Summarize.top_directory f) (Summarize.path f) row with
  | Raise _ => true
  | Ok _ => false
  end.

(** The rows of [f] that are appended to [rows_out], summarized. *)
Definition kept_rows (f : Summarize.csv_file) : list Summarize.summary_row :=
  flat_map
    (fun row =>
       match Summarize.summarize_row (Summarize.top_directory f) (Summarize.path f) row with
       | Ok (Some r) => [r]
       | _ => []
       end)
    (Summarize.rows f).

(** The group label of a float: the sign of a zero does not count. *)
Definition canon (x : float) : spec_float :=
  match Prim2SF x with
  | S754_zero _ => S754_zero false
  | s => s
  end.

Definition canon_key (k : Plots.line_key) : string * spec_float :=
  (fst k, canon (snd k)).

Definition spec_float_eq_dec (a b : spec_float) : {a = b} + {a <> b}.
Proof.
  decide equality; first [apply Bool.bool_dec | apply Pos.eq_dec | apply Z.eq_dec].
Defined.

Definition canon_key_eqb (a b : string * spec_float) : bool :=
  String.eqb (fst a) (fst b)
  && (if spec_float_eq_dec (snd a) (snd b) then true else false).

Definition canon_capacity_key (k : Plots.capacity_key)
  : option string * option string * spec_float :=
  (fst (fst k), snd (fst k), canon (snd k)).

Definition canon_capacity_key_eqb (a b : option string * option string * spec_float)
  : bool :=
  label_eqb (fst (fst a)) (fst (fst b))
  && label_eqb (snd (fst a)) (snd (fst b))
  && (if spec_float_eq_dec (snd a) (snd b) then true else false).

(** The groups of a grouping, with other labels. *)
Definition relabel {K K' R : Type} (f : K -> K') (gs : list (K * list R))
  : list (K' * list R) :=
  map (fun g => (f (fst g), snd g)) gs.

End Described.

(** ** Further sample inputs *)

Module Inputs.

Import Py Pd Table.
Local Open Scope string_scope.

Definition mixed_case_tag : string := "Victim_VC8__DL1:1024:32:1:L__UL2:16384:64:4:L".
Definition lower_case_tag : string := "victim_vc8__dl1:1024:32:1:l__ul2:16384:64:4:l".

(** The result files of two runs, a header line repeated in the first,
    and the summary of an earlier scan. *)
Definition result_files : list Summarize.csv_file :=
  [ {| Summarize.path := "results/ss/victim_vc4/ss_gcc.csv";
       Summarize.top_directory := "victim_vc4";
       Summarize.rows :=
         [ Sample.victim_run;
           Sample.csv_fields [("benchmark", "Benchmark"); ("mode", "mode")] ] |};
    {| Summarize.path := Summarize.SUMMARY_PATH;
       Summarize.top_directory := "ss_summary_all.csv";
       Summarize.rows := [ Sample.victim_run ] |};
    {| Summarize.path := "results/ss/baseline/ss_gcc.csv";
       Summarize.top_directory := "baseline";
       Summarize.rows := [ Sample.run_with_fraction ] |} ].

End Inputs.

(** * Facts *)

Import Py Re Pd Table Stated.
Local Open Scope string_scope.
Local Open Scope list_scope.

(** ** Floats *)

Lemma SFcompare_refl x : x <> S754_nan -> SFcompare x x = Some Eq.
Proof.
  destruct x as [s|s| |s m e]; simpl; intros H; try congruence.
  - destruct s; reflexivity.
  - destruct s; rewrite Z.compare_refl, ?Pos.compare_cont_refl; reflexivity.
Qed.

Lemma is_nan_Prim2SF x : is_nan x = true <-> Prim2SF x = S754_nan.
Proof.
  unfold is_nan. rewrite eqb_spec. unfold SFeqb. split.
  - intros H. destruct (Prim2SF x) eqn:E; try reflexivity;
      rewrite SFcompare_refl in H by discriminate; discriminate.
  - intros ->. reflexivity.
Qed.

Lemma is_nan_eq x : is_nan x = true <-> x = nan.
Proof.
  rewrite is_nan_Prim2SF. split.
  - intros H. apply Prim2SF_inj. rewrite H. reflexivity.
  - intros ->. reflexivity.
Qed.

Lemma shr_1_nonneg mrs : (0 <= shr_m mrs)%Z -> (0 <= shr_m (shr_1 mrs))%Z.
Proof.
  destruct mrs as [m r s]. simpl. intros H.
  destruct m as [|[p|p|]|[p|p|]]; simpl; lia.
Qed.

Lemma iter_pos_shr_1_nonneg p : forall mrs,
  (0 <= shr_m mrs)%Z -> (0 <= shr_m (iter_pos shr_1 p mrs))%Z.
Proof.
  induction p; intros mrs H; simpl; auto using shr_1_nonneg.
Qed.

Lemma shr_fexp_nonneg m e l :
  (0 <= m)%Z -> (0 <= shr_m (fst (shr_fexp prec emax m e l)))%Z.
Proof.
  intros H. unfold shr_fexp, shr.
  assert (H0 : (0 <= shr_m (shr_record_of_loc m l))%Z)
    by (destruct l as [|[]]; simpl; exact H).
  destruct (fexp prec emax (Zdigits2 m + e) - e)%Z; simpl; auto.
  apply iter_pos_shr_1_nonneg; exact H0.
Qed.

Lemma round_nearest_even_nonneg m l :
  (0 <= m)%Z -> (0 <= round_nearest_even m l)%Z.
Proof.
  intros H. destruct l as [|[]]; simpl; try lia.
  destruct (Z.even m); lia.
Qed.

(** Rounding a mantissa that is not negative never yields NaN. *)
Lemma binary_round_aux_not_nan s m e l :
  (0 <= m)%Z -> binary_round_aux prec emax s m e l <> S754_nan.
Proof.
  intros H. unfold binary_round_aux.
  pose proof (shr_fexp_nonneg m e l H) as H1.
  destruct (shr_fexp prec emax m e l) as [mrs' e'].
  simpl in H1.
  pose proof (shr_fexp_nonneg
                (round_nearest_even (shr_m mrs') (loc_of_shr_record mrs')) e' loc_Exact
                (round_nearest_even_nonneg _ _ H1)) as H2.
  destruct (shr_fexp prec emax _ e' loc_Exact) as [mrs'' e''].
  simpl in H2.
  destruct (shr_m mrs''); try lia; try discriminate.
  destruct (e'' <=? emax - prec)%Z; discriminate.
Qed.

Lemma SFdiv_finite_not_nan sx mx ex sy my ey :
  SFdiv prec emax (S754_finite sx mx ex) (S754_finite sy my ey) <> S754_nan.
Proof.
  unfold SFdiv, SFdiv_core_binary.
  set (m' := match _ with Zpos _ => _ | Z0 => _ | Zneg _ => _ end).
  assert (Hm : (0 <= m')%Z).
  { subst m'. destruct (_ - _ - _)%Z; try lia. apply Z.shiftl_nonneg. lia. }
  pose proof (Z.div_pos m' (Zpos my) Hm ltac:(lia)) as Hq.
  unfold Z.div in Hq.
  destruct (Z.div_eucl m' (Zpos my)) as [q r].
  apply binary_round_aux_not_nan. exact Hq.
Qed.

(** When neither operand is NaN and the divisor is not zero, the quotient
    is NaN exactly when both operands are infinite. *)
Lemma div_nan_iff a b :
  is_nan a = false -> is_nan b = false -> (b =? 0)%float = false ->
  (is_nan (a / b) = true <-> is_infinity a && is_infinity b = true).
Proof.
  intros Ha Hb Hz.
  rewrite is_nan_Prim2SF, div_spec.
  unfold is_infinity. rewrite !eqb_spec, !abs_spec.
  rewrite eqb_spec in Hz.
  assert (Ha' : Prim2SF a <> S754_nan)
    by (intros E; apply is_nan_Prim2SF in E; congruence).
  assert (Hb' : Prim2SF b <> S754_nan)
    by (intros E; apply is_nan_Prim2SF in E; congruence).
  change (Prim2SF infinity) with (S754_infinity false).
  change (Prim2SF 0) with (S754_zero false) in Hz.
  destruct (Prim2SF a) as [sa|sa| |sa ma ea], (Prim2SF b) as [sb|sb| |sb mb eb];
    try congruence; try discriminate;
    try (cbn; split; [discriminate | discriminate]);
    try (cbn; split; reflexivity).
  split; [|discriminate].
  intros H. exfalso. revert H. apply SFdiv_finite_not_nan.
Qed.

(** ** Strings *)

Section Strip.

Variable blank : ascii -> bool.

Lemma lstrip_by_idem s : lstrip_by blank (lstrip_by blank s) = lstrip_by blank s.
Proof.
  induction s as [|c s IH]; simpl; [reflexivity|].
  destruct (blank c) eqn:E; [exact IH|]. simpl. rewrite E. reflexivity.
Qed.

Lemma rstrip_by_cons c s :
  rstrip_by blank (String c s) =
  match rstrip_by blank s with
  | EmptyString => if blank c then EmptyString else String c EmptyString
  | r => String c r
  end.
Proof. reflexivity. Qed.

Lemma rstrip_by_idem s : rstrip_by blank (rstrip_by blank s) = rstrip_by blank s.
Proof.
  induction s as [|c s IH]; [reflexivity|].
  rewrite rstrip_by_cons.
  destruct (rstrip_by blank s) as [|c' r] eqn:E.
  - destruct (blank c) eqn:Ec; [reflexivity|]. simpl. rewrite Ec. reflexivity.
  - rewrite rstrip_by_cons, IH. reflexivity.
Qed.

Lemma strip_by_comm s :
  rstrip_by blank (lstrip_by blank s) = lstrip_by blank (rstrip_by blank s).
Proof.
  induction s as [|c s IH]; [reflexivity|].
  rewrite rstrip_by_cons. cbn [lstrip_by].
  destruct (blank c) eqn:Ec.
  - rewrite IH. destruct (rstrip_by blank s) as [|c' r]; [reflexivity|].
    cbn [lstrip_by]. rewrite Ec. reflexivity.
  - rewrite rstrip_by_cons.
    destruct (rstrip_by blank s) as [|c' r]; cbn [lstrip_by]; rewrite Ec; reflexivity.
Qed.

Lemma strip_by_idem s : strip_by blank (strip_by blank s) = strip_by blank s.
Proof.
  unfold strip_by.
  rewrite (strip_by_comm (rstrip_by blank s)), rstrip_by_idem, lstrip_by_idem.
  reflexivity.
Qed.

End Strip.

Lemma strip_idem s : strip (strip s) = strip s.
Proof. apply strip_by_idem. Qed.

Lemma lower_char_idem c : lower_char (lower_char c) = lower_char c.
Proof. destruct c as [[] [] [] [] [] [] [] []]; reflexivity. Qed.


Lemma lower_idem s : lower (lower s) = lower s.
Proof.
  induction s as [|c s IH]; simpl; [reflexivity|].
  rewrite lower_char_idem, IH. reflexivity.
Qed.





Lemma append_nonempty a c b : (a ++ String c b)%string <> EmptyString.
Proof. destruct a; discriminate. Qed.

Lemma append_empty_r s : (s ++ "")%string = s.
Proof. induction s; simpl; congruence. Qed.

Lemma eqb_empty s : String.eqb s "" = true <-> s = "".
Proof. apply String.eqb_eq. Qed.

Lemma str_of_int_nonempty n : str_of_int n <> "".
Proof.
  unfold str_of_int.
  destruct n as [|p|p]; simpl; try discriminate.
  pose proof (Unsigned.to_uint_nonnil p) as H.
  destruct (Pos.to_uint p); try congruence; discriminate.
Qed.

Lemma format_4f_nonempty x : format_4f x <> "".
Proof.
  unfold format_4f.
  destruct (Prim2SF x) as [s|s| |s m e]; try (destruct s; discriminate).
  - discriminate.
  - destruct s; simpl; [discriminate|]. unfold fixed4. apply append_nonempty.
Qed.

(** *** Digits *)

Lemma digit_facts c :
  is_digit c = true ->
  is_numeric_blank c = false /\ Ascii.eqb c "_" = false
  /\ lower_char c = c
  /\ Ascii.eqb c "i" = false /\ Ascii.eqb c "n" = false.
Proof.
  destruct c as [[] [] [] [] [] [] [] []]; try discriminate;
    intros _; repeat split; reflexivity.
Qed.

Lemma digits_rstrip d :
  all_chars is_digit d = true -> rstrip_by is_numeric_blank d = d.
Proof.
  induction d as [|c d IH]; [reflexivity|].
  cbn [all_chars]. intros H. apply andb_true_iff in H. destruct H as [Hc Hd].
  rewrite rstrip_by_cons, (IH Hd).
  destruct (digit_facts c Hc) as [-> _]. destruct d; reflexivity.
Qed.

Lemma digits_lstrip d :
  all_chars is_digit d = true -> lstrip_by is_numeric_blank d = d.
Proof.
  destruct d as [|c d]; [reflexivity|].
  cbn [all_chars lstrip_by]. intros H. apply andb_true_iff in H. destruct H as [Hc _].
  destruct (digit_facts c Hc) as [-> _]. reflexivity.
Qed.

Lemma digits_drop_underscores d : forall prev,
  d <> "" -> all_chars is_digit d = true -> drop_underscores prev d = Some d.
Proof.
  induction d as [|c d IH]; intros prev Hne; [congruence|].
  cbn [all_chars]. intros H. apply andb_true_iff in H. destruct H as [Hc Hd].
  destruct (digit_facts c Hc) as [_ [Hu _]].
  cbn [drop_underscores]. rewrite Hu, Hc. rewrite andb_false_r.
  destruct d as [|c' d'].
  - simpl. rewrite Hu. reflexivity.
  - rewrite IH by (discriminate || exact Hd). reflexivity.
Qed.

Lemma digits_span d :
  all_chars is_digit d = true -> span_digits d = (d, "").
Proof.
  induction d as [|c d IH]; [reflexivity|].
  cbn [all_chars span_digits]. intros H. apply andb_true_iff in H. destruct H as [Hc Hd].
  rewrite Hc, (IH Hd). reflexivity.
Qed.

Lemma digits_lower d : all_chars is_digit d = true -> lower d = d.
Proof.
  induction d as [|c d IH]; [reflexivity|].
  cbn [all_chars lower]. intros H. apply andb_true_iff in H. destruct H as [Hc Hd].
  destruct (digit_facts c Hc) as [_ [_ [-> _]]]. rewrite (IH Hd). reflexivity.
Qed.

(** [float_of_digits] is [float] on a non-empty string of digits. *)
Lemma float_of_str_digits d :
  d <> "" -> all_chars is_digit d = true ->
  float_of_str d = Some (float_of_digits d).
Proof.
  intros Hne Hd. unfold float_of_str, strip_by.
  rewrite (digits_rstrip _ Hd), (digits_lstrip _ Hd), (digits_drop_underscores d None Hne Hd).
  destruct d as [|c d]; [congruence|].
  pose proof Hd as Hd'. cbn [all_chars] in Hd'. apply andb_true_iff in Hd'.
  destruct Hd' as [Hc _].
  destruct (digit_facts c Hc) as [_ [_ [_ [Hi Hn]]]].
  assert (Hsign : split_sign (String c d) = (false, String c d)).
  { destruct c as [[] [] [] [] [] [] [] []]; try discriminate; reflexivity. }
  rewrite Hsign, (digits_lower _ Hd).
  cbn [String.eqb]. rewrite Hi, Hn. simpl orb.
  unfold decimal_of_str. rewrite (digits_span _ Hd), append_empty_r.
  reflexivity.
Qed.

Lemma span_digits_digits s : all_chars is_digit (fst (span_digits s)) = true.
Proof.
  induction s as [|c s IH]; [reflexivity|]. cbn [span_digits].
  destruct (is_digit c) eqn:E; [|reflexivity].
  destruct (span_digits s) as [d r]. simpl in *. rewrite E, IH. reflexivity.
Qed.

Lemma knob_here_digits prefix s d :
  knob_here prefix s = Some d -> d <> "" /\ all_chars is_digit d = true.
Proof.
  unfold knob_here. destruct (literal prefix s) as [r|]; [|discriminate].
  pose proof (span_digits_digits r) as H.
  destruct (span_digits r) as [[|c d'] r']; [discriminate|].
  destruct (knob_end r'); [|discriminate].
  intros E. inversion E; subst. split; [discriminate|exact H].
Qed.

Lemma search_from_digits prefix d s : forall b,
  search_from b prefix s = Some d -> d <> "" /\ all_chars is_digit d = true.
Proof.
  induction s as [|c s IH]; intros b; cbn [search_from].
  - destruct (if b then knob_here prefix "" else None) eqn:E; [|discriminate].
    intros H. inversion H; subst. destruct b; [|discriminate].
    apply knob_here_digits in E. exact E.
  - destruct (if b then knob_here prefix (String c s) else None) eqn:E.
    + intros H. inversion H; subst. destruct b; [|discriminate].
      apply knob_here_digits in E. exact E.
    + destruct (match c with "_"%char => knob_here prefix s | _ => None end) eqn:E2.
      * intros H. inversion H; subst.
        destruct (Ascii.eqb c "_") eqn:Ec.
        -- apply Ascii.eqb_eq in Ec. subst c. apply knob_here_digits in E2. exact E2.
        -- exfalso. destruct c as [[] [] [] [] [] [] [] []]; discriminate.
      * apply IH.
Qed.

(** The knob values [parse_knobs] returns are [float] of the digits the
    pattern matched. *)
Lemma knob_value_is_float prefix s d :
  search_knob prefix s = Some d -> float_of_str d = Some (float_of_digits d).
Proof.
  intros H. apply search_from_digits in H. destruct H as [Hne Hd].
  apply float_of_str_digits; assumption.
Qed.

(** ** The built-ins on sample values *)

Example float_of_str_samples :
  float_of_str "0.1" = Some 0x1.999999999999ap-4%float
  /\ float_of_str "1e23" = Some 0x1.52d02c7e14af6p+76%float
  /\ float_of_str "9007199254740993" = Some 0x1p+53%float
  /\ float_of_str "2.5e-324" = Some 0x1p-1074%float
  /\ float_of_str " 1_0.5 " = Some 10.5%float
  /\ float_of_str "-0" = Some (-0)%float
  /\ float_of_str "-Infinity" = Some neg_infinity
  /\ float_of_str "1e400" = Some infinity
  /\ float_of_str "NaN" = Some nan
  /\ float_of_str "1__0" = None
  /\ float_of_str "1e" = None
  /\ float_of_str "" = None.
Proof. vm_compute. repeat split; reflexivity. Qed.

Example format_4f_samples :
  format_4f 0x1.3333333333333p-2 = "0.3000"
  /\ format_4f 0.03125 = "0.0312"
  /\ format_4f 0x1.3a92a30553261p-13 = "0.0001"
  /\ format_4f 1234.5 = "1234.5000"
  /\ format_4f (-0) = "-0.0000"
  /\ format_4f infinity = "inf"
  /\ format_4f nan = "nan".
Proof. vm_compute. repeat split; reflexivity. Qed.

Example int_samples :
  int_of_str " 12 " = Some 12%Z
  /\ int_of_str "-1_000" = Some (-1000)%Z
  /\ int_of_str "007" = Some 7%Z
  /\ int_of_str "1.0" = None
  /\ int_of_str "" = None
  /\ int_of_float 2.5 = Ok 2%Z
  /\ int_of_float (-1.5) = Ok (-1)%Z
  /\ int_of_float nan = Raise ValueError
  /\ int_of_float infinity = Raise OverflowError
  /\ float_of_int (2 ^ 53 + 1) = Some 0x1p+53%float
  /\ float_of_int (10 ^ 400) = None.
Proof. vm_compute. repeat split; reflexivity. Qed.

Example text_samples :
  strip "  a b  " = "a b"
  /\ lower "Victim_STREAM" = "victim_stream"
  /\ split ":" "dl1:1024:32:1:l" = ["dl1"; "1024"; "32"; "1"; "l"]
  /\ split ":" "" = [""]
  /\ str_of_int (-150) = "-150"
  /\ str_of_int 0 = "0".
Proof. vm_compute. repeat split; reflexivity. Qed.

Example regex_samples :
  finditer "DL1:1:2:3:Ldl1:4:5:6:fxul2:7:8:9:x dl1:1:2:3:r1 dl1::2:3:l"
  = ["DL1:1:2:3:L"; "dl1:4:5:6:f"; "dl1:1:2:3:r"]
  /\ search_knob "vc" "vc16" = Some "16"
  /\ search_knob "vc" "xvc16" = None
  /\ search_knob "vc" "vc1x_vc22" = Some "22"
  /\ search_knob "vc" "vcvc3" = None
  /\ search_knob "d" "stream_d8__dl1:16:32:1:l" = Some "8".
Proof. vm_compute. repeat split; reflexivity. Qed.

(** ** Lists *)

Lemma filter_andb {A : Type} (p q : A -> bool) l :
  filter p (filter q l) = filter (fun x => q x && p x) l.
Proof.
  induction l as [|x l IH]; simpl; [reflexivity|].
  destruct (q x); simpl; [destruct (p x)|]; rewrite IH; reflexivity.
Qed.

Lemma filter_idem {A : Type} (p : A -> bool) l : filter p (filter p l) = filter p l.
Proof.
  rewrite filter_andb. apply filter_ext. intros x. apply andb_diag.
Qed.

Lemma filter_filter_idem {A : Type} (p q : A -> bool) l :
  filter p (filter q (filter p (filter q l))) = filter p (filter q l).
Proof.
  rewrite !filter_andb. apply filter_ext. intros x.
  destruct (q x), (p x); reflexivity.
Qed.



(** ** Grouping and joining *)

Section GroupByFacts.

Context {K R : Type}.
Variable eqb : K -> K -> bool.
Variable leb : K -> K -> bool.
Variable key : R -> K.
Hypothesis eqb_eq : forall a b, eqb a b = true <-> a = b.

Lemma eqb_refl a : eqb a a = true.
Proof. apply eqb_eq. reflexivity. Qed.

Lemma eqb_neq a b : a <> b -> eqb a b = false.
Proof.
  intros H. destruct (eqb a b) eqn:E; [|reflexivity].
  apply eqb_eq in E. contradiction.
Qed.

Lemma map_fst_add_to_group r gs :
  map fst (add_to_group eqb key r gs) =
  if existsb (eqb (key r)) (map fst gs) then map fst gs
  else map fst gs ++ [key r].
Proof.
  induction gs as [|[k rows] gs IH]; simpl; [reflexivity|].
  destruct (eqb (key r) k); simpl; [reflexivity|].
  rewrite IH. destruct (existsb _ _); reflexivity.
Qed.

Lemma existsb_eqb_In k ks : existsb (eqb k) ks = true <-> In k ks.
Proof.
  rewrite existsb_exists. split.
  - intros [x [Hx E]]. apply eqb_eq in E. subst. exact Hx.
  - intros H. exists k. split; [exact H|apply eqb_refl].
Qed.

Lemma NoDup_add_to_group r gs :
  NoDup (map fst gs) -> NoDup (map fst (add_to_group eqb key r gs)).
Proof.
  intros H. rewrite map_fst_add_to_group.
  destruct (existsb _ _) eqn:E; [exact H|].
  apply Permutation_NoDup with (l := key r :: map fst gs).
  - apply Permutation_cons_append.
  - constructor; [|exact H].
    intros Hin. apply existsb_eqb_In in Hin. congruence.
Qed.

(** What [add_to_group] does to the groups, when no key has two. *)
Lemma In_add_to_group r gs k g :
  NoDup (map fst gs) ->
  In (k, g) (add_to_group eqb key r gs) <->
  (k <> key r /\ In (k, g) gs)
  \/ (k = key r /\ exists g0, g = g0 ++ [r]
                  /\ (In (k, g0) gs \/ (g0 = [] /\ ~ In k (map fst gs)))).
Proof.
  induction gs as [|[k' rows] gs IH]; intros ND; simpl.
  - split.
    + intros [E|[]]. inversion E; subst. right. split; [reflexivity|].
      exists []. split; [reflexivity|]. right. split; [reflexivity|]. intros [].
    + intros [[_ []]|[-> [g0 [-> [[]|[-> _]]]]]]. left. reflexivity.
  - inversion ND as [|? ? Hnotin ND']; subst.
    destruct (eqb (key r) k') eqn:E.
    + apply eqb_eq in E. subst k'. simpl. split.
      * intros [H|H].
        -- inversion H; subst. right. split; [reflexivity|].
           exists rows. split; [reflexivity|]. left. left. reflexivity.
        -- left. split; [|right; exact H].
           intros ->. apply Hnotin. apply (in_map fst) in H. exact H.
      * intros [[Hne [H|H]]|[-> [g0 [-> [[H|H]|[_ H]]]]]].
        -- inversion H; subst. contradiction.
        -- right. exact H.
        -- inversion H; subst. left. reflexivity.
        -- exfalso. apply Hnotin. apply (in_map fst) in H. exact H.
        -- exfalso. apply H. left. reflexivity.
    + assert (Hne : key r <> k')
        by (intros Hc; rewrite Hc, eqb_refl in E; discriminate).
      simpl. rewrite (IH ND'). split.
      * intros [H|[[Hk H]|[-> [g0 [-> [H|[-> H]]]]]]].
        -- inversion H; subst. left. split; [congruence|left; reflexivity].
        -- left. split; [exact Hk|right; exact H].
        -- right. split; [reflexivity|]. exists g0. split; [reflexivity|].
           left. right. exact H.
        -- right. split; [reflexivity|]. exists []. split; [reflexivity|].
           right. split; [reflexivity|]. intros [Hc|Hc]; [congruence|contradiction].
      * intros [[Hk [H|H]]|[-> [g0 [-> [[H|H]|[-> H]]]]]].
        -- left. exact H.
        -- right. left. split; assumption.
        -- inversion H; subst. congruence.
        -- right. right. split; [reflexivity|]. exists g0. split; [reflexivity|].
           left. exact H.
        -- right. right. split; [reflexivity|]. exists []. split; [reflexivity|].
           right. split; [reflexivity|]. intros Hc. apply H. right. exact Hc.
Qed.

Lemma groups_of_snoc rows r :
  groups_of eqb key (rows ++ [r]) = add_to_group eqb key r (groups_of eqb key rows).
Proof. unfold groups_of. rewrite fold_left_app. reflexivity. Qed.

Lemma rows_with_key_snoc k rows r :
  rows_with_key eqb key k (rows ++ [r])
  = rows_with_key eqb key k rows ++ (if eqb (key r) k then [r] else []).
Proof. unfold rows_with_key. rewrite filter_app. reflexivity. Qed.

(** The pass over the rows leaves one group per key that occurs, with the
    rows of that key in row order. *)
Lemma groups_of_spec rows :
  NoDup (map fst (groups_of eqb key rows))
  /\ forall k g, In (k, g) (groups_of eqb key rows) <->
                 g = rows_with_key eqb key k rows /\ g <> [].
Proof.
  induction rows as [|r rows [ND IH]] using rev_ind.
  - split; [constructor|]. intros k g. simpl.
    split; [intros []|intros [-> H]; congruence].
  - rewrite groups_of_snoc. split; [apply NoDup_add_to_group; exact ND|].
    intros k g. rewrite (In_add_to_group _ _ _ _ ND), rows_with_key_snoc.
    assert (Hkeys : In k (map fst (groups_of eqb key rows))
                    <-> rows_with_key eqb key k rows <> []).
    { split.
      - intros H. apply in_map_iff in H. destruct H as [[k' g'] [E H]].
        simpl in E. subst k'. apply IH in H. destruct H as [-> H]. exact H.
      - intros H. apply (in_map fst) with (x := (k, rows_with_key eqb key k rows)).
        apply IH. split; [reflexivity|exact H]. }
    split.
    + intros [[Hk H]|[-> [g0 [-> [H|[-> H]]]]]].
      * rewrite eqb_neq by congruence. rewrite app_nil_r. apply IH. exact H.
      * rewrite eqb_refl. apply IH in H. destruct H as [-> _].
        split; [reflexivity|].
        intros Hc. apply app_eq_nil in Hc. destruct Hc; discriminate.
      * rewrite eqb_refl.
        destruct (rows_with_key eqb key (key r) rows) eqn:E.
        -- split; [reflexivity|discriminate].
        -- exfalso. apply H. apply Hkeys. discriminate.
    + intros [-> Hne]. destruct (eqb (key r) k) eqn:E.
      * apply eqb_eq in E. subst k. right. split; [reflexivity|].
        exists (rows_with_key eqb key (key r) rows). split; [reflexivity|].
        destruct (rows_with_key eqb key (key r) rows) eqn:Eg.
        -- right. split; [reflexivity|]. rewrite Hkeys. congruence.
        -- left. apply IH. split; [symmetry; exact Eg|discriminate].
      * left. split.
        -- intros ->. rewrite eqb_refl in E. discriminate.
        -- apply IH. rewrite app_nil_r in Hne |- *. split; [reflexivity|exact Hne].
Qed.

Lemma insert_group_perm (g : K * list R) gs :
  Permutation (insert_group leb g gs) (g :: gs).
Proof.
  induction gs as [|h gs IH]; simpl; [reflexivity|].
  destruct (leb (fst g) (fst h)); [reflexivity|].
  rewrite IH. apply perm_swap.
Qed.

Lemma sort_groups_perm (gs : list (K * list R)) :
  Permutation (fold_right (insert_group leb) [] gs) gs.
Proof.
  induction gs as [|g gs IH]; simpl; [reflexivity|].
  rewrite insert_group_perm. constructor. exact IH.
Qed.

(** [groupby]: one group per key that occurs, holding the rows of that
    key in row order. *)
Lemma groupby_spec rows :
  NoDup (map fst (groupby eqb leb key rows))
  /\ forall k g, In (k, g) (groupby eqb leb key rows) <->
                 g = rows_with_key eqb key k rows /\ g <> [].
Proof.
  destruct (groups_of_spec rows) as [ND IH].
  pose proof (sort_groups_perm (groups_of eqb key rows)) as P.
  split.
  - apply Permutation_NoDup with (l := map fst (groups_of eqb key rows)); [|exact ND].
    apply Permutation_map. symmetry. exact P.
  - intros k g. rewrite <- (IH k g). unfold groupby. split; intros H.
    + apply Permutation_in with (1 := P). exact H.
    + apply Permutation_in with (1 := Permutation_sym P). exact H.
Qed.

Lemma groupby_rows rows k g r :
  In (k, g) (groupby eqb leb key rows) -> In r g -> In r rows /\ key r = k.
Proof.
  intros H Hr. apply groupby_spec in H. destruct H as [-> _].
  apply filter_In in Hr. destruct Hr as [Hr E]. apply eqb_eq in E. auto.
Qed.

Context {B O : Type}.
Variable right_key : B -> K.
Variable joined : R -> option B -> O.

Lemma filter_key_none k (right : list B) :
  ~ In k (map right_key right) ->
  filter (fun b => eqb k (right_key b)) right = [].
Proof.
  induction right as [|b right IH]; simpl; intros H; [reflexivity|].
  rewrite eqb_neq by (intros E; apply H; left; congruence).
  apply IH. intros Hc. apply H. right. exact Hc.
Qed.

Lemma filter_key_unique b (right : list B) :
  NoDup (map right_key right) -> In b right ->
  filter (fun x => eqb (right_key b) (right_key x)) right = [b].
Proof.
  induction right as [|x right IH]; simpl; intros ND Hin; [contradiction|].
  inversion ND as [|? ? Hnotin ND']; subst.
  destruct Hin as [->|Hin].
  - rewrite eqb_refl. f_equal. apply filter_key_none. exact Hnotin.
  - rewrite eqb_neq.
    + apply IH; assumption.
    + intros E. apply Hnotin. rewrite <- E. apply in_map. exact Hin.
Qed.

(** With one right row per key, the left join keeps the left rows one
    for one. *)
Lemma merge_left_unique left right :
  NoDup (map right_key right) ->
  merge_left eqb key right_key joined left right =
  map (fun r => joined r (find (fun b => eqb (key r) (right_key b)) right)) left.
Proof.
  intros ND. unfold merge_left.
  rewrite flat_map_ext
    with (g := fun r => [joined r (find (fun b => eqb (key r) (right_key b)) right)]).
  - induction left as [|r left IH]; simpl; [reflexivity|]. rewrite IH. reflexivity.
  - intros r.
    destruct (find (fun b => eqb (key r) (right_key b)) right) as [b|] eqn:F.
    + pose proof (find_some _ _ F) as [Hin E]. apply eqb_eq in E.
      rewrite E. rewrite (filter_key_unique b right ND Hin). reflexivity.
    + rewrite filter_key_none; [reflexivity|].
      intros Hin. apply in_map_iff in Hin. destruct Hin as [b [E Hin]].
      pose proof (find_none _ _ F b Hin) as Hb. simpl in Hb.
      rewrite <- E, eqb_refl in Hb. discriminate.
Qed.

End GroupByFacts.

Lemma label_eqb_eq a b : label_eqb a b = true <-> a = b.
Proof.
  destruct a as [x|], b as [y|]; simpl; try (split; congruence).
  rewrite String.eqb_eq. split; congruence.
Qed.

Lemma cachepoint_eqb_eq a b : cachepoint_eqb a b = true <-> a = b.
Proof.
  destruct a as [[a1 a2] a3], b as [[b1 b2] b3]. unfold cachepoint_eqb.
  rewrite !andb_true_iff, !label_eqb_eq. split.
  - intros [[-> ->] ->]. reflexivity.
  - intros E. inversion E. auto.
Qed.

Lemma pair_eqb_eq a b : NormalizeAndPlot.pair_eqb a b = true <-> a = b.
Proof.
  destruct a as [a1 a2], b as [b1 b2]. unfold NormalizeAndPlot.pair_eqb. simpl.
  rewrite andb_true_iff, !label_eqb_eq. split.
  - intros [-> ->]. reflexivity.
  - intros E. inversion E. auto.
Qed.

(** ** The baseline table and the join *)

Section Baseline.

Variable mean : list float -> float.

Lemma baseline_of_keys df :
  NoDup (map base_key (NormalizeData.baseline_of mean df)).
Proof.
  unfold NormalizeData.baseline_of. rewrite map_map. simpl.
  apply (groupby_spec cachepoint_eqb cachepoint_leb NormalizeData.key cachepoint_eqb_eq).
Qed.

(** The rows of [base]: one per cache point that has a baseline row,
    holding the means over the baseline rows at that cache point. *)
Lemma baseline_of_In df b :
  In b (NormalizeData.baseline_of mean df) <->
  baseline_rows_at df (base_key b) <> []
  /\ base_row_values b = means_of mean (baseline_rows_at df (base_key b)).
Proof.
  unfold NormalizeData.baseline_of. rewrite in_map_iff. split.
  - intros [[k g] [<- H]]. simpl.
    apply (groupby_spec cachepoint_eqb cachepoint_leb NormalizeData.key cachepoint_eqb_eq) in H.
    destruct H as [-> Hne]. unfold rows_with_key in *. rewrite filter_andb in Hne |- *.
    split; [exact Hne|reflexivity].
  - intros [Hne Hv]. exists (base_key b, baseline_rows_at df (base_key b)). split.
    + destruct b. unfold base_row_values, means_of in Hv. simpl in *.
      inversion Hv. reflexivity.
    + apply (groupby_spec cachepoint_eqb cachepoint_leb NormalizeData.key cachepoint_eqb_eq).
      unfold rows_with_key. rewrite filter_andb. split; [reflexivity|exact Hne].
Qed.

Lemma base_at_some df k b :
  base_at mean df k = Some b ->
  base_key b = k /\ baseline_rows_at df k <> []
  /\ base_row_values b = means_of mean (baseline_rows_at df k).
Proof.
  intros H. apply find_some in H. destruct H as [Hin E].
  apply cachepoint_eqb_eq in E. subst k.
  apply baseline_of_In in Hin. tauto.
Qed.

Lemma base_at_none df k :
  base_at mean df k = None <-> baseline_rows_at df k = [].
Proof.
  split.
  - intros H. destruct (baseline_rows_at df k) eqn:E; [reflexivity|].
    exfalso.
    set (g := baseline_rows_at df k).
    set (b := {| base_key := k;
                 base_dl1_miss := mean (map dl1_miss_rate g);
                 base_ul2_miss := mean (map ul2_miss_rate g);
                 base_ul2_demand := mean (map ul2_demand g);
                 base_cpi := mean (map sim_CPI g) |}).
    assert (Hin : In b (NormalizeData.baseline_of mean df)).
    { apply baseline_of_In. subst b g. simpl.
      split; [rewrite E; discriminate|reflexivity]. }
    pose proof (find_none _ _ H b Hin) as Hb. simpl in Hb.
    assert (Hk : cachepoint_eqb k k = true) by (apply cachepoint_eqb_eq; reflexivity).
    congruence.
  - intros H. destruct (base_at mean df k) as [b|] eqn:E; [|reflexivity].
    apply base_at_some in E. tauto.
Qed.

(** The table returned has one row per row of [df], in order. *)
Lemma normalize_rows df :
  NormalizeData.normalize_against_baseline mean df =
  map (fun r => with_norms (joined r (base_at mean df (NormalizeData.key r)))) df.
Proof.
  unfold NormalizeData.normalize_against_baseline.
  rewrite (merge_left_unique cachepoint_eqb NormalizeData.key cachepoint_eqb_eq)
    by apply baseline_of_keys.
  rewrite map_map. reflexivity.
Qed.

Lemma normalize_In df o :
  In o (NormalizeData.normalize_against_baseline mean df) ->
  In (row_of o) df /\ o = with_norms (merged o).
Proof.
  rewrite normalize_rows. intros H.
  apply in_map_iff in H. destruct H as [r [<- Hr]].
  unfold row_of. simpl.
  destruct (base_at mean df (NormalizeData.key r)); simpl; auto.
Qed.

Lemma normalize_base_values df o :
  In o (NormalizeData.normalize_against_baseline mean df) ->
  baseline_rows_at df (NormalizeData.key (row_of o)) <> [] ->
  base_values o = means_of mean (baseline_rows_at df (NormalizeData.key (row_of o))).
Proof.
  rewrite normalize_rows. intros H Hne.
  apply in_map_iff in H. destruct H as [r [<- Hr]].
  unfold row_of. simpl.
  replace (left_row (joined r (base_at mean df (NormalizeData.key r)))) with r in *
    by (destruct (base_at mean df (NormalizeData.key r)); reflexivity).
  destruct (base_at mean df (NormalizeData.key r)) as [b|] eqn:E.
  - apply base_at_some in E. destruct E as [_ [_ E]]. exact E.
  - apply base_at_none in E. unfold row_of in Hne. simpl in Hne. contradiction.
Qed.

End Baseline.


(** The two scripts define the same normalization. *)
Lemma normalize_same mean df :
  NormalizeAndPlot.normalize_against_baseline mean df
  = NormalizeData.normalize_against_baseline mean df.
Proof. reflexivity. Qed.

Lemma to_float_Num x : NormalizeData._to_float (Num x) = x.
Proof.
  unfold NormalizeData._to_float. simpl.
  destruct (is_nan x) eqn:E; [|reflexivity].
  apply is_nan_eq in E. subst. reflexivity.
Qed.

Lemma safe_div_by_nan a : NormalizeData.safe_div a (Num nan) = nan.
Proof.
  unfold NormalizeData.safe_div.
  change (NormalizeData._to_float (Num nan)) with nan.
  change (is_nan nan) with true. rewrite orb_true_r. reflexivity.
Qed.

(** ** The collector *)

Lemma hit_rate_spec lookups hits :
  hit_rate_rule lookups hits (Summarize.hit_rate lookups hits).
Proof.
  unfold hit_rate_rule, Summarize.hit_rate.
  destruct (Summarize.safe_float (Some lookups)) as [l|];
    [destruct (Summarize.safe_float (Some hits)) as [h|];
     [destruct (0 <? l)%float eqn:E|]|].
  - split.
    + split; [intros H; exfalso; revert H; apply format_4f_nonempty|].
      intros [H|[[l' [H1 H2]]|H]]; try discriminate. congruence.
    + intros l' h' H1 H2 _. congruence.
  - split; [|intros l' h' H1 H2 H3; congruence].
    split; [|reflexivity]. intros _. right. left. exists l. auto.
  - split; [|intros l' h' H1 H2 H3; congruence].
    split; [|reflexivity]. auto.
  - split; [|intros l' h' H1 H2 H3; congruence].
    split; [|reflexivity]. auto.
Qed.

(** The derived columns of a row the collector keeps are computed from
    the row's own columns, which hold stripped text. *)
Lemma summarize_row_Some cfg p row r :
  Summarize.summarize_row cfg p row = Ok (Some r) ->
  Summarize.vc_hit_rate r = Summarize.hit_rate (Summarize.vc_lookups r) (Summarize.vc_hits r)
  /\ Summarize.mc_hit_rate r = Summarize.hit_rate (Summarize.mc_lookups r) (Summarize.mc_hits r)
  /\ Summarize.sb_hit_rate r = Summarize.hit_rate (Summarize.sb_lookups r) (Summarize.sb_hits r)
  /\ Summarize.ul2_total_of (Summarize.ul2_d_accesses r) (Summarize.ul2_i_accesses r)
     = Ok (Summarize.ul2_total_accesses r)
  /\ Summarize.ul2_d_accesses r = strip (Summarize.ul2_d_accesses r)
  /\ Summarize.ul2_i_accesses r = strip (Summarize.ul2_i_accesses r).
Proof.
  unfold Summarize.summarize_row.
  destruct (_ || _); [discriminate|].
  destruct (Summarize.ul2_total_of _ _) as [t|e] eqn:E; [|discriminate].
  intros H. inversion H; subst; clear H. simpl.
  repeat split; try reflexivity; try exact E;
    unfold Summarize.field; rewrite strip_idem; reflexivity.
Qed.

(** ** Parsing of the configuration tag *)

Lemma startswith_dl1_not_ul2 t :
  startswith "dl1:" t = true -> startswith "ul2:" t = false.
Proof.
  destruct t as [|c t]; [discriminate|]. cbn [startswith].
  destruct (Ascii.eqb "d" c) eqn:E; [|discriminate].
  apply Ascii.eqb_eq in E. subst c. reflexivity.
Qed.

(** The loop of [parse_cache_cfg] from any state: each level ends with
    its last token, or keeps what it had when there is none. *)
Lemma parse_cache_cfg_fold tokens : forall dl1 ul2,
  fold_left
    (fun '(dl1, ul2) m =>
       let token := lower m in
       if startswith "dl1:" token then (Some token, ul2)
       else if startswith "ul2:" token then (dl1, Some token)
       else (dl1, ul2))
    tokens (dl1, ul2)
  = (or_else (last_where (startswith "dl1:") (map lower tokens)) dl1,
     or_else (last_where (startswith "ul2:") (map lower tokens)) ul2).
Proof.
  induction tokens as [|m tokens IH]; intros dl1 ul2; [reflexivity|].
  cbn [fold_left map last_where].
  destruct (startswith "dl1:" (lower m)) eqn:E1.
  - rewrite IH, (startswith_dl1_not_ul2 _ E1).
    destruct (last_where _ _), (last_where _ _); reflexivity.
  - destruct (startswith "ul2:" (lower m)) eqn:E2; rewrite IH;
      destruct (last_where _ _), (last_where _ _); reflexivity.
Qed.

(** ** Modes through the pipeline *)

Lemma prepared_same df : NormalizeAndPlot.prepared df = NormalizeData.prepared df.
Proof. reflexivity. Qed.









(** * The claims *)



(** C2 (as amended): [safe_div a b] is NaN exactly when [a] is undefined,
    [b] is undefined, [b == 0], or [a] and [b] are both infinite;
    whenever neither operand is undefined and [b] is not zero it is the
    binary64 quotient [a / b]; and each of the four normalized columns of
    every row is [safe_div] of the row's metric and its baseline column. *)
Theorem safe_div_rule :
  forall a b : cell,
    let x := NormalizeData._to_float a in
    let y := NormalizeData._to_float b in
    (is_nan (NormalizeData.safe_div a b) = true <->
       is_nan x = true \/ is_nan y = true \/ (y =? 0)%float = true
       \/ is_infinity x && is_infinity y = true)
    /\ (is_nan x = false -> is_nan y = false -> (y =? 0)%float = false ->
        NormalizeData.safe_div a b = (x / y)%float)
    /\ (forall mean df o,
          In o (NormalizeData.normalize_against_baseline mean df) ->
          let r := row_of o in
          dl1_miss_norm o
            = NormalizeData.safe_div (Num (dl1_miss_rate r)) (Num (dl1_miss_base (merged o)))
          /\ ul2_miss_norm o
            = NormalizeData.safe_div (Num (ul2_miss_rate r)) (Num (ul2_miss_base (merged o)))
          /\ ul2_demand_norm o
            = NormalizeData.safe_div (Num (ul2_demand r)) (Num (ul2_demand_base (merged o)))
          /\ cpi_norm o
            = NormalizeData.safe_div (Num (sim_CPI r)) (Num (cpi_base (merged o)))).
Proof.
  intros a b x y. split; [|split].
  - unfold NormalizeData.safe_div. fold x y.
    destruct (is_nan x) eqn:Ex; simpl; [split; auto|].
    destruct (is_nan y) eqn:Ey; simpl; [split; auto|].
    destruct (y =? 0)%float eqn:Ez; simpl; [split; auto|].
    rewrite (div_nan_iff x y Ex Ey Ez). split; [auto|].
    intros [H|[H|[H|H]]]; try discriminate. exact H.
  - intros Ex Ey Ez. unfold NormalizeData.safe_div. fold x y.
    rewrite Ex, Ey, Ez. reflexivity.
  - intros mean df o Ho r. apply normalize_In in Ho. destruct Ho as [_ E].
    subst r. remember (merged o) as m eqn:Hm. clear Hm. subst o.
    unfold row_of. simpl. auto.
Qed.

(** C2 as stated fails: both operands infinite are defined numbers and
    the divisor is not zero, yet the result is NaN. *)
Lemma safe_div_infinite_operands :
  NormalizeData.safe_div (Num infinity) (Num infinity) = nan
  /\ NormalizeData.safe_div (Text "inf") (Text "inf") = nan
  /\ NormalizeData._to_float (Text "inf") = infinity
  /\ is_nan infinity = false
  /\ (infinity =? 0)%float = false.
Proof. vm_compute. repeat split; reflexivity. Qed.

(** C3 (as amended): in every row the collector keeps, each of the three
    hit rates is empty exactly when the lookups are absent, unparseable
    or not above zero, or the hits are absent or unparseable; otherwise
    it is hits/lookups printed with four decimals. *)
Theorem hit_rate_of_summary_row :
  forall cfg csv_path row r,
    Summarize.summarize_row cfg csv_path row = Ok (Some r) ->
    hit_rate_rule (Summarize.vc_lookups r) (Summarize.vc_hits r) (Summarize.vc_hit_rate r)
    /\ hit_rate_rule (Summarize.mc_lookups r) (Summarize.mc_hits r) (Summarize.mc_hit_rate r)
    /\ hit_rate_rule (Summarize.sb_lookups r) (Summarize.sb_hits r) (Summarize.sb_hit_rate r).
Proof.
  intros cfg p row r H. apply summarize_row_Some in H.
  destruct H as [-> [-> [-> _]]]. repeat split; apply hit_rate_spec.
Qed.

(** A run with 3 hits in 10 lookups: the hit rate is [0.3000]. *)
Lemma hit_rate_witness :
  exists r,
    Summarize.summarize_row "victim_vc4" "results/ss/victim_vc4/ss_gcc.csv"
      Sample.victim_run = Ok (Some r)
    /\ (hit_rate_rule (Summarize.vc_lookups r) (Summarize.vc_hits r)
          (Summarize.vc_hit_rate r)
        /\ hit_rate_rule (Summarize.mc_lookups r) (Summarize.mc_hits r)
             (Summarize.mc_hit_rate r)
        /\ hit_rate_rule (Summarize.sb_lookups r) (Summarize.sb_hits r)
             (Summarize.sb_hit_rate r))
    /\ Summarize.vc_hit_rate r = "0.3000"
    /\ Summarize.mc_hit_rate r = "".
Proof.
  destruct (Summarize.summarize_row "victim_vc4" "results/ss/victim_vc4/ss_gcc.csv"
              Sample.victim_run) as [[r|]|e] eqn:E;
    try (vm_compute in E; discriminate).
  exists r. split; [reflexivity|]. split.
  - exact (hit_rate_of_summary_row _ _ _ r E).
  - vm_compute in E. injection E as <-. split; reflexivity.
Defined.

(** C3 as stated fails: with 10 lookups and no hits field the lookups
    are defined and above zero, yet the hit rate is empty, which no
    four-decimal print of a number is. *)
Lemma hit_rate_without_hits :
  exists r,
    Summarize.summarize_row "victim_vc4" "results/ss/victim_vc4/ss_gcc.csv"
      Sample.run_without_hits = Ok (Some r)
    /\ Summarize.safe_float (Some (Summarize.vc_lookups r)) = Some 10%float
    /\ (0 <? 10)%float = true
    /\ Summarize.safe_float (Some (Summarize.vc_hits r)) = None
    /\ Summarize.vc_hit_rate r = ""
    /\ (forall x, format_4f x <> "").
Proof.
  eexists. split; [vm_compute; reflexivity|].
  repeat split; try (vm_compute; reflexivity). apply format_4f_nonempty.
Qed.

(** C4 (as amended): in every row the collector keeps, the total is
    empty exactly when both access fields are empty; otherwise it is the
    decimal text of the integer part of the float sum of the two fields,
    an empty field counting as zero. *)
Theorem ul2_total_of_summary_row :
  forall cfg csv_path row r,
    Summarize.summarize_row cfg csv_path row = Ok (Some r) ->
    let d := Summarize.ul2_d_accesses r in
    let i := Summarize.ul2_i_accesses r in
    (Summarize.ul2_total_accesses r = "" <-> d = "" /\ i = "")
    /\ (~ (d = "" /\ i = "") ->
        exists n,
          int_of_float (Summarize.or_zero (Summarize.safe_float (Some d))
                        + Summarize.or_zero (Summarize.safe_float (Some i)))%float = Ok n
          /\ Summarize.ul2_total_accesses r = str_of_int n)
    /\ (d = "" -> Summarize.or_zero (Summarize.safe_float (Some d)) = zero)
    /\ (i = "" -> Summarize.or_zero (Summarize.safe_float (Some i)) = zero).
Proof.
  intros cfg p row r H d i. apply summarize_row_Some in H.
  destruct H as [_ [_ [_ [H [Hd Hi]]]]]. fold d i in H, Hd, Hi.
  unfold Summarize.ul2_total_of in H. rewrite <- Hd, <- Hi in H.
  rewrite !andb_diag in H.
  split; [|split; [|split]].
  - destruct (String.eqb d "") eqn:Ed, (String.eqb i "") eqn:Ei; simpl in H;
      try (destruct (int_of_float _) as [n|e]; [|discriminate];
           inversion H as [Ht]; split;
           [intros Hc; exfalso; revert Hc; apply str_of_int_nonempty|]).
    + inversion H. apply eqb_empty in Ed, Ei. tauto.
    + intros [_ Hc]. apply eqb_empty in Hc. congruence.
    + intros [Hc _]. apply eqb_empty in Hc. congruence.
    + intros [Hc _]. apply eqb_empty in Hc. congruence.
  - intros Hne.
    destruct (String.eqb d "") eqn:Ed, (String.eqb i "") eqn:Ei; simpl in H;
      try (destruct (int_of_float _) as [n|e]; [|discriminate];
           inversion H; exists n; split; reflexivity).
    apply eqb_empty in Ed, Ei. tauto.
  - intros ->. reflexivity.
  - intros ->. reflexivity.
Qed.

(** A run with 120 data and 30 instruction accesses: the total is [150]. *)
Lemma ul2_total_witness :
  exists r,
    Summarize.summarize_row "victim_vc4" "results/ss/victim_vc4/ss_gcc.csv"
      Sample.victim_run = Ok (Some r)
    /\ (Summarize.ul2_total_accesses r = ""
        <-> Summarize.ul2_d_accesses r = "" /\ Summarize.ul2_i_accesses r = "")
    /\ Summarize.ul2_total_accesses r = "150".
Proof.
  destruct (Summarize.summarize_row "victim_vc4" "results/ss/victim_vc4/ss_gcc.csv"
              Sample.victim_run) as [[r|]|e] eqn:E;
    try (vm_compute in E; discriminate).
  exists r. split; [reflexivity|]. split.
  - exact (proj1 (ul2_total_of_summary_row _ _ _ r E)).
  - vm_compute in E. injection E as <-. reflexivity.
Defined.

(** C4 as stated fails: with 1.5 data accesses and no instruction field
    the total is [1], which is not the sum 1.5. *)
Lemma ul2_total_truncates :
  exists r,
    Summarize.summarize_row "baseline" "results/ss/baseline/ss_gcc.csv"
      Sample.run_with_fraction = Ok (Some r)
    /\ Summarize.safe_float (Some (Summarize.ul2_d_accesses r)) = Some 1.5%float
    /\ Summarize.ul2_i_accesses r = ""
    /\ Summarize.ul2_total_accesses r = "1"
    /\ float_of_str "1" = Some 1%float
    /\ (1.5 + 0 =? 1)%float = false.
Proof.
  eexists. split; [vm_compute; reflexivity|].
  repeat split; vm_compute; reflexivity.
Qed.

(** C5, on an input that separates the flag from the claim: a baseline
    run without a level-1 miss rate and a victim-cache run at the same
    cache point. The cache point has a baseline row, and the victim row
    is normalized against its CPI, yet both rows are flagged as having no
    baseline and counted as missing one. *)
Lemma has_baseline_flag_on_blank_miss_rate :
  map (fun o => (mode (row_of (NormalizeData.norm o)),
                 NormalizeData.has_baseline_for_cachepoint o,
                 cpi_base (merged (NormalizeData.norm o)),
                 cpi_norm (NormalizeData.norm o)))
      (NormalizeData.main nanmean Sample.summary_blank_miss_rate)
  = [("baseline", false, 2%float, 1%float); ("victim", false, 2%float, 0.75%float)]
  /\ NormalizeData.base_missing nanmean Sample.summary_blank_miss_rate = 2%nat
  /\ List.length
       (baseline_rows_at (NormalizeData.prepared Sample.summary_blank_miss_rate)
          Sample.gcc_reference) = 1%nat.
Proof. vm_compute. repeat split; reflexivity. Qed.

(** X1, the part of C5 that holds: a row of the table [main] writes
    whose cache point has no baseline-mode row has its four normalized
    columns undefined and its flag false. *)
Theorem no_baseline_no_normalized_value :
  forall (mean : list float -> float) (df : list raw_row) (o : NormalizeData.report_row),
    In o (NormalizeData.main mean df) ->
    baseline_rows_at (NormalizeData.prepared df)
      (NormalizeData.key (row_of (NormalizeData.norm o))) = [] ->
    dl1_miss_norm (NormalizeData.norm o) = nan
    /\ ul2_miss_norm (NormalizeData.norm o) = nan
    /\ ul2_demand_norm (NormalizeData.norm o) = nan
    /\ cpi_norm (NormalizeData.norm o) = nan
    /\ NormalizeData.has_baseline_for_cachepoint o = false.
Proof.
  intros mean df o H Hnone. unfold NormalizeData.main in H.
  apply in_map_iff in H. destruct H as [n [<- H]]. simpl in *.
  rewrite normalize_rows in H. apply in_map_iff in H. destruct H as [r [<- Hr]].
  unfold row_of in Hnone. simpl in Hnone.
  assert (E : base_at mean (NormalizeData.prepared df) (NormalizeData.key r) = None).
  { apply base_at_none.
    destruct (base_at mean (NormalizeData.prepared df) (NormalizeData.key r));
      exact Hnone. }
  rewrite E. simpl. rewrite !safe_div_by_nan. auto.
Qed.

(** The third row of the sample output is the victim-cache run at the
    cache point without baseline. *)
Lemma no_baseline_witness :
  match nth_error (NormalizeData.main nanmean Sample.summary) 2 with
  | Some o =>
      In o (NormalizeData.main nanmean Sample.summary)
      /\ baseline_rows_at (NormalizeData.prepared Sample.summary)
           (NormalizeData.key (row_of (NormalizeData.norm o))) = []
      /\ dl1_miss_norm (NormalizeData.norm o) = nan
      /\ ul2_miss_norm (NormalizeData.norm o) = nan
      /\ ul2_demand_norm (NormalizeData.norm o) = nan
      /\ cpi_norm (NormalizeData.norm o) = nan
      /\ NormalizeData.has_baseline_for_cachepoint o = false
  | None => False
  end.
Proof.
  destruct (nth_error (NormalizeData.main nanmean Sample.summary) 2) as [o|] eqn:E;
    [|vm_compute in E; discriminate].
  pose proof (nth_error_In _ _ E) as Hin.
  assert (Hnone : baseline_rows_at (NormalizeData.prepared Sample.summary)
                    (NormalizeData.key (row_of (NormalizeData.norm o))) = []).
  { vm_compute in E. injection E as <-. vm_compute. reflexivity. }
  split; [exact Hin|]. split; [exact Hnone|].
  exact (no_baseline_no_normalized_value nanmean Sample.summary o Hin Hnone).
Defined.

(** C6: the tag
    [victim_stream_vc8_d4__dl1:1024:32:1:l__ul2:16384:64:4:l] parses to
    the level-1 configuration [dl1:1024:32:1:l], of capacity
    1024 * 32 * 1 = 32768, with 8 victim-cache entries, a stream-buffer
    depth of 4 and no miss-cache entries. *)
Example parse_reference_tag :
  let tag := Some "victim_stream_vc8_d4__dl1:1024:32:1:l__ul2:16384:64:4:l" in
  NormalizeData.parse_cache_cfg tag = (Some "dl1:1024:32:1:l", Some "ul2:16384:64:4:l")
  /\ NormalizeData.cache_bytes (fst (NormalizeData.parse_cache_cfg tag)) = 32768%float
  /\ float_of_int (1024 * 32 * 1) = Some 32768%float
  /\ NormalizeData.parse_knobs tag = (8%float, nan, 4%float).
Proof. vm_compute. repeat split; reflexivity. Qed.

(** C7: for every tag, [parse_cache_cfg] returns for each level the last
    of the tokens [CFG_RE.finditer] finds for that level, lowercased, and
    nothing when it finds none. *)
Theorem parse_cache_cfg_last_match_wins :
  forall config_str : option string,
    let tokens := map lower (finditer (str_of_text config_str)) in
    NormalizeData.parse_cache_cfg config_str
    = (last_where (startswith "dl1:") tokens, last_where (startswith "ul2:") tokens).
Proof.
  intros config_str tokens. unfold NormalizeData.parse_cache_cfg.
  rewrite parse_cache_cfg_fold. fold tokens.
  destruct (last_where _ tokens), (last_where _ tokens); reflexivity.
Qed.

(** C8: for every table and every mode, filtering a slice
    [filter_ref_knobs_for_mode] has produced for that mode again returns
    the same slice. *)
Theorem filter_ref_knobs_for_mode_idempotent :
  forall (df : list norm_row) (mode : string),
    NormalizeAndPlot.filter_ref_knobs_for_mode
      (NormalizeAndPlot.filter_ref_knobs_for_mode df mode) mode
    = NormalizeAndPlot.filter_ref_knobs_for_mode df mode.
Proof.
  intros df m. unfold NormalizeAndPlot.filter_ref_knobs_for_mode.
  repeat match goal with
         | |- context [if ?c then _ else _] => destruct c
         end;
    first [apply filter_idem | apply filter_filter_idem].
Qed.


(** C10: [parse_cache_cfg], [cache_bytes], [parse_knobs] and
    [normalize_against_baseline] of [normalize_data.py] return, on every
    input, what the functions of the same names of
    [normalize_and_plot_ss.py] return. *)
Theorem normalizers_agree :
  (forall config_str,
      NormalizeData.parse_cache_cfg config_str = NormalizeAndPlot.parse_cache_cfg config_str)
  /\ (forall cache_cfg,
         NormalizeData.cache_bytes cache_cfg = NormalizeAndPlot.cache_bytes cache_cfg)
  /\ (forall config_str,
         NormalizeData.parse_knobs config_str = NormalizeAndPlot.parse_knobs config_str)
  /\ (forall mean df,
         NormalizeData.normalize_against_baseline mean df
         = NormalizeAndPlot.normalize_against_baseline mean df).
Proof. repeat split. Qed.

(** An illustration: a baseline run with level-1 miss rate 0.10 and a
    victim-cache run with 0.08 at the same cache point. The baseline row
    normalizes to 1,
    the victim row to the binary64 quotient of 0.08 by 0.10, which is the
    double just below 0.8. *)
Example normalized_gcc_scenario :
  map (fun o => (mode (row_of (NormalizeData.norm o)),
                 dl1_miss_norm (NormalizeData.norm o),
                 NormalizeData.has_baseline_for_cachepoint o))
      (NormalizeData.main nanmean Sample.summary_gcc)
  = [("baseline", 1%float, true); ("victim", 0x1.9999999999999p-1%float, true)]
  /\ float_of_str "0.8" = Some 0x1.999999999999ap-1%float.
Proof. vm_compute. repeat split; reflexivity. Qed.

(** * Further properties *)

Import Described.

(** ** Division of a float by itself *)

Lemma is_infinity_Prim2SF x :
  is_infinity x = true <-> exists s, Prim2SF x = S754_infinity s.
Proof.
  unfold is_infinity. rewrite eqb_spec, abs_spec.
  destruct (Prim2SF x) as [s|s| |s m e]; simpl; (split; [intros H | intros [s' H]]);
    try discriminate; eauto.
Qed.

Lemma eqb_zero_Prim2SF x :
  (x =? 0)%float = true <-> exists s, Prim2SF x = S754_zero s.
Proof.
  rewrite eqb_spec.
  destruct (Prim2SF x) as [s|s| |s m e]; simpl; (split; [intros H | intros [s' H]]);
    try discriminate; eauto; destruct s; discriminate.
Qed.

Lemma div_eucl_shiftl m :
  Z.div_eucl (Z.shiftl (Zpos m) 53) (Zpos m) = (2 ^ 53, 0)%Z.
Proof.
  rewrite Z.shiftl_mul_pow2 by lia.
  pose proof (Z.div_mul (2 ^ 53) (Zpos m)) as Hd.
  pose proof (Z.mod_mul (2 ^ 53) (Zpos m)) as Hm.
  unfold Z.div, Z.modulo in Hd, Hm.
  rewrite (Z.mul_comm (Z.pos m)).
  destruct (Z.div_eucl (2 ^ 53 * Z.pos m) (Z.pos m)) as [q r].
  rewrite Hd, Hm by lia. reflexivity.
Qed.

(** The quotient of a finite float by itself is computed from
    [m * 2^53 / m = 2^53], whatever the mantissa [m]. *)
Lemma SFdiv_self s m e :
  SFdiv prec emax (S754_finite s m e) (S754_finite s m e) = Prim2SF 1%float.
Proof.
  unfold SFdiv, SFdiv_core_binary.
  rewrite Z.sub_diag, Z.sub_diag.
  replace (Z.min (fexp prec emax 0) 0) with (-53)%Z by reflexivity.
  replace (0 - -53)%Z with 53%Z by reflexivity.
  cbv match beta.
  change (match 53%Z with
          | Z0 | Zneg _ => Z.pos m
          | Zpos _ => Z.shiftl (Z.pos m) 53
          end) with (Z.shiftl (Z.pos m) 53).
  rewrite div_eucl_shiftl.
  replace (xorb s s) with false by (destruct s; reflexivity).
  unfold new_location.
  destruct (Z.even (Z.pos m)); reflexivity.
Qed.

Lemma div_self x : finite_nonzero x = true -> (x / x)%float = 1%float.
Proof.
  unfold finite_nonzero. intros H.
  apply andb_prop in H as [H Hz]. apply andb_prop in H as [Hn Hi].
  apply Prim2SF_inj. rewrite div_spec.
  destruct (Prim2SF x) as [s|s| |s m e] eqn:E.
  - assert ((x =? 0)%float = true) as Hc by (apply eqb_zero_Prim2SF; eauto).
    rewrite Hc in Hz. discriminate.
  - assert (is_infinity x = true) as Hc by (apply is_infinity_Prim2SF; eauto).
    rewrite Hc in Hi. discriminate.
  - assert (is_nan x = true) as Hc by (apply is_nan_Prim2SF; exact E).
    rewrite Hc in Hn. discriminate.
  - apply SFdiv_self.
Qed.

Lemma safe_div_self x :
  finite_nonzero x = true -> NormalizeData.safe_div (Num x) (Num x) = 1%float.
Proof.
  intros H. unfold NormalizeData.safe_div. rewrite to_float_Num.
  pose proof H as H'. unfold finite_nonzero in H'.
  apply andb_prop in H' as [H' Hz]. apply andb_prop in H' as [Hn Hi].
  apply negb_true_iff in Hn, Hz. rewrite Hn, Hz. simpl.
  apply div_self, H.
Qed.

(** ** The rows of the normalized table *)

Lemma row_of_with_norms r b : row_of (with_norms (joined r b)) = r.
Proof. destruct b; reflexivity. Qed.





(** X2: a baseline row that is the only baseline row of its cache point
    has the normalized value 1.0 on every metric that is finite and not
    zero, when the reducer returns the value of a group of one. *)
Theorem sole_baseline_normalizes_to_one :
  forall (mean : list float -> float) (df : list row) (o : norm_row),
    In o (NormalizeData.normalize_against_baseline mean df) ->
    baseline_rows_at df (NormalizeData.key (row_of o)) = [row_of o] ->
    means_of mean [row_of o]
    = (dl1_miss_rate (row_of o), ul2_miss_rate (row_of o),
       ul2_demand (row_of o), sim_CPI (row_of o)) ->
    (finite_nonzero (dl1_miss_rate (row_of o)) = true -> dl1_miss_norm o = 1%float)
    /\ (finite_nonzero (ul2_miss_rate (row_of o)) = true -> ul2_miss_norm o = 1%float)
    /\ (finite_nonzero (ul2_demand (row_of o)) = true -> ul2_demand_norm o = 1%float)
    /\ (finite_nonzero (sim_CPI (row_of o)) = true -> cpi_norm o = 1%float).
Proof.
  intros mean df o Ho Hb Hm.
  pose proof (normalize_base_values mean df o Ho) as Hv.
  rewrite Hb in Hv. specialize (Hv ltac:(discriminate)). rewrite Hm in Hv.
  apply normalize_In in Ho as [_ Ho].
  unfold base_values in Hv. inversion Hv as [[H1 H2 H3 H4]].
  pose proof (f_equal dl1_miss_norm Ho) as N1.
  pose proof (f_equal ul2_miss_norm Ho) as N2.
  pose proof (f_equal ul2_demand_norm Ho) as N3.
  pose proof (f_equal cpi_norm Ho) as N4.
  cbn [with_norms dl1_miss_norm ul2_miss_norm ul2_demand_norm cpi_norm] in N1, N2, N3, N4.
  fold (row_of o) in N1, N2, N3, N4.
  rewrite N1, N2, N3, N4, H1, H2, H3, H4.
  repeat split; apply safe_div_self.
Qed.

Lemma sole_baseline_witness :
  match nth_error (NormalizeData.normalize_against_baseline nanmean
                     (NormalizeData.prepared Sample.summary_gcc)) 0 with
  | Some o =>
      In o (NormalizeData.normalize_against_baseline nanmean
              (NormalizeData.prepared Sample.summary_gcc))
      /\ baseline_rows_at (NormalizeData.prepared Sample.summary_gcc)
           (NormalizeData.key (row_of o)) = [row_of o]
      /\ finite_nonzero (dl1_miss_rate (row_of o)) = true
      /\ dl1_miss_norm o = 1%float
      /\ ul2_miss_norm o = 1%float
      /\ ul2_demand_norm o = 1%float
      /\ cpi_norm o = 1%float
  | None => False
  end.
Proof.
  destruct (nth_error _ 0) as [o|] eqn:E; [|discriminate E].
  pose proof (nth_error_In _ _ E) as Ho.
  vm_compute in E. injection E as <-.
  destruct (sole_baseline_normalizes_to_one nanmean _ _ Ho) as (H1 & H2 & H3 & H4);
    [vm_compute; reflexivity | vm_compute; reflexivity |].
  split; [exact Ho|].
  split; [vm_compute; reflexivity|].
  split; [reflexivity|].
  split; [apply H1; reflexivity|].
  split; [apply H2; reflexivity|].
  split; [apply H3; reflexivity | apply H4; reflexivity].
Defined.



(** X5: the flag [has_baseline_for_cachepoint] of a row [main] writes
    is set exactly when the cache point has a baseline row and the mean
    of the baseline level-1 miss rates is not NaN. *)
Theorem has_baseline_flag_iff :
  forall (mean : list float -> float) (df : list raw_row) (o : NormalizeData.report_row),
    In o (NormalizeData.main mean df) ->
    let rows := baseline_rows_at (NormalizeData.prepared df)
                  (NormalizeData.key (row_of (NormalizeData.norm o))) in
    NormalizeData.has_baseline_for_cachepoint o = true <->
    rows <> [] /\ is_nan (mean (map dl1_miss_rate rows)) = false.
Proof.
  intros mean df o Ho rows. unfold NormalizeData.main in Ho.
  apply in_map_iff in Ho as (n & <- & Hn).
  cbn [NormalizeData.has_baseline_for_cachepoint NormalizeData.norm] in *.
  rewrite normalize_rows in Hn. apply in_map_iff in Hn as (r & <- & Hr).
  unfold rows. clear rows. rewrite row_of_with_norms.
  destruct (base_at mean (NormalizeData.prepared df) (NormalizeData.key r)) as [b|] eqn:E.
  - apply base_at_some in E as (_ & Hne & Hv).
    unfold base_row_values, means_of in Hv. injection Hv as H1 _ _ _.
    cbn [with_norms merged joined dl1_miss_base]. rewrite H1, negb_true_iff. tauto.
  - apply base_at_none in E. rewrite E. cbn [with_norms merged joined dl1_miss_base].
    split; [discriminate | intros [H _]; contradiction].
Qed.

Lemma has_baseline_flag_witness :
  match nth_error (NormalizeData.main nanmean Sample.summary) 1 with
  | Some o =>
      In o (NormalizeData.main nanmean Sample.summary)
      /\ (NormalizeData.has_baseline_for_cachepoint o = true <->
          baseline_rows_at (NormalizeData.prepared Sample.summary)
            (NormalizeData.key (row_of (NormalizeData.norm o))) <> []
          /\ is_nan (nanmean (map dl1_miss_rate
                                (baseline_rows_at (NormalizeData.prepared Sample.summary)
                                   (NormalizeData.key (row_of (NormalizeData.norm o))))))
             = false)
      /\ NormalizeData.has_baseline_for_cachepoint o = true
  | None => False
  end.
Proof.
  destruct (nth_error _ 1) as [o|] eqn:E; [|discriminate E].
  pose proof (nth_error_In _ _ E) as Ho.
  split; [exact Ho|].
  split; [exact (has_baseline_flag_iff nanmean Sample.summary o Ho)|].
  vm_compute in E. injection E as <-. reflexivity.
Defined.

(** ** The tag of a run *)

Lemma lower_app a b : lower (a ++ b)%string = (lower a ++ lower b)%string.
Proof. induction a as [|c a IH]; simpl; [|rewrite IH]; reflexivity. Qed.

Lemma lower_length s : String.length (lower s) = String.length s.
Proof. induction s as [|c s IH]; simpl; [|rewrite IH]; reflexivity. Qed.

Lemma is_digit_lower_char c : is_digit (lower_char c) = is_digit c.
Proof. destruct c as [[] [] [] [] [] [] [] []]; reflexivity. Qed.

Lemma lower_char_colon c : Ascii.eqb (lower_char c) ":" = Ascii.eqb c ":".
Proof. destruct c as [[] [] [] [] [] [] [] []]; reflexivity. Qed.

Lemma literal_ci_ignores_case p : ignores_case (literal_ci p).
Proof.
  induction p as [|a p IH]; intros s; [reflexivity|].
  destruct s as [|b s]; [reflexivity|].
  cbn [lower literal_ci]. rewrite lower_char_idem.
  destruct (Ascii.eqb (lower_char b) a); [|reflexivity].
  rewrite IH. destruct (literal_ci p s) as [[t r]|]; reflexivity.
Qed.

Lemma span_digits_lower s :
  span_digits (lower s) = (fst (span_digits s), lower (snd (span_digits s))).
Proof.
  induction s as [|c s IH]; [reflexivity|].
  cbn [lower span_digits]. rewrite is_digit_lower_char.
  destruct (is_digit c) eqn:E; [|reflexivity].
  rewrite IH. destruct (digit_facts c E) as (_ & _ & -> & _).
  destruct (span_digits s) as [d r]. reflexivity.
Qed.

Lemma digits1_ignores_case : ignores_case digits1.
Proof.
  intros s. unfold digits1. rewrite span_digits_lower.
  pose proof (span_digits_digits s) as Hd.
  destruct (span_digits s) as [d r]. cbn [fst snd] in *.
  destruct d as [|c d]; [reflexivity|].
  unfold option_map, lower2. cbn [fst snd].
  rewrite (digits_lower _ Hd). reflexivity.
Qed.

Lemma colon_ignores_case : ignores_case colon.
Proof.
  intros [|c s]; [reflexivity|].
  destruct c as [[] [] [] [] [] [] [] []]; reflexivity.
Qed.

Lemma policy_ignores_case : ignores_case policy.
Proof.
  intros [|c s]; [reflexivity|].
  cbn [lower policy]. rewrite lower_char_idem.
  destruct (_ || _); reflexivity.
Qed.

Lemma seq_ignores_case m1 m2 :
  ignores_case m1 -> ignores_case m2 -> ignores_case (seq m1 m2).
Proof.
  intros H1 H2 s. unfold seq. rewrite H1.
  destruct (m1 s) as [[t1 r1]|]; [|reflexivity].
  cbn [option_map lower2 fst snd]. rewrite H2.
  destruct (m2 r1) as [[t2 r2]|]; [|reflexivity].
  unfold option_map, lower2. cbn [fst snd]. rewrite lower_app. reflexivity.
Qed.

Lemma geometry_ignores_case name : ignores_case (geometry name).
Proof.
  unfold geometry.
  repeat first [ apply seq_ignores_case | apply literal_ci_ignores_case
               | apply digits1_ignores_case | apply colon_ignores_case
               | apply policy_ignores_case ].
Qed.

Lemma CFG_RE_match_lower s :
  CFG_RE_match (lower s) = option_map lower (CFG_RE_match s).
Proof.
  unfold CFG_RE_match. rewrite !geometry_ignores_case.
  destruct (geometry "dl1" s) as [[t r]|]; [reflexivity|].
  destruct (geometry "ul2" s) as [[t r]|]; reflexivity.
Qed.

Lemma finditer_from_lower s : forall skip,
  finditer_from skip (lower s) = map lower (finditer_from skip s).
Proof.
  induction s as [|c s IH]; intros skip; [reflexivity|].
  destruct skip as [|k].
  - change (lower (String c s)) with (String (lower_char c) (lower s)).
    cbn [finditer_from].
    change (String (lower_char c) (lower s)) with (lower (String c s)).
    rewrite CFG_RE_match_lower.
    destruct (CFG_RE_match (String c s)) as [t|]; cbn [option_map map].
    + rewrite lower_length, IH. reflexivity.
    + apply IH.
  - cbn [lower finditer_from]. apply IH.
Qed.

Lemma fold_left_map {A B C : Type} (f : A -> C -> A) (g : B -> C) l : forall a,
  fold_left f (map g l) a = fold_left (fun a x => f a (g x)) l a.
Proof. induction l as [|x l IH]; intros a; simpl; [|rewrite IH]; reflexivity. Qed.

Lemma parse_cache_cfg_lower s :
  NormalizeData.parse_cache_cfg (Some (lower s)) = NormalizeData.parse_cache_cfg (Some s).
Proof.
  unfold NormalizeData.parse_cache_cfg, str_of_text, finditer.
  rewrite finditer_from_lower, fold_left_map.
  generalize (@None string, @None string).
  induction (finditer_from 0 s) as [|m l IH]; intros [d u]; [reflexivity|].
  cbn [fold_left]. rewrite <- IH. cbv beta iota zeta. rewrite lower_idem. reflexivity.
Qed.

Lemma parse_knobs_lower s :
  NormalizeData.parse_knobs (Some (lower s)) = NormalizeData.parse_knobs (Some s).
Proof. unfold NormalizeData.parse_knobs, str_of_text. rewrite lower_idem. reflexivity. Qed.

(** X6: two tags that differ only in the case of their letters give
    the same cache configurations and the same knobs. *)
Theorem tag_case_is_ignored :
  forall s1 s2 : string,
    lower s1 = lower s2 ->
    NormalizeData.parse_cache_cfg (Some s1) = NormalizeData.parse_cache_cfg (Some s2)
    /\ NormalizeData.parse_knobs (Some s1) = NormalizeData.parse_knobs (Some s2).
Proof.
  intros s1 s2 H. split.
  - rewrite <- (parse_cache_cfg_lower s1), <- (parse_cache_cfg_lower s2), H. reflexivity.
  - rewrite <- (parse_knobs_lower s1), <- (parse_knobs_lower s2), H. reflexivity.
Qed.

Lemma tag_case_witness :
  lower Inputs.mixed_case_tag = lower Inputs.lower_case_tag
  /\ NormalizeData.parse_cache_cfg (Some Inputs.mixed_case_tag)
     = NormalizeData.parse_cache_cfg (Some Inputs.lower_case_tag)
  /\ NormalizeData.parse_knobs (Some Inputs.mixed_case_tag)
     = NormalizeData.parse_knobs (Some Inputs.lower_case_tag).
Proof.
  split; [reflexivity|].
  apply (tag_case_is_ignored Inputs.mixed_case_tag Inputs.lower_case_tag).
  reflexivity.
Defined.

Lemma no_colon_lower s : no_colon (lower s) = no_colon s.
Proof.
  induction s as [|c s IH]; [reflexivity|].
  unfold no_colon in *. cbn [lower all_chars]. rewrite lower_char_colon, IH. reflexivity.
Qed.

Lemma digits_no_colon d : all_chars is_digit d = true -> no_colon d = true.
Proof.
  induction d as [|c d IH]; [reflexivity|].
  unfold no_colon in *. cbn [all_chars]. intros H. apply andb_prop in H as [Hc Hd].
  rewrite (IH Hd), andb_true_r.
  destruct c as [[] [] [] [] [] [] [] []]; try reflexivity; discriminate Hc.
Qed.

Lemma literal_ci_no_colon p : forall s t r,
  no_colon p = true -> literal_ci p s = Some (t, r) -> no_colon t = true.
Proof.
  induction p as [|a p IH]; intros s t r Hp H.
  - simpl in H. injection H as <- _. reflexivity.
  - destruct s as [|b s]; [discriminate|]. cbn [literal_ci] in H.
    unfold no_colon in Hp. cbn [all_chars] in Hp. apply andb_prop in Hp as [Ha Hp].
    destruct (Ascii.eqb (lower_char b) a) eqn:E; [|discriminate].
    destruct (literal_ci p s) as [[t' r']|] eqn:E'; [|discriminate].
    injection H as <- <-. unfold no_colon. cbn [all_chars].
    fold (no_colon t'). rewrite (IH _ _ _ Hp E'), andb_true_r.
    apply Ascii.eqb_eq in E. subst a. rewrite lower_char_colon in Ha. exact Ha.
Qed.

Lemma colon_inv s t r : colon s = Some (t, r) -> t = ":".
Proof.
  destruct s as [|c s]; [discriminate|]. unfold colon.
  destruct c as [[] [] [] [] [] [] [] []]; try discriminate.
  intros H. injection H as <- _. reflexivity.
Qed.

Lemma digits1_inv s d r :
  digits1 s = Some (d, r) -> d <> "" /\ all_chars is_digit d = true.
Proof.
  unfold digits1. pose proof (span_digits_digits s) as Hd.
  destruct (span_digits s) as [d' r']. cbn [fst] in Hd.
  destruct d' as [|c d']; [discriminate|].
  intros H. injection H as <- _. split; [discriminate | exact Hd].
Qed.

Lemma policy_inv s t r : policy s = Some (t, r) -> no_colon t = true.
Proof.
  destruct s as [|c s]; [discriminate|]. unfold policy.
  destruct (_ || _) eqn:E; [|discriminate].
  intros H. injection H as <- _.
  unfold no_colon. cbn [all_chars]. rewrite andb_true_r.
  destruct c as [[] [] [] [] [] [] [] []]; try reflexivity; discriminate E.
Qed.

Lemma seq_inv m1 m2 s t r :
  seq m1 m2 s = Some (t, r) ->
  exists t1 r1 t2, m1 s = Some (t1, r1) /\ m2 r1 = Some (t2, r) /\ t = (t1 ++ t2)%string.
Proof.
  unfold seq. destruct (m1 s) as [[t1 r1]|]; [|discriminate].
  destruct (m2 r1) as [[t2 r2]|] eqn:E; [|discriminate].
  intros H. injection H as <- <-. exists t1, r1, t2. auto.
Qed.

Lemma geometry_inv name s t r :
  no_colon name = true -> geometry name s = Some (t, r) -> geometry_shape t.
Proof.
  intros Hn H. unfold geometry in H.
  apply seq_inv in H as (t1 & r1 & u1 & H1 & H & ->).
  apply seq_inv in H as (c1 & r2 & u2 & C1 & H & ->).
  apply seq_inv in H as (d1 & r3 & u3 & D1 & H & ->).
  apply seq_inv in H as (c2 & r4 & u4 & C2 & H & ->).
  apply seq_inv in H as (d2 & r5 & u5 & D2 & H & ->).
  apply seq_inv in H as (c3 & r6 & u6 & C3 & H & ->).
  apply seq_inv in H as (d3 & r7 & u7 & D3 & H & ->).
  apply seq_inv in H as (c4 & r8 & p & C4 & H & ->).
  apply colon_inv in C1, C2, C3, C4. subst.
  exists t1, d1, d2, d3, p.
  split; [reflexivity|].
  split; [eapply literal_ci_no_colon; eassumption|].
  split; [eapply policy_inv; eassumption|].
  repeat split; eapply digits1_inv; eassumption.
Qed.

Lemma CFG_RE_match_shape s t : CFG_RE_match s = Some t -> geometry_shape t.
Proof.
  unfold CFG_RE_match.
  destruct (geometry "dl1" s) as [[t1 r1]|] eqn:E1.
  - intros H. injection H as <-. eapply geometry_inv; [|exact E1]. reflexivity.
  - destruct (geometry "ul2" s) as [[t2 r2]|] eqn:E2; [|discriminate].
    intros H. injection H as <-. eapply geometry_inv; [|exact E2]. reflexivity.
Qed.

Lemma finditer_from_shape s : forall skip t,
  In t (finditer_from skip s) -> geometry_shape t.
Proof.
  induction s as [|c s IH]; intros skip t H; [contradiction|].
  cbn [finditer_from] in H. destruct skip as [|k]; [|eapply IH; exact H].
  destruct (CFG_RE_match (String c s)) as [m|] eqn:E; [|eapply IH; exact H].
  destruct H as [<-|H]; [eapply CFG_RE_match_shape; exact E | eapply IH; exact H].
Qed.

Lemma geometry_shape_lower t : geometry_shape t -> geometry_shape (lower t).
Proof.
  intros (name & d1 & d2 & d3 & p & -> & Hn & Hp & H1 & H2 & H3).
  exists (lower name), d1, d2, d3, (lower p).
  rewrite !lower_app. change (lower ":") with ":".
  rewrite (digits_lower d1), (digits_lower d2), (digits_lower d3) by tauto.
  rewrite !no_colon_lower. tauto.
Qed.

Lemma split_no_colon a : no_colon a = true -> split ":" a = [a].
Proof.
  induction a as [|c a IH]; [reflexivity|].
  unfold no_colon. cbn [all_chars split]. intros H. apply andb_prop in H as [Hc Ha].
  apply negb_true_iff in Hc. rewrite Hc, (IH Ha). reflexivity.
Qed.

Lemma split_app_colon a rest :
  no_colon a = true ->
  split ":" (a ++ String ":" rest)%string = a :: split ":" rest.
Proof.
  induction a as [|c a IH]; [reflexivity|].
  unfold no_colon. cbn [all_chars]. intros H. apply andb_prop in H as [Hc Ha].
  apply negb_true_iff in Hc.
  change (String c a ++ String ":" rest)%string with (String c (a ++ String ":" rest)).
  cbn [split]. rewrite Hc, (IH Ha). reflexivity.
Qed.

Lemma digits_value_nonneg d : forall acc,
  (0 <= acc)%Z -> all_chars is_digit d = true -> (0 <= digits_value acc d)%Z.
Proof.
  induction d as [|c d IH]; intros acc Ha H; [exact Ha|].
  cbn [all_chars] in H. apply andb_prop in H as [Hc Hd].
  cbn [digits_value]. apply IH; [|exact Hd].
  unfold is_digit, in_range in Hc. unfold digit_val. lia.
Qed.

Lemma int_of_str_digits d :
  d <> "" -> all_chars is_digit d = true -> int_of_str d = Some (digits_value 0 d).
Proof.
  intros Hne Hd. unfold int_of_str, strip_by.
  rewrite (digits_rstrip _ Hd), (digits_lstrip _ Hd), (digits_drop_underscores _ None Hne Hd).
  destruct d as [|c d]; [contradiction|].
  assert (split_sign (String c d) = (false, String c d)) as ->.
  { cbn [all_chars] in Hd. apply andb_prop in Hd as [Hc _].
    destruct c as [[] [] [] [] [] [] [] []]; try reflexivity; discriminate Hc. }
  rewrite Hd. reflexivity.
Qed.

Lemma last_where_In p l t : last_where p l = Some t -> In t l /\ p t = true.
Proof.
  induction l as [|x l IH]; [discriminate|]. cbn [last_where].
  destruct (last_where p l) as [y|].
  - intros H. injection H as ->. destruct (IH eq_refl). split; [right|]; assumption.
  - destruct (p x) eqn:E; [|discriminate].
    intros H. injection H as <-. split; [left; reflexivity | exact E].
Qed.

Lemma or_else_None {A : Type} (a : option A) : or_else a None = a.
Proof. destruct a; reflexivity. Qed.

Lemma parse_cache_cfg_shape config_str t :
  fst (NormalizeData.parse_cache_cfg config_str) = Some t
  \/ snd (NormalizeData.parse_cache_cfg config_str) = Some t ->
  geometry_shape t /\ lower t = t.
Proof.
  unfold NormalizeData.parse_cache_cfg. rewrite parse_cache_cfg_fold, !or_else_None.
  cbn [fst snd]. intros [H|H]; apply last_where_In in H as [H _];
    apply in_map_iff in H as (m & <- & H);
    (split; [apply geometry_shape_lower; eapply finditer_from_shape; exact H
            | apply lower_idem]).
Qed.

(** X7: a cache configuration that [parse_cache_cfg] returns is in
    lower case and has five fields between colons, of which the second
    to the fourth are natural numbers: [cache_bytes] is the float of their
    product (NaN only when the product is too large for a float). *)
Theorem parsed_config_has_capacity :
  forall (config_str : option string) (t : string),
    fst (NormalizeData.parse_cache_cfg config_str) = Some t
    \/ snd (NormalizeData.parse_cache_cfg config_str) = Some t ->
    lower t = t
    /\ List.length (split ":" t) = 5%nat
    /\ exists nsets bsize assoc : Z,
         (0 <= nsets /\ 0 <= bsize /\ 0 <= assoc)%Z
         /\ int_of_str (nth 1 (split ":" t) "") = Some nsets
         /\ int_of_str (nth 2 (split ":" t) "") = Some bsize
         /\ int_of_str (nth 3 (split ":" t) "") = Some assoc
         /\ NormalizeData.cache_bytes (Some t)
            = match float_of_int (nsets * bsize * assoc) with
              | Some f => f
              | None => nan
              end.
Proof.
  intros config_str t H. apply parse_cache_cfg_shape in H as [H Hl].
  split; [exact Hl|]. clear Hl.
  destruct H as (name & d1 & d2 & d3 & p & -> & Hn & Hp & [N1 D1] & [N2 D2] & [N3 D3]).
  assert (split ":" (name ++ ":" ++ d1 ++ ":" ++ d2 ++ ":" ++ d3 ++ ":" ++ p)%string
          = [name; d1; d2; d3; p]) as Hs.
  { cbn [append].
    rewrite (split_app_colon _ _ Hn).
    rewrite (split_app_colon _ _ (digits_no_colon _ D1)).
    rewrite (split_app_colon _ _ (digits_no_colon _ D2)).
    rewrite (split_app_colon _ _ (digits_no_colon _ D3)).
    rewrite (split_no_colon _ Hp). reflexivity. }
  split; [rewrite Hs; reflexivity|].
  exists (digits_value 0 d1), (digits_value 0 d2), (digits_value 0 d3).
  split; [repeat split; apply digits_value_nonneg; auto; lia|].
  unfold NormalizeData.cache_bytes. rewrite Hs. cbn [nth List.length Nat.ltb Nat.leb].
  rewrite (int_of_str_digits _ N1 D1), (int_of_str_digits _ N2 D2), (int_of_str_digits _ N3 D3).
  repeat split.
  destruct (name ++ ":" ++ d1 ++ ":" ++ d2 ++ ":" ++ d3 ++ ":" ++ p)%string eqn:E; [|reflexivity].
  destruct name; discriminate E.
Qed.

Lemma parsed_config_capacity_witness :
  fst (NormalizeData.parse_cache_cfg (Some Inputs.mixed_case_tag)) = Some "dl1:1024:32:1:l"
  /\ lower "dl1:1024:32:1:l" = "dl1:1024:32:1:l"
  /\ List.length (split ":" "dl1:1024:32:1:l") = 5%nat
  /\ exists nsets bsize assoc : Z,
       (0 <= nsets /\ 0 <= bsize /\ 0 <= assoc)%Z
       /\ int_of_str (nth 1 (split ":" "dl1:1024:32:1:l") "") = Some nsets
       /\ int_of_str (nth 2 (split ":" "dl1:1024:32:1:l") "") = Some bsize
       /\ int_of_str (nth 3 (split ":" "dl1:1024:32:1:l") "") = Some assoc
       /\ NormalizeData.cache_bytes (Some "dl1:1024:32:1:l")
          = match float_of_int (nsets * bsize * assoc) with
            | Some f => f
            | None => nan
            end.
Proof.
  split; [reflexivity|].
  apply (parsed_config_has_capacity (Some Inputs.mixed_case_tag)).
  left. reflexivity.
Defined.

(** ** The collector *)

Lemma int_of_float_raises x e :
  int_of_float x = Raise e <->
  (is_nan x = true /\ e = ValueError) \/ (is_infinity x = true /\ e = OverflowError).
Proof.
  rewrite is_nan_Prim2SF, is_infinity_Prim2SF. unfold int_of_float.
  destruct (Prim2SF x) as [s|s| |s m ex]; split; intros H;
    try discriminate;
    try (destruct H as [[H _]|[[s' H] _]]; discriminate).
  - injection H as <-. right. eauto.
  - destruct H as [[H _]|[_ ->]]; [discriminate | reflexivity].
  - injection H as <-. left. auto.
  - destruct H as [[_ ->]|[[s' H] _]]; [reflexivity | discriminate].
Qed.

Lemma field_strip row name : strip (Summarize.field row name) = Summarize.field row name.
Proof. unfold Summarize.field. apply strip_idem. Qed.

(** X8: the collector raises on a row exactly when the row is kept (it
    has a benchmark that is not the header's), one of the two level-2
    access fields is not empty, and their float sum is NaN (ValueError)
    or infinite (OverflowError). *)
Theorem summarize_row_raises :
  forall (cfg csv_path : string) (row : Summarize.csv_row) (e : exn),
    let bench := Summarize.field row "benchmark" in
    let d := Summarize.field row "ul2_d_accesses" in
    let i := Summarize.field row "ul2_i_accesses" in
    let total := (Summarize.or_zero (Summarize.safe_float (Some d))
                  + Summarize.or_zero (Summarize.safe_float (Some i)))%float in
    Summarize.summarize_row cfg csv_path row = Raise e <->
    (bench <> "" /\ lower bench <> "benchmark")
    /\ (d <> "" \/ i <> "")
    /\ ((is_nan total = true /\ e = ValueError)
        \/ (is_infinity total = true /\ e = OverflowError)).
Proof.
  intros cfg csv_path row e bench d i total.
  unfold Summarize.summarize_row. fold bench d i.
  destruct (String.eqb bench "") eqn:Eb.
  { cbn [orb]. apply String.eqb_eq in Eb. split; [discriminate | tauto]. }
  destruct (String.eqb (lower bench) "benchmark") eqn:Eh.
  { cbn [orb]. apply String.eqb_eq in Eh. split; [discriminate | tauto]. }
  cbn [orb]. apply String.eqb_neq in Eb, Eh.
  unfold Summarize.ul2_total_of. fold total.
  unfold d at 2, i at 2. rewrite !field_strip. fold d i.
  rewrite !andb_diag.
  destruct (String.eqb_spec d "") as [Ed|Ed];
    destruct (String.eqb_spec i "") as [Ei|Ei]; cbn [negb orb].
  1: split; [discriminate | tauto].
  all: destruct (int_of_float total) as [n|e'] eqn:En.
  all: cbv beta iota.
  all: try (split; [discriminate|];
            intros (_ & _ & H); apply (proj2 (int_of_float_raises _ _)) in H; congruence).
  all: apply (proj1 (int_of_float_raises _ _)) in En.
  all: split; [intros H; injection H as <-; tauto|].
  all: intros (_ & _ & H); f_equal.
  all: destruct En as [[N1 ->]|[I1 ->]], H as [[N2 ->]|[I2 ->]]; try reflexivity.
  all: exfalso.
  all: apply is_nan_Prim2SF in N1 || apply is_nan_Prim2SF in N2.
  all: apply is_infinity_Prim2SF in I1 as [s I1] || apply is_infinity_Prim2SF in I2 as [s I2].
  all: congruence.
Qed.

Lemma summarize_rows_ok f rs : forall acc,
  existsb (raises f) rs = false ->
  Summarize.summarize_rows (Summarize.top_directory f) (Summarize.path f) rs acc
  = Ok (acc ++ kept_rows {| Summarize.path := Summarize.path f;
                            Summarize.top_directory := Summarize.top_directory f;
                            Summarize.rows := rs |}).
Proof.
  unfold kept_rows. cbn [Summarize.path Summarize.top_directory Summarize.rows].
  induction rs as [|row rs IH]; intros acc H.
  - simpl. rewrite app_nil_r. reflexivity.
  - cbn [existsb] in H. apply orb_false_iff in H as [Hr H].
    cbn [Summarize.summarize_rows flat_map]. unfold raises in Hr.
    destruct (Summarize.summarize_row _ _ row) as [[r|]|e]; [| |discriminate].
    + rewrite (IH _ H), <- app_assoc. reflexivity.
    + apply (IH _ H).
Qed.

Lemma summarize_rows_raise f rs : forall acc,
  existsb (raises f) rs = true ->
  exists e, Summarize.summarize_rows (Summarize.top_directory f) (Summarize.path f) rs acc
            = Raise e.
Proof.
  induction rs as [|row rs IH]; intros acc H; [discriminate|].
  cbn [existsb] in H. cbn [Summarize.summarize_rows]. unfold raises in H at 1.
  destruct (Summarize.summarize_row _ _ row) as [[r|]|e]; eauto.
Qed.

Lemma kept_rows_eta f :
  kept_rows {| Summarize.path := Summarize.path f;
               Summarize.top_directory := Summarize.top_directory f;
               Summarize.rows := Summarize.rows f |} = kept_rows f.
Proof. destruct f. reflexivity. Qed.

Lemma summarize_files_ok files : forall acc,
  existsb (fun f => existsb (raises f) (Summarize.rows f)) (scanned files) = false ->
  Summarize.summarize_files files acc = Ok (acc ++ flat_map kept_rows (scanned files)).
Proof.
  induction files as [|f files IH]; intros acc H.
  - simpl. rewrite app_nil_r. reflexivity.
  - cbn [Summarize.summarize_files scanned filter] in *.
    destruct (String.eqb (Summarize.path f) Summarize.SUMMARY_PATH); cbn [negb] in *.
    + apply (IH _ H).
    + cbn [existsb flat_map] in *. apply orb_false_iff in H as [Hf H].
      rewrite (summarize_rows_ok f _ _ Hf), kept_rows_eta, (IH _ H), <- app_assoc.
      reflexivity.
Qed.

Lemma summarize_files_raise files : forall acc,
  existsb (fun f => existsb (raises f) (Summarize.rows f)) (scanned files) = true ->
  exists e, Summarize.summarize_files files acc = Raise e.
Proof.
  induction files as [|f files IH]; intros acc H; [discriminate|].
  cbn [Summarize.summarize_files scanned filter] in *.
  destruct (String.eqb (Summarize.path f) Summarize.SUMMARY_PATH); cbn [negb] in *.
  - apply (IH _ H).
  - cbn [existsb] in H.
    destruct (existsb (raises f) (Summarize.rows f)) eqn:Hf.
    + destruct (summarize_rows_raise f _ acc Hf) as [e ->]. eauto.
    + rewrite (summarize_rows_ok f _ _ Hf). apply IH, H.
Qed.

Lemma main_ok_rows files out :
  Summarize.main files = Ok out -> out = flat_map kept_rows (scanned files).
Proof.
  unfold Summarize.main. intros H.
  destruct (existsb (fun f => existsb (raises f) (Summarize.rows f)) (scanned files)) eqn:E.
  - destruct (summarize_files_raise files [] E) as [e He]. congruence.
  - rewrite (summarize_files_ok files [] E) in H. injection H as <-. reflexivity.
Qed.

(** X9: the scan is all or nothing. When [int] raises on a row of a
    file that is walked, [main] raises and no summary is written;
    otherwise the summary has the kept rows of the walked files, in the
    order of the walk and of the rows, and nothing from the summary of
    an earlier scan. *)
Theorem collector_all_or_nothing :
  forall files : list Summarize.csv_file,
    let some_row_raises :=
      exists f row, In f (scanned files) /\ In row (Summarize.rows f)
                    /\ raises f row = true in
    (some_row_raises <-> exists e, Summarize.main files = Raise e)
    /\ (~ some_row_raises <->
        Summarize.main files = Ok (flat_map kept_rows (scanned files))).
Proof.
  intros files some_row_raises. unfold Summarize.main.
  destruct (existsb (fun f => existsb (raises f) (Summarize.rows f)) (scanned files)) eqn:E.
  - assert some_row_raises as Hr.
    { apply existsb_exists in E as (f & Hf & E).
      apply existsb_exists in E as (row & Hrow & E). exists f, row. auto. }
    destruct (summarize_files_raise files [] E) as [e He].
    split; split; intros H; eauto; try contradiction.
    rewrite He in H. discriminate.
  - assert (~ some_row_raises) as Hr.
    { intros (f & row & Hf & Hrow & Hx).
      assert (existsb (fun f => existsb (raises f) (Summarize.rows f)) (scanned files) = true).
      { apply existsb_exists. exists f. split; [exact Hf|].
        apply existsb_exists. exists row. auto. }
      congruence. }
    pose proof (summarize_files_ok files [] E) as Hok. cbn [app] in Hok.
    split; split; intros H; auto; try contradiction.
    destruct H as [e H]. rewrite Hok in H. discriminate.
Qed.

(** X10: every row of the summary comes from a file of the walk other
    than the summary itself, carries that file's path and top directory,
    has a benchmark that is neither empty nor the header's, and its
    copied fields have no blanks around them. *)
Theorem summary_rows_invariant :
  forall (files : list Summarize.csv_file) (out : list Summarize.summary_row)
         (r : Summarize.summary_row),
    Summarize.main files = Ok out ->
    In r out ->
    (exists f, In f files
               /\ Summarize.source_csv r = Summarize.path f
               /\ Summarize.config r = Summarize.top_directory f)
    /\ Summarize.source_csv r <> Summarize.SUMMARY_PATH
    /\ Summarize.benchmark r <> ""
    /\ lower (Summarize.benchmark r) <> "benchmark"
    /\ Forall (fun s => strip s = s)
         [ Summarize.benchmark r; Summarize.mode r; Summarize.il1_miss_rate r;
           Summarize.dl1_miss_rate r; Summarize.ul2_miss_rate r;
           Summarize.sim_num_insn r; Summarize.sim_elapsed_time r; Summarize.sim_CPI r;
           Summarize.vc_lookups r; Summarize.vc_hits r; Summarize.mc_lookups r;
           Summarize.mc_hits r; Summarize.sb_lookups r; Summarize.sb_hits r;
           Summarize.sb_prefetches r; Summarize.ul2_d_accesses r;
           Summarize.ul2_i_accesses r ].
Proof.
  intros files out r Hm Hr. apply main_ok_rows in Hm. subst out.
  apply in_flat_map in Hr as (f & Hf & Hr).
  apply filter_In in Hf as [Hf Hp]. apply negb_true_iff, String.eqb_neq in Hp.
  unfold kept_rows in Hr. apply in_flat_map in Hr as (row & Hrow & Hr).
  unfold Summarize.summarize_row in Hr.
  destruct (String.eqb (Summarize.field row "benchmark") "") eqn:Eb; [contradiction|].
  destruct (String.eqb (lower (Summarize.field row "benchmark")) "benchmark") eqn:Eh;
    [contradiction|].
  cbn [orb] in Hr. apply String.eqb_neq in Eb, Eh.
  destruct (Summarize.ul2_total_of _ _) as [total|e]; [|contradiction].
  destruct Hr as [<-|[]].
  cbn [Summarize.source_csv Summarize.config Summarize.benchmark Summarize.mode
       Summarize.il1_miss_rate Summarize.dl1_miss_rate Summarize.ul2_miss_rate
       Summarize.sim_num_insn Summarize.sim_elapsed_time Summarize.sim_CPI
       Summarize.vc_lookups Summarize.vc_hits Summarize.mc_lookups Summarize.mc_hits
       Summarize.sb_lookups Summarize.sb_hits Summarize.sb_prefetches
       Summarize.ul2_d_accesses Summarize.ul2_i_accesses].
  split; [exists f; auto|].
  split; [exact Hp|]. split; [exact Eb|]. split; [exact Eh|].
  repeat (constructor; [apply field_strip|]). constructor.
Qed.

Lemma summary_rows_witness :
  exists out r,
    Summarize.main Inputs.result_files = Ok out
    /\ In r out
    /\ List.length out = 2%nat
    /\ (exists f, In f Inputs.result_files
                  /\ Summarize.source_csv r = Summarize.path f
                  /\ Summarize.config r = Summarize.top_directory f)
    /\ Summarize.source_csv r <> Summarize.SUMMARY_PATH
    /\ Summarize.benchmark r <> ""
    /\ lower (Summarize.benchmark r) <> "benchmark".
Proof.
  assert (exists out, Summarize.main Inputs.result_files = Ok out
                      /\ List.length out = 2%nat) as (out & E & L).
  { eexists. split; [vm_compute; reflexivity | reflexivity]. }
  destruct out as [|r out]; [discriminate L|].
  exists (r :: out), r.
  destruct (summary_rows_invariant Inputs.result_files (r :: out) r E (or_introl eq_refl))
    as (H1 & H2 & H3 & H4 & _).
  split; [exact E|]. split; [left; reflexivity|].
  split; [exact L|].
  auto.
Defined.

(** ** The rows the charts are drawn from *)

Lemma unique_In x l : In x (unique l) <-> In x l.
Proof.
  induction l as [|y l IH]; [tauto|]. cbn [unique]. split.
  - intros [->|H]; [left; reflexivity|]. apply filter_In in H as [H _]. right. tauto.
  - intros [->|H]; [left; reflexivity|].
    destruct (String.eqb_spec x y) as [->|N]; [left; reflexivity|].
    right. apply filter_In. split; [tauto|].
    apply negb_true_iff, String.eqb_neq, N.
Qed.

Lemma NoDup_filter {A : Type} (p : A -> bool) l : NoDup l -> NoDup (filter p l).
Proof.
  induction 1 as [|x l Hx Hl IH]; [constructor|]. cbn [filter].
  destruct (p x); [|exact IH]. constructor; [|exact IH].
  intros H. apply filter_In in H as [H _]. contradiction.
Qed.

Lemma unique_NoDup l : NoDup (unique l).
Proof.
  induction l as [|y l IH]; [constructor|]. cbn [unique]. constructor.
  - intros H. apply filter_In in H as [_ H]. rewrite String.eqb_refl in H. discriminate.
  - apply NoDup_filter, IH.
Qed.

Lemma insert_sorted_perm x l : Permutation (insert_sorted x l) (x :: l).
Proof.
  induction l as [|y l IH]; [reflexivity|]. cbn [insert_sorted].
  destruct (String.leb x y); [reflexivity|].
  rewrite IH. apply perm_swap.
Qed.

Lemma sorted_perm l : Permutation (sorted l) l.
Proof.
  induction l as [|x l IH]; [reflexivity|]. unfold sorted in *. cbn [fold_right].
  rewrite insert_sorted_perm, IH. reflexivity.
Qed.

Section Partition.

Context {A : Type}.
Variable label : A -> string.
Variable keep : A -> bool.

Lemma filter_disjoint_app (p q : A -> bool) l :
  (forall x, p x = true -> q x = false) ->
  Permutation (filter p l ++ filter q l) (filter (fun x => p x || q x) l).
Proof.
  intros D. induction l as [|x l IH]; [reflexivity|]. cbn [filter].
  destruct (p x) eqn:Ep.
  - rewrite (D x Ep). cbn [orb app]. constructor. exact IH.
  - cbn [orb]. destruct (q x); [|exact IH].
    rewrite <- Permutation_middle. constructor. exact IH.
Qed.

(** The rows kept under each of a list of distinct labels, one label
    after the other, are the rows kept under any of them. *)
Lemma flat_map_by_label labels l :
  NoDup labels ->
  Permutation
    (flat_map (fun m => filter (fun x => String.eqb (label x) m && keep x) l) labels)
    (filter (fun x => existsb (String.eqb (label x)) labels && keep x) l).
Proof.
  induction 1 as [|m labels Hm Hl IH].
  - cbn [flat_map existsb]. induction l as [|x l IHl]; [reflexivity | exact IHl].
  - cbn [flat_map]. rewrite IH, filter_disjoint_app.
    + erewrite filter_ext; [reflexivity|]. intros x. cbn [existsb].
      destruct (String.eqb (label x) m), (existsb (String.eqb (label x)) labels), (keep x);
        reflexivity.
    + intros x Hx. apply andb_prop in Hx as [Hx _]. apply String.eqb_eq in Hx.
      destruct (existsb (String.eqb (label x)) labels) eqn:E; [|reflexivity].
      apply existsb_exists in E as (m' & Hin & E). apply String.eqb_eq in E.
      subst. contradiction.
Qed.

End Partition.

Lemma filter_true {A : Type} (l : list A) : filter (fun _ => true) l = l.
Proof. induction l as [|x l IH]; [reflexivity|]. cbn [filter]. rewrite IH. reflexivity. Qed.

Lemma filter_ref_knobs_for_mode_spec df m :
  NormalizeAndPlot.filter_ref_knobs_for_mode df m
  = filter (fun r => String.eqb (mode (row_of r)) m && at_reference_knobs r) df.
Proof.
  unfold NormalizeAndPlot.filter_ref_knobs_for_mode.
  assert (forall c : norm_row -> bool,
            (forall r, String.eqb (mode (row_of r)) m = true -> at_reference_knobs r = c r) ->
            filter c (filter (fun r => String.eqb (mode (row_of r)) m) df)
            = filter (fun r => String.eqb (mode (row_of r)) m && at_reference_knobs r) df) as F.
  { intros c Hc. rewrite filter_andb. apply filter_ext. intros r.
    destruct (String.eqb (mode (row_of r)) m) eqn:E; [|reflexivity].
    rewrite (Hc r E). reflexivity. }
  pose proof (filter_true (filter (fun r => String.eqb (mode (row_of r)) m) df)) as G.
  destruct (String.eqb_spec m "baseline") as [->|N0].
  { rewrite <- G. apply F. intros r E. apply String.eqb_eq in E.
    unfold at_reference_knobs. rewrite E. reflexivity. }
  destruct (String.eqb_spec m "victim") as [->|N1].
  { apply F. intros r E. apply String.eqb_eq in E.
    unfold at_reference_knobs. rewrite E. reflexivity. }
  destruct (String.eqb_spec m "miss") as [->|N2].
  { apply F. intros r E. apply String.eqb_eq in E.
    unfold at_reference_knobs. rewrite E. reflexivity. }
  destruct (String.eqb_spec m "stream") as [->|N3].
  { apply F. intros r E. apply String.eqb_eq in E.
    unfold at_reference_knobs. rewrite E. reflexivity. }
  destruct (String.eqb_spec m "victim_stream") as [->|N4].
  { apply F. intros r E. apply String.eqb_eq in E.
    unfold at_reference_knobs. rewrite E. reflexivity. }
  destruct (String.eqb_spec m "miss_stream") as [->|N5].
  { apply F. intros r E. apply String.eqb_eq in E.
    unfold at_reference_knobs. rewrite E. reflexivity. }
  rewrite <- G. apply F. intros r E. apply String.eqb_eq in E.
  unfold at_reference_knobs. rewrite E.
  apply String.eqb_neq in N1, N2, N3, N4, N5. rewrite N1, N2, N3, N4, N5. reflexivity.
Qed.

Lemma concat_map_flat_map {A B : Type} (f : A -> list B) l :
  match map f l with [] => [] | _ => List.concat (map f l) end = flat_map f l.
Proof. rewrite flat_map_concat_map. destruct (map f l); reflexivity. Qed.

Lemma filter_ref_knobs_all_modes_by_mode df :
  NormalizeAndPlot.filter_ref_knobs_all_modes df
  = flat_map
      (fun m => filter (fun r => String.eqb (mode (row_of r)) m && at_reference_knobs r) df)
      (sorted (unique (map (fun r => mode (row_of r)) df))).
Proof.
  unfold NormalizeAndPlot.filter_ref_knobs_all_modes. cbv zeta.
  rewrite concat_map_flat_map. apply flat_map_ext. intros m.
  apply filter_ref_knobs_for_mode_spec.
Qed.

Lemma filter_ref_knobs_all_modes_perm df :
  Permutation (NormalizeAndPlot.filter_ref_knobs_all_modes df)
    (filter at_reference_knobs df).
Proof.
  rewrite filter_ref_knobs_all_modes_by_mode.
  rewrite (flat_map_by_label (fun r => mode (row_of r)) at_reference_knobs).
  - erewrite filter_ext_in; [reflexivity|]. intros r Hr. cbv beta.
    replace (existsb _ _) with true; [reflexivity|]. symmetry.
    apply existsb_exists. exists (mode (row_of r)). split; [|apply String.eqb_refl].
    apply (Permutation_in _ (Permutation_sym (sorted_perm _))).
    apply unique_In, in_map_iff. eauto.
  - apply (Permutation_NoDup (Permutation_sym (sorted_perm _))), unique_NoDup.
Qed.

Lemma filter_ref_knobs_all_modes_In df r :
  In r (NormalizeAndPlot.filter_ref_knobs_all_modes df) <->
  In r df /\ at_reference_knobs r = true.
Proof.
  rewrite <- filter_In. split; apply Permutation_in;
    [|apply Permutation_sym]; apply filter_ref_knobs_all_modes_perm.
Qed.

(** X11: [filter_ref_knobs_all_modes] returns the rows whose knobs are
    at the reference values for their mode, each as often as in the
    input: mode after mode in the order of the mode names, and in input
    order within a mode. *)
Theorem filter_ref_knobs_all_modes_keeps_reference_rows :
  forall df : list norm_row,
    NormalizeAndPlot.filter_ref_knobs_all_modes df
    = flat_map
        (fun m => filter (fun r => String.eqb (mode (row_of r)) m && at_reference_knobs r) df)
        (sorted (unique (map (fun r => mode (row_of r)) df)))
    /\ Permutation (NormalizeAndPlot.filter_ref_knobs_all_modes df)
         (filter at_reference_knobs df).
Proof.
  intros df. split;
    [apply filter_ref_knobs_all_modes_by_mode | apply filter_ref_knobs_all_modes_perm].
Qed.

Lemma by_benchmark_drawn l r :
  drawn_in (NormalizeAndPlot.by_benchmark l) r <->
  In r l /\ benchmark (row_of r) <> None.
Proof.
  unfold drawn_in, NormalizeAndPlot.by_benchmark. split.
  - intros (t & Ht & Hr). apply in_map_iff in Ht as ([k g] & E & Hg).
    cbn [snd] in E. subst g.
    destruct (groupby_rows label_eqb label_leb _ label_eqb_eq _ _ _ r Hg Hr) as [Hin _].
    apply filter_In in Hin as [Hin Hb]. split; [exact Hin|].
    destruct (benchmark (row_of r)); [discriminate | discriminate Hb].
  - intros [Hin Hb].
    set (rows := filter (fun r => match benchmark (row_of r) with
                                  | Some _ => true | None => false end) l).
    assert (In r rows) as Hr.
    { apply filter_In. split; [exact Hin|]. destruct (benchmark (row_of r)); tauto. }
    set (key := fun r : norm_row => benchmark (row_of r)).
    set (g := rows_with_key label_eqb key (key r) rows).
    assert (In r g) as Hg.
    { apply filter_In. split; [exact Hr|]. apply label_eqb_eq. reflexivity. }
    exists g. split; [|exact Hg].
    apply in_map_iff. exists (key r, g). split; [reflexivity|].
    apply (groupby_spec label_eqb label_leb key label_eqb_eq). split; [reflexivity|].
    intros E. rewrite E in Hg. contradiction.
Qed.

Lemma by_benchmark_shared l t :
  In t (NormalizeAndPlot.by_benchmark l) ->
  exists b, forall r, In r t -> benchmark (row_of r) = Some b.
Proof.
  unfold NormalizeAndPlot.by_benchmark. intros Ht.
  apply in_map_iff in Ht as ([k g] & E & Hg). cbn [snd] in E. subst g.
  assert (forall r, In r t -> In r l /\ benchmark (row_of r) = k
                               /\ benchmark (row_of r) <> None) as H.
  { intros r Hr.
    destruct (groupby_rows label_eqb label_leb _ label_eqb_eq _ _ _ r Hg Hr) as [Hin Hk].
    apply filter_In in Hin as [Hin Hb]. repeat split; auto.
    destruct (benchmark (row_of r)); [discriminate | discriminate Hb]. }
  apply (groupby_spec label_eqb label_leb _ label_eqb_eq) in Hg as [_ Hne].
  destruct t as [|r0 t]; [contradiction|].
  destruct (H r0 (or_introl eq_refl)) as (_ & Hk & Hb).
  destruct k as [b|]; [|contradiction].
  exists b. intros r Hr. apply H, Hr.
Qed.

Lemma at_reference_In norm r :
  In r (NormalizeAndPlot.at_reference norm) <-> In r norm /\ at_reference_point r.
Proof.
  unfold NormalizeAndPlot.at_reference, at_reference_point.
  rewrite filter_In, andb_true_iff, !label_eqb_eq. tauto.
Qed.

Ltac row_conditions :=
  repeat first
    [ rewrite in_app_iff | rewrite filter_In | rewrite at_reference_In
    | rewrite andb_true_iff | rewrite orb_true_iff | rewrite String.eqb_eq ].

(** X12: the rows of the three knob sweeps (charts 3 to 5). A row is
    drawn in the sweep of the victim-cache entries exactly when it is a
    row of the table with a benchmark, at the reference cache point, of
    mode [victim], or of mode [victim_stream] with the reference stream
    depth; likewise for the miss cache; and for the sweep of the stream
    depth the companion knob is the one held at its reference. Every
    table of a sweep holds the rows of one benchmark. *)
Theorem knob_sweep_rows :
  forall (norm : list norm_row) (r : norm_row),
    let m := mode (row_of r) in
    let vc4 := (vc_entries (row_of r) =? NormalizeAndPlot.REF_VC)%float = true in
    let mc4 := (mc_entries (row_of r) =? NormalizeAndPlot.REF_MC)%float = true in
    let d4 := (sb_depth (row_of r) =? NormalizeAndPlot.REF_SB_DEPTH)%float = true in
    (drawn_in (NormalizeAndPlot.vc_tables norm) r <->
       sweepable norm r /\ (m = "victim" \/ (m = "victim_stream" /\ d4)))
    /\ (drawn_in (NormalizeAndPlot.mc_tables norm) r <->
          sweepable norm r /\ (m = "miss" \/ (m = "miss_stream" /\ d4)))
    /\ (drawn_in (NormalizeAndPlot.sb_tables norm) r <->
          sweepable norm r
          /\ (m = "stream" \/ (m = "victim_stream" /\ vc4) \/ (m = "miss_stream" /\ mc4)))
    /\ (forall t,
          In t (NormalizeAndPlot.vc_tables norm ++ NormalizeAndPlot.mc_tables norm
                ++ NormalizeAndPlot.sb_tables norm) ->
          exists b, forall r', In r' t -> benchmark (row_of r') = Some b).
Proof.
  intros norm r m vc4 mc4 d4. unfold sweepable.
  rewrite <- !and_assoc. split.
  - unfold NormalizeAndPlot.vc_tables, NormalizeAndPlot.mc_tables, NormalizeAndPlot.sb_tables.
    cbv zeta. rewrite !by_benchmark_drawn. unfold isin. cbn [existsb].
    row_conditions. fold m. unfold vc4, mc4, d4. tauto.
  - intros t Ht. rewrite !in_app_iff in Ht.
    destruct Ht as [Ht|[Ht|Ht]]; eapply by_benchmark_shared; exact Ht.
Qed.

(** X13: the rows of the size sweeps (charts 1 and 7) and of the bars
    (charts 2 and 8). A row is drawn in a size sweep exactly when it has
    a level-2 configuration and its knobs are at the reference values for
    its mode, and every table of the sweep holds the rows of one
    benchmark and one level-2 configuration; the bars are drawn from the
    rows at the reference cache point whose knobs are at the reference
    values. *)
Theorem size_sweep_and_reference_rows :
  forall (norm : list norm_row) (r : norm_row),
    (drawn_in (NormalizeAndPlot.size_sweep_tables norm) r <->
       In r norm /\ ul2_cfg (row_of r) <> None /\ at_reference_knobs r = true)
    /\ (In r (NormalizeAndPlot.reference_table norm) <->
          In r norm /\ at_reference_point r /\ at_reference_knobs r = true)
    /\ (forall t,
          In t (NormalizeAndPlot.size_sweep_tables norm) ->
          exists b u, forall r', In r' t ->
                        benchmark (row_of r') = b /\ ul2_cfg (row_of r') = Some u).
Proof.
  intros norm r.
  set (key := fun r : norm_row => (benchmark (row_of r), ul2_cfg (row_of r))).
  assert (forall t,
             In t (NormalizeAndPlot.size_sweep_tables norm) <->
             exists b u rows,
               In ((b, Some u), rows)
                  (groupby NormalizeAndPlot.pair_eqb NormalizeAndPlot.pair_leb key norm)
               /\ t = NormalizeAndPlot.filter_ref_knobs_all_modes rows) as Ht.
  { intros t. unfold NormalizeAndPlot.size_sweep_tables. rewrite in_flat_map. split.
    - intros ([[b u] rows] & Hg & Hin). cbn [fst snd] in Hin.
      destruct u as [u|]; [|contradiction]. destruct Hin as [<-|[]]. eauto.
    - intros (b & u & rows & Hg & ->). exists ((b, Some u), rows).
      split; [exact Hg | left; reflexivity]. }
  split; [|split].
  - unfold drawn_in. split.
    + intros (t & Hin & Hr). apply Ht in Hin as (b & u & rows & Hg & ->).
      apply filter_ref_knobs_all_modes_In in Hr as [Hr Hk].
      destruct (groupby_rows NormalizeAndPlot.pair_eqb NormalizeAndPlot.pair_leb key
                  pair_eqb_eq _ _ _ r Hg Hr) as [Hin Hkey].
      unfold key in Hkey. injection Hkey as _ Hu. rewrite Hu.
      repeat split; [exact Hin | discriminate | exact Hk].
    + intros (Hin & Hu & Hk).
      destruct (ul2_cfg (row_of r)) as [u|] eqn:Eu; [|contradiction].
      set (rows := rows_with_key NormalizeAndPlot.pair_eqb key (key r) norm).
      assert (In r rows) as Hr.
      { apply filter_In. split; [exact Hin|]. apply pair_eqb_eq. reflexivity. }
      exists (NormalizeAndPlot.filter_ref_knobs_all_modes rows). split.
      * apply Ht. exists (benchmark (row_of r)), u, rows. split; [|reflexivity].
        apply (groupby_spec NormalizeAndPlot.pair_eqb NormalizeAndPlot.pair_leb key
                 pair_eqb_eq).
        split; [unfold rows, key; rewrite Eu; reflexivity|].
        intros E. rewrite E in Hr. contradiction.
      * apply filter_ref_knobs_all_modes_In. split; [exact Hr | exact Hk].
  - unfold NormalizeAndPlot.reference_table.
    rewrite filter_ref_knobs_all_modes_In, at_reference_In. tauto.
  - intros t Hin. apply Ht in Hin as (b & u & rows & Hg & ->).
    exists b, u. intros r' Hr'. apply filter_ref_knobs_all_modes_In in Hr' as [Hr' _].
    destruct (groupby_rows NormalizeAndPlot.pair_eqb NormalizeAndPlot.pair_leb key
                pair_eqb_eq _ _ _ r' Hg Hr') as [_ Hkey].
    unfold key in Hkey. injection Hkey as Hb Hu. auto.
Qed.

(** ** The lines of the charts *)

Lemma is_nan_SF x :
  is_nan x = match Prim2SF x with S754_nan => true | _ => false end.
Proof.
  destruct (is_nan x) eqn:E.
  - apply is_nan_Prim2SF in E. rewrite E. reflexivity.
  - destruct (Prim2SF x) eqn:Ex; try reflexivity.
    apply is_nan_Prim2SF in Ex. congruence.
Qed.

Lemma SFeqb_finite s1 m1 e1 s2 m2 e2 :
  SFeqb (S754_finite s1 m1 e1) (S754_finite s2 m2 e2) = true <->
  s1 = s2 /\ m1 = m2 /\ e1 = e2.
Proof.
  unfold SFeqb, SFcompare.
  change (PosDef.Pos.compare_cont Eq m1 m2) with (Pos.compare m1 m2).
  destruct s1, s2; try (split; [discriminate | intros (H & _); discriminate H]).
  - destruct (Z.compare_spec e1 e2) as [He|He|He];
      try (split; [discriminate | intros (_ & _ & H); lia]).
    destruct (Pos.compare_spec m1 m2) as [Hm|Hm|Hm]; cbn [CompOpp];
      try (split; [discriminate | intros (_ & H & _); lia]).
    split; auto.
  - destruct (Z.compare_spec e1 e2) as [He|He|He];
      try (split; [discriminate | intros (_ & _ & H); lia]).
    destruct (Pos.compare_spec m1 m2) as [Hm|Hm|Hm];
      try (split; [discriminate | intros (_ & H & _); lia]).
    split; auto.
Qed.

Lemma float_key_eqb_canon x y :
  Plots.float_key_eqb x y = true <-> canon x = canon y.
Proof.
  unfold Plots.float_key_eqb, canon. rewrite eqb_spec, !is_nan_SF.
  destruct (Prim2SF x) as [s1|s1| |s1 m1 e1], (Prim2SF y) as [s2|s2| |s2 m2 e2];
    cbn [andb]; rewrite ?orb_false_r, ?orb_true_r;
    try (rewrite SFeqb_finite; split;
         [intros (-> & -> & ->); reflexivity | intros H; injection H as -> -> ->; auto]);
    unfold SFeqb, SFcompare; try destruct s1; try destruct s2;
    split; intros H; try reflexivity; try discriminate H.
Qed.

Lemma line_key_eqb_canon a b :
  Plots.line_key_eqb a b = canon_key_eqb (canon_key a) (canon_key b).
Proof.
  unfold Plots.line_key_eqb, canon_key_eqb, canon_key. cbn [fst snd]. f_equal.
  destruct (spec_float_eq_dec (canon (snd a)) (canon (snd b))) as [E|E].
  - apply float_key_eqb_canon, E.
  - destruct (Plots.float_key_eqb (snd a) (snd b)) eqn:F; [|reflexivity].
    apply float_key_eqb_canon in F. contradiction.
Qed.

Lemma canon_key_eqb_eq a b : canon_key_eqb a b = true <-> a = b.
Proof.
  unfold canon_key_eqb. destruct a as [m1 x1], b as [m2 x2]. cbn [fst snd].
  rewrite andb_true_iff, String.eqb_eq.
  destruct (spec_float_eq_dec x1 x2) as [E|E]; split.
  - intros [-> _]. rewrite E. reflexivity.
  - intros H. injection H as -> _. auto.
  - intros [_ H]. discriminate.
  - intros H. injection H as _ H. contradiction.
Qed.

Section Relabel.

Context {K K' R : Type}.
Variable eqb : K -> K -> bool.
Variable eqb' : K' -> K' -> bool.
Variable f : K -> K'.
Variable key : R -> K.
Hypothesis eqb_f : forall a b, eqb a b = eqb' (f a) (f b).

Lemma add_to_group_relabel r gs :
  relabel f (add_to_group eqb key r gs)
  = add_to_group eqb' (fun r => f (key r)) r (relabel f gs).
Proof.
  induction gs as [|[k rows] gs IH]; [reflexivity|].
  cbn [add_to_group relabel map fst snd]. rewrite eqb_f.
  destruct (eqb' (f (key r)) (f k)); [reflexivity|].
  cbn [map fst snd]. fold (relabel f (add_to_group eqb key r gs)).
  rewrite IH. reflexivity.
Qed.

Lemma groups_of_relabel rows :
  relabel f (groups_of eqb key rows) = groups_of eqb' (fun r => f (key r)) rows.
Proof.
  induction rows as [|r rows IH] using rev_ind; [reflexivity|].
  rewrite !groups_of_snoc, add_to_group_relabel, IH. reflexivity.
Qed.

Lemma rows_with_key_relabel k rows :
  rows_with_key eqb' (fun r => f (key r)) (f k) rows = rows_with_key eqb key k rows.
Proof. apply filter_ext. intros r. symmetry. apply eqb_f. Qed.

Variable leb : K -> K -> bool.
Hypothesis eqb'_eq : forall a b, eqb' a b = true <-> a = b.

(** A grouping whose key equality is equality of canonical labels: a
    group holds the rows of its key, in row order. *)
Lemma groupby_relabel_spec rows k g :
  In (k, g) (groupby eqb leb key rows) ->
  g = rows_with_key eqb key k rows /\ g <> [].
Proof.
  intros H. unfold groupby in H.
  apply (Permutation_in _ (sort_groups_perm _ _)) in H.
  apply (in_map (fun g => (f (fst g), snd g))) in H. cbn [fst snd] in H.
  fold (relabel f (groups_of eqb key rows)) in H.
  rewrite groups_of_relabel in H.
  apply (groups_of_spec _ _ eqb'_eq) in H as [H Hne].
  rewrite rows_with_key_relabel in H. auto.
Qed.

(** Every row is in the group of a key equal to its own. *)
Lemma groupby_relabel_cover rows r :
  In r rows ->
  exists k g, In (k, g) (groupby eqb leb key rows) /\ In r g /\ eqb (key r) k = true.
Proof.
  intros Hr.
  set (g := rows_with_key eqb' (fun r => f (key r)) (f (key r)) rows).
  assert (In r g) as Hg.
  { apply filter_In. split; [exact Hr|]. apply eqb'_eq. reflexivity. }
  assert (In (f (key r), g) (groups_of eqb' (fun r => f (key r)) rows)) as H.
  { apply (groups_of_spec _ _ eqb'_eq). split; [reflexivity|].
    intros E. rewrite E in Hg. contradiction. }
  rewrite <- groups_of_relabel in H.
  apply in_map_iff in H as ([k g'] & E & H). cbn [fst snd] in E.
  pose proof (f_equal fst E) as Ek. pose proof (f_equal snd E) as Eg.
  cbn [fst snd] in Ek, Eg. subst g'. exists k, g. split; [|split].
  - unfold groupby. apply (Permutation_in _ (Permutation_sym (sort_groups_perm _ _))), H.
  - exact Hg.
  - rewrite eqb_f, Ek. apply eqb'_eq. reflexivity.
Qed.

(** No two groups have equal keys. *)
Lemma groupby_relabel_NoDup rows :
  NoDup (map (fun kg => f (fst kg)) (groupby eqb leb key rows)).
Proof.
  unfold groupby.
  eapply Permutation_NoDup.
  { apply Permutation_map, Permutation_sym, sort_groups_perm. }
  pose proof (proj1 (groups_of_spec eqb' (fun r => f (key r)) eqb'_eq rows)) as H.
  rewrite <- groups_of_relabel in H.
  unfold relabel in H. rewrite map_map in H. exact H.
Qed.

End Relabel.

Section LineFacts.

Variable mean : list float -> float.
Variables xcol ycol : norm_row -> float.

Let key (r : norm_row) : Plots.line_key := (mode (row_of r), xcol r).

Lemma agg_for_lines_groups df :
  Plots.agg_for_lines mean xcol ycol df
  = map (fun kg => (fst (fst kg), snd (fst kg), mean (map ycol (snd kg))))
      (groupby Plots.line_key_eqb Plots.line_key_leb key
         (filter (Plots.has_point xcol ycol) df)).
Proof.
  unfold Plots.agg_for_lines. cbv zeta.
  destruct (filter (Plots.has_point xcol ycol) df); reflexivity.
Qed.

Lemma line_groups_spec rows k g :
  In (k, g) (groupby Plots.line_key_eqb Plots.line_key_leb key rows) ->
  g = rows_with_key Plots.line_key_eqb key k rows /\ g <> [].
Proof.
  apply (groupby_relabel_spec _ canon_key_eqb canon_key _ line_key_eqb_canon _
           canon_key_eqb_eq).
Qed.

Lemma line_groups_cover rows r :
  In r rows ->
  exists k g, In (k, g) (groupby Plots.line_key_eqb Plots.line_key_leb key rows)
              /\ In r g /\ Plots.line_key_eqb (key r) k = true.
Proof.
  apply (groupby_relabel_cover _ canon_key_eqb canon_key _ line_key_eqb_canon _
           canon_key_eqb_eq).
Qed.

Lemma line_groups_NoDup rows :
  NoDup (map (fun kg => canon_key (fst kg))
           (groupby Plots.line_key_eqb Plots.line_key_leb key rows)).
Proof.
  apply (groupby_relabel_NoDup _ canon_key_eqb canon_key _ line_key_eqb_canon _
           canon_key_eqb_eq).
Qed.

Lemma NoDup_map_nth {A B : Type} (f : A -> B) l i j a b :
  NoDup (map f l) ->
  nth_error l i = Some a -> nth_error l j = Some b -> f a = f b -> i = j.
Proof.
  intros Hn Hi Hj E.
  apply (proj1 (NoDup_nth_error (map f l)) Hn).
  - rewrite length_map. apply nth_error_Some. congruence.
  - rewrite !nth_error_map, Hi, Hj. cbn. congruence.
Qed.

Lemma has_point_at m x r :
  Plots.has_point xcol ycol r && String.eqb (mode (row_of r)) m
    && Plots.float_key_eqb (xcol r) x
  = Plots.has_point xcol ycol r && Plots.line_key_eqb (key r) (m, x).
Proof. unfold Plots.line_key_eqb, key. cbn [fst snd]. rewrite andb_assoc. reflexivity. Qed.

Lemma agg_for_lines_In df m x y :
  In (m, x, y) (Plots.agg_for_lines mean xcol ycol df) ->
  let rows := filter (fun r => Plots.has_point xcol ycol r
                               && String.eqb (mode (row_of r)) m
                               && Plots.float_key_eqb (xcol r) x) df in
  rows <> [] /\ y = mean (map ycol rows).
Proof.
  intros H rows. rewrite agg_for_lines_groups in H.
  apply in_map_iff in H as ([[m' x'] g] & E & H). cbn [fst snd] in E.
  injection E as -> -> <-.
  apply line_groups_spec in H as [-> Hne].
  assert (rows = rows_with_key Plots.line_key_eqb key (m, x)
                   (filter (Plots.has_point xcol ycol) df)) as ->.
  { unfold rows, rows_with_key. rewrite filter_andb. apply filter_ext, has_point_at. }
  auto.
Qed.

Lemma agg_for_lines_cover df r :
  In r df -> Plots.has_point xcol ycol r = true ->
  exists x y, In (mode (row_of r), x, y) (Plots.agg_for_lines mean xcol ycol df)
              /\ Plots.float_key_eqb (xcol r) x = true.
Proof.
  intros Hr Hp.
  destruct (line_groups_cover (filter (Plots.has_point xcol ycol) df) r)
    as ([m x] & g & H & _ & E); [apply filter_In; auto|].
  unfold Plots.line_key_eqb, key in E. cbn [fst snd] in E.
  apply andb_prop in E as [Em Ex]. apply String.eqb_eq in Em. subst m.
  exists x, (mean (map ycol g)). split; [|exact Ex].
  rewrite agg_for_lines_groups. apply in_map_iff.
  exists ((mode (row_of r), x), g). auto.
Qed.

Lemma agg_for_lines_NoDup df :
  NoDup (map (fun p => canon_key (fst p)) (Plots.agg_for_lines mean xcol ycol df)).
Proof.
  rewrite agg_for_lines_groups, map_map. cbn [fst snd].
  erewrite map_ext; [apply line_groups_NoDup|].
  intros [[m x] g]. reflexivity.
Qed.

End LineFacts.

Lemma canon_nan x : is_nan x = true <-> canon x = S754_nan.
Proof.
  rewrite is_nan_Prim2SF. unfold canon.
  destruct (Prim2SF x); split; intros H; try discriminate H; reflexivity.
Qed.

Lemma float_key_eqb_nan x y :
  Plots.float_key_eqb x y = true -> is_nan x = is_nan y.
Proof.
  intros H. apply float_key_eqb_canon in H.
  destruct (is_nan x) eqn:Ex, (is_nan y) eqn:Ey; try reflexivity.
  - apply canon_nan in Ex. rewrite H in Ex. apply canon_nan in Ex. congruence.
  - apply canon_nan in Ey. rewrite <- H in Ey. apply canon_nan in Ey. congruence.
Qed.

(** X14: [agg_for_lines] collapses the rows that have both values to
    one point per mode and [x]: every point carries the mean of [ycol]
    over the rows of its mode with an equal [x], every such row is
    represented by a point, the [x] of a point is not NaN, and no two
    points have the same mode and equal [x]. *)
Theorem agg_for_lines_one_point_per_x :
  forall (mean : list float -> float) (xcol ycol : norm_row -> float)
         (df : list norm_row),
    let out := Plots.agg_for_lines mean xcol ycol df in
    let at_point m x r :=
      Plots.has_point xcol ycol r && String.eqb (mode (row_of r)) m
      && Plots.float_key_eqb (xcol r) x in
    (forall m x y,
        In (m, x, y) out ->
        filter (at_point m x) df <> []
        /\ y = mean (map ycol (filter (at_point m x) df))
        /\ is_nan x = false)
    /\ (forall r,
          In r df -> Plots.has_point xcol ycol r = true ->
          exists x y, In (mode (row_of r), x, y) out
                      /\ Plots.float_key_eqb (xcol r) x = true)
    /\ (forall i j p q,
          nth_error out i = Some p -> nth_error out j = Some q ->
          fst (fst p) = fst (fst q) ->
          Plots.float_key_eqb (snd (fst p)) (snd (fst q)) = true ->
          i = j).
Proof.
  intros mean xcol ycol df out at_point. split; [|split].
  - intros m x y H. destruct (agg_for_lines_In mean xcol ycol df m x y H) as [Hne Hy].
    fold (at_point m x) in Hne, Hy. split; [exact Hne|]. split; [exact Hy|].
    destruct (filter (at_point m x) df) as [|r rows] eqn:E; [contradiction|].
    assert (In r (filter (at_point m x) df)) as Hr by (rewrite E; left; reflexivity).
    apply filter_In in Hr as [_ Hr]. unfold at_point in Hr.
    apply andb_prop in Hr as [Hr Hx]. apply andb_prop in Hr as [Hp _].
    unfold Plots.has_point in Hp. apply andb_prop in Hp as [Hp _].
    apply negb_true_iff in Hp. rewrite <- (float_key_eqb_nan _ _ Hx). exact Hp.
  - apply agg_for_lines_cover.
  - intros i j p q Hi Hj Hm Hx.
    apply (NoDup_map_nth (fun p => canon_key (fst p)) out i j p q);
      [apply agg_for_lines_NoDup | exact Hi | exact Hj |].
    cbv beta. unfold canon_key. f_equal; [exact Hm | apply float_key_eqb_canon, Hx].
Qed.

Lemma insert_by_x_perm p l : Permutation (Plots.insert_by_x p l) (p :: l).
Proof.
  induction l as [|q l IH]; [reflexivity|]. cbn [Plots.insert_by_x].
  destruct (Plots.float_key_leb (fst p) (fst q)); [reflexivity|].
  rewrite IH. apply perm_swap.
Qed.

Lemma sort_values_perm l : Permutation (Plots.sort_values l) l.
Proof.
  induction l as [|x l IH]; [reflexivity|]. unfold Plots.sort_values in *.
  cbn [fold_right]. rewrite insert_by_x_perm, IH. reflexivity.
Qed.

Lemma NoDup_map_coarser {A B C : Type} (f : A -> B) (h : A -> C) l :
  (forall a b, In a l -> In b l -> h a = h b -> f a = f b) ->
  NoDup (map f l) -> NoDup (map h l).
Proof.
  induction l as [|a l IH]; intros Hf Hn; [constructor|].
  cbn [map] in *. inversion Hn as [|? ? Ha Hl]. subst. constructor.
  - intros Hin. apply in_map_iff in Hin as (b & E & Hb). apply Ha.
    apply in_map_iff. exists b. split; [|exact Hb].
    apply Hf; [right; exact Hb | left; reflexivity | exact E].
  - apply IH; [|exact Hl]. intros x y Hx Hy. apply Hf; right; assumption.
Qed.

Lemma NoDup_map_filter {A B : Type} (f : A -> B) (p : A -> bool) l :
  NoDup (map f l) -> NoDup (map f (filter p l)).
Proof.
  induction l as [|a l IH]; intros Hn; [constructor|].
  cbn [map filter] in *. inversion Hn as [|? ? Ha Hl]. subst.
  destruct (p a); [|apply IH, Hl]. cbn [map]. constructor; [|apply IH, Hl].
  intros Hin. apply Ha. apply in_map_iff in Hin as (b & E & Hb).
  apply in_map_iff. exists b. split; [exact E|]. apply filter_In in Hb. tauto.
Qed.

Section LinePlots.

Variable mean : list float -> float.
Variables xcol ycol : norm_row -> float.

(** The points [lineplot_by_mode] plots for the mode [m]. *)
Let line (df : list norm_row) (m : string) : list (float * float) :=
  Plots.sort_values
    (map (fun p => (snd (fst p), snd p))
       (filter (fun p : string * float * float => String.eqb (fst (fst p)) m)
          (Plots.agg_for_lines mean xcol ycol df))).

Lemma line_In df m x y :
  In (x, y) (line df m) <-> In (m, x, y) (Plots.agg_for_lines mean xcol ycol df).
Proof.
  unfold line. split.
  - intros H. apply (Permutation_in _ (sort_values_perm _)) in H.
    apply in_map_iff in H as ([[m' x'] y'] & E & H). cbn [fst snd] in E.
    injection E as -> ->. apply filter_In in H as [H Em]. cbn [fst] in Em.
    apply String.eqb_eq in Em. subst m'. exact H.
  - intros H. apply (Permutation_in _ (Permutation_sym (sort_values_perm _))).
    apply in_map_iff. exists (m, x, y). split; [reflexivity|].
    apply filter_In. split; [exact H|]. apply String.eqb_refl.
Qed.

Lemma line_NoDup df m : NoDup (map (fun p => canon (fst p)) (line df m)).
Proof.
  unfold line.
  eapply Permutation_NoDup.
  { apply Permutation_map, Permutation_sym, sort_values_perm. }
  rewrite map_map. cbn [fst snd].
  apply (NoDup_map_coarser (fun p : string * float * float => canon_key (fst p))).
  - intros [[m1 x1] y1] [[m2 x2] y2] H1 H2 E. cbn [fst snd] in *.
    apply filter_In in H1 as [_ H1], H2 as [_ H2]. cbn [fst] in H1, H2.
    apply String.eqb_eq in H1, H2. subst. unfold canon_key. cbn [fst snd].
    rewrite E. reflexivity.
  - apply NoDup_map_filter, agg_for_lines_NoDup.
Qed.

Lemma mode_in_agg df m :
  isin m (unique (map (fun p : string * float * float => fst (fst p))
                    (Plots.agg_for_lines mean xcol ycol df)))
  = existsb (fun r => Plots.has_point xcol ycol r && String.eqb (mode (row_of r)) m) df.
Proof.
  apply Bool.eq_iff_eq_true. unfold isin. rewrite !existsb_exists. split.
  - intros (m' & Hin & E). apply String.eqb_eq in E. subst m'.
    apply unique_In, in_map_iff in Hin as ([[m' x] y] & E & Hin). cbn [fst] in E. subst m'.
    destruct (agg_for_lines_In mean xcol ycol df m x y Hin) as [Hne _].
    destruct (filter _ df) as [|r rows] eqn:Ef; [contradiction|].
    assert (In r (filter (fun r => Plots.has_point xcol ycol r
                                   && String.eqb (mode (row_of r)) m
                                   && Plots.float_key_eqb (xcol r) x) df)) as Hr
      by (rewrite Ef; left; reflexivity).
    apply filter_In in Hr as [Hr Hc]. apply andb_prop in Hc as [Hc _].
    exists r. auto.
  - intros (r & Hr & Hc). apply andb_prop in Hc as [Hp Hm].
    apply String.eqb_eq in Hm. subst m.
    destruct (agg_for_lines_cover mean xcol ycol df r Hr Hp) as (x & y & Hin & _).
    exists (mode (row_of r)). split; [|apply String.eqb_refl].
    apply unique_In, in_map_iff. exists (mode (row_of r), x, y). auto.
Qed.

Lemma lineplot_by_mode_lines df mode_order :
  Plots.agg_for_lines mean xcol ycol df <> [] ->
  Plots.lineplot_by_mode mean xcol ycol df mode_order
  = Some (map (fun m => (m, line df m))
            (filter (fun m => existsb (fun r => Plots.has_point xcol ycol r
                                                && String.eqb (mode (row_of r)) m) df)
               mode_order)).
Proof.
  intros Hne. unfold Plots.lineplot_by_mode. cbv zeta.
  destruct (Plots.agg_for_lines mean xcol ycol df) as [|p0 agg] eqn:Ea; [contradiction|].
  rewrite <- Ea. f_equal.
  rewrite (filter_ext _ _ (mode_in_agg df)).
  induction mode_order as [|m order IH]; [reflexivity|]. cbn [filter].
  destruct (existsb _ df) eqn:Em; [|exact IH].
  cbn [flat_map map]. rewrite IH. fold (line df m).
  destruct (line df m) as [|pt pts] eqn:El; [|reflexivity].
  exfalso. rewrite <- mode_in_agg in Em. unfold isin in Em.
  apply existsb_exists in Em as (m' & Hin & E). apply String.eqb_eq in E. subst m'.
  apply unique_In, in_map_iff in Hin as ([[m' x] y] & E & Hin). cbn [fst] in E. subst m'.
  apply line_In in Hin. rewrite El in Hin. contradiction.
Qed.

Lemma agg_for_lines_nil df :
  Plots.agg_for_lines mean xcol ycol df = [] <->
  forall r, In r df -> Plots.has_point xcol ycol r = false.
Proof.
  split.
  - intros E r Hr. destruct (Plots.has_point xcol ycol r) eqn:Hp; [|reflexivity].
    destruct (agg_for_lines_cover mean xcol ycol df r Hr Hp) as (x & y & Hin & _).
    rewrite E in Hin. contradiction.
  - intros H. unfold Plots.agg_for_lines. cbv zeta.
    destruct (filter (Plots.has_point xcol ycol) df) as [|r rows] eqn:E; [reflexivity|].
    assert (In r (filter (Plots.has_point xcol ycol) df)) as Hr
      by (rewrite E; left; reflexivity).
    apply filter_In in Hr as [Hr Hp]. rewrite (H r Hr) in Hp. discriminate.
Qed.

End LinePlots.

(** X15: [lineplot_by_mode] draws no chart exactly when no row has both
    values. Otherwise it draws one line for each mode of [mode_order]
    that has such a row, in the order of [mode_order], and none for any
    other mode; the points of a line are the points [agg_for_lines]
    returns for its mode, and no two of them have equal [x]. *)
Theorem lineplot_by_mode_draws :
  forall (mean : list float -> float) (xcol ycol : norm_row -> float)
         (df : list norm_row) (mode_order : list string),
    let plotted := Plots.lineplot_by_mode mean xcol ycol df mode_order in
    (plotted = None <-> forall r, In r df -> Plots.has_point xcol ycol r = false)
    /\ (forall lines,
          plotted = Some lines ->
          map fst lines
          = filter (fun m => existsb (fun r => Plots.has_point xcol ycol r
                                               && String.eqb (mode (row_of r)) m) df)
              mode_order
          /\ forall m pts,
               In (m, pts) lines ->
               (forall x y, In (x, y) pts <->
                            In (m, x, y) (Plots.agg_for_lines mean xcol ycol df))
               /\ (forall i j p q,
                     nth_error pts i = Some p -> nth_error pts j = Some q ->
                     Plots.float_key_eqb (fst p) (fst q) = true -> i = j)).
Proof.
  intros mean xcol ycol df mode_order plotted. unfold plotted. split.
  - rewrite <- (agg_for_lines_nil mean). split.
    + intros H. destruct (Plots.agg_for_lines mean xcol ycol df) eqn:E; [reflexivity|].
      rewrite lineplot_by_mode_lines in H by (rewrite E; discriminate). discriminate.
    + intros E. unfold Plots.lineplot_by_mode. cbv zeta. rewrite E. reflexivity.
  - intros lines H.
    destruct (Plots.agg_for_lines mean xcol ycol df) as [|p0 agg] eqn:E.
    { unfold Plots.lineplot_by_mode in H. cbv zeta in H. rewrite E in H. discriminate. }
    rewrite lineplot_by_mode_lines in H by (rewrite E; discriminate).
    injection H as <-. rewrite <- E. split.
    + rewrite map_map. cbn [fst]. apply map_id.
    + intros m pts Hin. apply in_map_iff in Hin as (m' & Em & _).
      injection Em as -> <-. split.
      * intros x y. apply line_In.
      * intros i j p q Hi Hj Hx.
        apply (NoDup_map_nth (fun p => canon (fst p)) _ i j p q (line_NoDup mean xcol ycol df m)
                 Hi Hj).
        cbv beta. apply float_key_eqb_canon, Hx.
Qed.

(** ** The points of chart 6 *)

Lemma capacity_key_eqb_canon a b :
  Plots.capacity_key_eqb a b
  = canon_capacity_key_eqb (canon_capacity_key a) (canon_capacity_key b).
Proof.
  unfold Plots.capacity_key_eqb, canon_capacity_key_eqb, canon_capacity_key.
  cbn [fst snd]. f_equal.
  destruct (spec_float_eq_dec (canon (snd a)) (canon (snd b))) as [E|E].
  - apply float_key_eqb_canon, E.
  - destruct (Plots.float_key_eqb (snd a) (snd b)) eqn:F; [|reflexivity].
    apply float_key_eqb_canon in F. contradiction.
Qed.

Lemma canon_capacity_key_eqb_eq a b : canon_capacity_key_eqb a b = true <-> a = b.
Proof.
  unfold canon_capacity_key_eqb. destruct a as [[b1 d1] x1], b as [[b2 d2] x2].
  cbn [fst snd]. rewrite !andb_true_iff, !label_eqb_eq.
  destruct (spec_float_eq_dec x1 x2) as [E|E]; split.
  - intros [[-> ->] _]. rewrite E. reflexivity.
  - intros H. injection H as -> -> _. auto.
  - intros [_ H]. discriminate.
  - intros H. injection H as _ _ H. contradiction.
Qed.

Lemma insert_by_ul2_bytes_perm p l : Permutation (Plots.insert_by_ul2_bytes p l) (p :: l).
Proof.
  induction l as [|q l IH]; [reflexivity|]. cbn [Plots.insert_by_ul2_bytes].
  destruct (Plots.float_key_leb _ _); [reflexivity|].
  rewrite IH. apply perm_swap.
Qed.

Lemma sort_by_ul2_bytes_perm l : Permutation (Plots.sort_by_ul2_bytes l) l.
Proof.
  induction l as [|x l IH]; [reflexivity|]. unfold Plots.sort_by_ul2_bytes in *.
  cbn [fold_right]. rewrite insert_by_ul2_bytes_perm, IH. reflexivity.
Qed.

Section CapacityFacts.

Variable mean : list float -> float.

(** The baseline rows of the benchmark [b] and the level-1
    configuration [d] whose level-2 capacity is [x]. *)
Let cell (b d : option string) (x : float) (r : norm_row) : bool :=
  String.eqb (mode (row_of r)) "baseline"
  && negb (is_nan (ul2_bytes (row_of r)))
  && label_eqb (benchmark (row_of r)) b
  && label_eqb (dl1_cfg (row_of r)) d
  && Plots.float_key_eqb (ul2_bytes (row_of r)) x.

Let key (r : norm_row) : Plots.capacity_key :=
  (benchmark (row_of r), dl1_cfg (row_of r), ul2_bytes (row_of r)).

Let grouped (norm : list norm_row) : list norm_row :=
  filter (fun r => Plots.has_label (benchmark (row_of r))
                   && Plots.has_label (dl1_cfg (row_of r)))
    (NormalizeAndPlot.base_only norm).

Lemma cell_rows norm b d x :
  rows_with_key Plots.capacity_key_eqb key (Some b, Some d, x) (grouped norm)
  = filter (cell (Some b) (Some d) x) norm.
Proof.
  unfold rows_with_key, grouped, NormalizeAndPlot.base_only.
  rewrite !filter_andb. apply filter_ext. intros r.
  unfold cell, Plots.capacity_key_eqb, key. cbn [fst snd].
  destruct (String.eqb (mode (row_of r)) "baseline"), (is_nan (ul2_bytes (row_of r))),
    (Plots.float_key_eqb (ul2_bytes (row_of r)) x),
    (benchmark (row_of r)) as [b'|], (dl1_cfg (row_of r)) as [d'|];
    cbn [Plots.has_label label_eqb negb andb]; try reflexivity;
    destruct (String.eqb b' b); try reflexivity; destruct (String.eqb d' d); reflexivity.
Qed.

Lemma grouped_In norm r :
  In r (grouped norm) <->
  In r norm /\ mode (row_of r) = "baseline" /\ is_nan (ul2_bytes (row_of r)) = false
  /\ benchmark (row_of r) <> None /\ dl1_cfg (row_of r) <> None.
Proof.
  unfold grouped, NormalizeAndPlot.base_only.
  rewrite !filter_In, andb_true_iff, negb_true_iff, String.eqb_eq.
  destruct (benchmark (row_of r)), (dl1_cfg (row_of r)); cbn [Plots.has_label];
    intuition (try discriminate; try congruence).
Qed.

Lemma base_only_agg_In norm p :
  In p (Plots.base_only_agg mean norm) ->
  exists b d,
    Plots.cp_benchmark p = Some b /\ Plots.cp_dl1_cfg p = Some d
    /\ is_nan (Plots.cp_ul2_bytes p) = false
    /\ filter (cell (Some b) (Some d) (Plots.cp_ul2_bytes p)) norm <> []
    /\ Plots.cp_ul2_miss_rate p
       = mean (map (fun r => ul2_miss_rate (row_of r))
                 (filter (cell (Some b) (Some d) (Plots.cp_ul2_bytes p)) norm))
    /\ Plots.cp_ul2_miss_norm p
       = mean (map ul2_miss_norm
                 (filter (cell (Some b) (Some d) (Plots.cp_ul2_bytes p)) norm)).
Proof.
  unfold Plots.base_only_agg. intros H.
  apply in_map_iff in H as ([[[bo do] x] g] & <- & H). cbn [fst snd].
  fold key in H. fold (grouped norm) in H.
  apply (groupby_relabel_spec _ canon_capacity_key_eqb canon_capacity_key _
           capacity_key_eqb_canon _ canon_capacity_key_eqb_eq) in H as [Hg Hne].
  destruct g as [|r0 g0] eqn:Eg; [contradiction|].
  assert (In r0 (rows_with_key Plots.capacity_key_eqb key (bo, do, x) (grouped norm))) as Hr0
    by (rewrite <- Hg; left; reflexivity).
  apply filter_In in Hr0 as [Hin Hk]. apply grouped_In in Hin as (_ & _ & Hx & Hb & Hd).
  unfold Plots.capacity_key_eqb, key in Hk. cbn [fst snd] in Hk.
  apply andb_prop in Hk as [Hk Hkx]. apply andb_prop in Hk as [Hkb Hkd].
  apply label_eqb_eq in Hkb, Hkd. subst bo do.
  destruct (benchmark (row_of r0)) as [b|]; [|contradiction].
  destruct (dl1_cfg (row_of r0)) as [d|]; [|contradiction].
  exists b, d. cbn [Plots.cp_benchmark Plots.cp_dl1_cfg Plots.cp_ul2_bytes
                    Plots.cp_ul2_miss_rate Plots.cp_ul2_miss_norm].
  rewrite <- cell_rows, <- Hg.
  repeat split; try discriminate.
  rewrite <- (float_key_eqb_nan _ _ Hkx). exact Hx.
Qed.

Lemma base_only_agg_cover norm r b d :
  In r norm -> mode (row_of r) = "baseline" ->
  benchmark (row_of r) = Some b -> dl1_cfg (row_of r) = Some d ->
  is_nan (ul2_bytes (row_of r)) = false ->
  exists p, In p (Plots.base_only_agg mean norm)
            /\ Plots.cp_benchmark p = Some b /\ Plots.cp_dl1_cfg p = Some d
            /\ Plots.float_key_eqb (ul2_bytes (row_of r)) (Plots.cp_ul2_bytes p) = true.
Proof.
  intros Hr Hm Hb Hd Hx.
  assert (In r (grouped norm)) as Hg.
  { apply grouped_In. rewrite Hb, Hd. repeat split; auto; discriminate. }
  destruct (groupby_relabel_cover _ canon_capacity_key_eqb canon_capacity_key key
              capacity_key_eqb_canon Plots.capacity_key_leb canon_capacity_key_eqb_eq
              (grouped norm) r Hg) as ([[bo do] x] & g & H & _ & E).
  unfold Plots.capacity_key_eqb, key in E. cbn [fst snd] in E.
  apply andb_prop in E as [E Ex]. apply andb_prop in E as [Eb Ed].
  apply label_eqb_eq in Eb, Ed. rewrite Hb in Eb. rewrite Hd in Ed. subst bo do.
  eexists. split.
  - unfold Plots.base_only_agg. apply in_map_iff. eexists. split; [reflexivity|]. exact H.
  - cbn [fst snd Plots.cp_benchmark Plots.cp_dl1_cfg Plots.cp_ul2_bytes]. auto.
Qed.

Lemma base_only_agg_NoDup norm :
  NoDup (map (fun p => canon_capacity_key
                         (Plots.cp_benchmark p, Plots.cp_dl1_cfg p, Plots.cp_ul2_bytes p))
           (Plots.base_only_agg mean norm)).
Proof.
  unfold Plots.base_only_agg. rewrite map_map.
  cbn [Plots.cp_benchmark Plots.cp_dl1_cfg Plots.cp_ul2_bytes].
  erewrite map_ext;
    [apply (groupby_relabel_NoDup _ canon_capacity_key_eqb canon_capacity_key _
              capacity_key_eqb_canon _ canon_capacity_key_eqb_eq)|].
  intros [[[bo do] x] g]. reflexivity.
Qed.

Let chart_key (p : Plots.capacity_point) : option string * option string :=
  (Plots.cp_benchmark p, Plots.cp_dl1_cfg p).

Lemma ul2_size_charts_In norm bo do pts :
  In (bo, do, pts) (Plots.ul2_size_charts mean norm) <->
  do <> None
  /\ exists g, In ((bo, do), g)
                  (groupby NormalizeAndPlot.pair_eqb NormalizeAndPlot.pair_leb chart_key
                     (Plots.base_only_agg mean norm))
               /\ pts = Plots.sort_by_ul2_bytes g.
Proof.
  unfold Plots.ul2_size_charts. rewrite in_flat_map. split.
  - intros ([[b d] g] & Hg & Hin). cbn [fst snd] in Hin.
    destruct d as [d|]; [|contradiction]. destruct Hin as [E|[]].
    injection E as <- <- <-. split; [discriminate|]. eauto.
  - intros (Hd & g & Hg & ->). exists ((bo, do), g). split; [exact Hg|].
    cbn [fst snd]. destruct do; [left; reflexivity | contradiction].
Qed.

Lemma ul2_size_charts_keys norm :
  map fst (Plots.ul2_size_charts mean norm)
  = filter (fun k => Plots.has_label (snd k))
      (map fst (groupby NormalizeAndPlot.pair_eqb NormalizeAndPlot.pair_leb chart_key
                  (Plots.base_only_agg mean norm))).
Proof.
  unfold Plots.ul2_size_charts. fold chart_key.
  induction (groupby _ _ chart_key _) as [|[[b d] g] gs IH]; [reflexivity|].
  cbn [flat_map map filter fst snd]. destruct d; cbn [Plots.has_label app map fst];
    rewrite IH; reflexivity.
Qed.

End CapacityFacts.

(** X16: the points of chart 6. Every chart belongs to a benchmark and
    a level-1 configuration, and no two charts to the same ones; it has
    one point per level-2 capacity, which carries the means of
    [ul2_miss_rate] and of [ul2_miss_norm] over the baseline rows of that
    benchmark, configuration and capacity; every baseline row that has a
    benchmark, a level-1 configuration and a capacity is represented, and
    no other row is. *)
Theorem ul2_size_charts_points :
  forall (mean : list float -> float) (norm : list norm_row),
    let charts := Plots.ul2_size_charts mean norm in
    let cell b d x r :=
      String.eqb (mode (row_of r)) "baseline"
      && negb (is_nan (ul2_bytes (row_of r)))
      && label_eqb (benchmark (row_of r)) (Some b)
      && label_eqb (dl1_cfg (row_of r)) (Some d)
      && Plots.float_key_eqb (ul2_bytes (row_of r)) x in
    (forall bo do pts,
        In (bo, do, pts) charts ->
        exists b d,
          bo = Some b /\ do = Some d /\ pts <> []
          /\ (forall p,
                In p pts ->
                let rows := filter (cell b d (Plots.cp_ul2_bytes p)) norm in
                Plots.cp_benchmark p = Some b /\ Plots.cp_dl1_cfg p = Some d
                /\ is_nan (Plots.cp_ul2_bytes p) = false
                /\ rows <> []
                /\ Plots.cp_ul2_miss_rate p
                   = mean (map (fun r => ul2_miss_rate (row_of r)) rows)
                /\ Plots.cp_ul2_miss_norm p = mean (map ul2_miss_norm rows))
          /\ (forall i j p q,
                nth_error pts i = Some p -> nth_error pts j = Some q ->
                Plots.float_key_eqb (Plots.cp_ul2_bytes p) (Plots.cp_ul2_bytes q) = true ->
                i = j))
    /\ (forall r b d,
          In r norm -> mode (row_of r) = "baseline" ->
          benchmark (row_of r) = Some b -> dl1_cfg (row_of r) = Some d ->
          is_nan (ul2_bytes (row_of r)) = false ->
          exists pts p,
            In (Some b, Some d, pts) charts /\ In p pts
            /\ Plots.float_key_eqb (ul2_bytes (row_of r)) (Plots.cp_ul2_bytes p) = true)
    /\ NoDup (map fst charts).
Proof.
  intros mean norm charts cell.
  set (chart_key := fun p => (Plots.cp_benchmark p, Plots.cp_dl1_cfg p)).
  split; [|split].
  - intros bo do pts H. apply ul2_size_charts_In in H as (Hd & g & Hg & ->).
    destruct (groupby_spec _ NormalizeAndPlot.pair_leb chart_key pair_eqb_eq
                (Plots.base_only_agg mean norm)) as [_ Hs].
    apply Hs in Hg as [Hg Hne]. clear Hs.
    assert (forall p, In p g -> In p (Plots.base_only_agg mean norm)
                                /\ Plots.cp_benchmark p = bo /\ Plots.cp_dl1_cfg p = do) as Hp.
    { intros p Hin. rewrite Hg in Hin. apply filter_In in Hin as [Hin Hk].
      apply pair_eqb_eq in Hk. unfold chart_key in Hk. injection Hk as <- <-. auto. }
    destruct g as [|p0 g0] eqn:Eg; [contradiction|]. rewrite <- Eg in *.
    assert (In p0 g) as Hp0 by (rewrite Eg; left; reflexivity).
    destruct (Hp p0 Hp0) as (Hin0 & Hb0 & Hd0).
    destruct (base_only_agg_In mean norm p0 Hin0) as (b & d & Eb & Ed & _).
    exists b, d. split; [congruence|]. split; [congruence|]. split; [|split].
    + intros E. apply (Permutation_in _ (Permutation_sym (sort_by_ul2_bytes_perm g))) in Hp0.
      rewrite E in Hp0. contradiction.
    + intros p Hin rows.
      apply (Permutation_in _ (sort_by_ul2_bytes_perm g)) in Hin.
      destruct (Hp p Hin) as (Hagg & Hb & Hd').
      destruct (base_only_agg_In mean norm p Hagg) as (b' & d' & Eb' & Ed' & Hx & Hr & H1 & H2).
      assert (b' = b) by congruence. assert (d' = d) by congruence. subst b' d'.
      unfold rows. repeat split; assumption.
    + intros i j p q Hi Hj Hx.
      apply (NoDup_map_nth (fun p => canon (Plots.cp_ul2_bytes p))
               (Plots.sort_by_ul2_bytes g) i j p q);
        [|exact Hi | exact Hj | cbv beta; apply float_key_eqb_canon, Hx].
      eapply Permutation_NoDup.
      { apply Permutation_map, Permutation_sym, sort_by_ul2_bytes_perm. }
      rewrite Hg.
      apply (NoDup_map_coarser
               (fun p => canon_capacity_key
                           (Plots.cp_benchmark p, Plots.cp_dl1_cfg p, Plots.cp_ul2_bytes p))).
      * intros x y Hx' Hy' E. apply filter_In in Hx' as [_ Hx'], Hy' as [_ Hy'].
        apply pair_eqb_eq in Hx', Hy'. unfold chart_key in Hx', Hy'.
        injection Hx' as -> ->. injection Hy' as Hb' Hd'.
        unfold canon_capacity_key. cbn [fst snd]. rewrite Hb', Hd', E. reflexivity.
      * apply NoDup_map_filter, base_only_agg_NoDup.
  - intros r b d Hr Hm Hb Hd Hx.
    destruct (base_only_agg_cover mean norm r b d Hr Hm Hb Hd Hx) as (p & Hp & Eb & Ed & Ex).
    set (g := rows_with_key NormalizeAndPlot.pair_eqb chart_key (Some b, Some d)
                (Plots.base_only_agg mean norm)).
    assert (In p g) as Hg.
    { apply filter_In. split; [exact Hp|]. apply pair_eqb_eq. unfold chart_key.
      rewrite Eb, Ed. reflexivity. }
    exists (Plots.sort_by_ul2_bytes g), p. split; [|split].
    + apply ul2_size_charts_In. split; [discriminate|]. exists g. split; [|reflexivity].
      apply (groupby_spec _ NormalizeAndPlot.pair_leb chart_key pair_eqb_eq).
      split; [reflexivity|]. intros E. rewrite E in Hg. contradiction.
    + apply (Permutation_in _ (Permutation_sym (sort_by_ul2_bytes_perm g))), Hg.
    + exact Ex.
  - unfold charts. rewrite ul2_size_charts_keys. apply NoDup_filter.
    apply (groupby_spec _ NormalizeAndPlot.pair_leb _ pair_eqb_eq).
Qed.
